(** * ESMFold orchestration scripts: FASTA reader, shared append log,
      artifact matcher and collector

    A shallow embedding of
    - [fold_gpu/array/run_fold_parallel.py]: [list_files_with_extension],
      [load_fasta_entries], [write_to_shared_file] and the script body,
      the folding model being given;
    - [fold_gaudi/array/collector.py]: [_safe_first], [_process_entry],
      [_process_faa_item] and the script body;
    - [fold_gpu/array/submitter_fold.py] and
      [fold_gaudi/array/submitter_fold.py]: the job script and the
      submission loop.

    Python [str] values are lists of Unicode code points; exceptions are an
    explicit result type; the file system is a finite view from paths to
    nodes that is threaded through the code that writes to it. *)

From Stdlib Require Import Strings.String Strings.Ascii.
From Stdlib Require Import List NArith ZArith Lia Bool Permutation Sorted.
From Stdlib Require DecimalNat.
Import ListNotations.


(* ================================================================== *)
(** * Python values *)
(* ================================================================== *)

Module Py.

Local Open Scope N_scope.

(** A [str] is its sequence of code points. *)
Definition char := N.
Definition str := list char.

(** An ASCII literal as a [str]. *)
Definition str_of (s : string) : str := map N_of_ascii (list_ascii_of_string s).
Arguments str_of s%_string.

Definition LF : char := 10.
Definition CR : char := 13.
Definition SPACE : char := 32.
Definition TAB : char := 9.

(** The exceptions the modelled code can raise. [LibraryError] stands for
    whatever an external library call (pandas, the folding model) raises. *)
Inductive exn :=
| FileNotFoundError
| IsADirectoryError
| NotADirectoryError
| PermissionError
| IndexError
| KeyError
| AttributeError
| ValueError
| TypeError
| LibraryError.

Inductive result (A : Type) :=
| Ok (a : A)
| Raise (e : exn).
Arguments Ok {A} a.
Arguments Raise {A} e.

Definition bind {A B} (m : result A) (f : A -> result B) : result B :=
  match m with
  | Ok a => f a
  | Raise e => Raise e
  end.

Definition raises {A} (m : result A) : bool :=
  match m with Ok _ => false | Raise _ => true end.

(** [map] for a function that may raise: the first exception wins. *)
Fixpoint mapM {A B} (f : A -> result B) (l : list A) : result (list B) :=
  match l with
  | [] => Ok []
  | x :: xs =>
      bind (f x) (fun y => bind (mapM f xs) (fun ys => Ok (y :: ys)))
  end.

(** ** Character classes *)

(** [str.isspace] on one code point (Unicode 14, CPython 3.11). *)
Definition whitespace_table : list char :=
  [ 9; 10; 11; 12; 13; 28; 29; 30; 31; 32; 133; 160; 5760;
    8192; 8193; 8194; 8195; 8196; 8197; 8198; 8199; 8200; 8201; 8202;
    8232; 8233; 8239; 8287; 12288 ].

Definition is_space (c : char) : bool :=
  existsb (N.eqb c) whitespace_table.

(** The code points of value zero of every decimal-digit block (general
    category Nd); each block is ten consecutive code points.  This is the
    class of [\d] in a [str] pattern and the digits [int] accepts. *)
Definition decimal_zeros : list char :=
  [ 48; 1632; 1776; 1984; 2406; 2534; 2662; 2790; 2918; 3046; 3174; 3302;
    3430; 3558; 3664; 3792; 3872; 4160; 4240; 6112; 6160; 6470; 6608; 6784;
    6800; 6992; 7088; 7232; 7248; 42528; 43216; 43264; 43472; 43504; 43600;
    44016; 65296; 66720; 68912; 69734; 69872; 69942; 70096; 70384; 70736;
    70864; 71248; 71360; 71472; 71904; 72016; 72784; 73040; 73120; 92768;
    92864; 93008; 120782; 120792; 120802; 120812; 120822; 123200; 123632;
    125264; 130032 ].

Definition in_block (c z : char) : bool := (z <=? c) && (c <? z + 10).

Definition is_decimal (c : char) : bool :=
  existsb (in_block c) decimal_zeros.

Definition decimal_value (c : char) : N :=
  match find (in_block c) decimal_zeros with
  | Some z => c - z
  | None => 0
  end.

(** ** String methods *)

Fixpoint lstrip (s : str) : str :=
  match s with
  | c :: s' => if is_space c then lstrip s' else s
  | [] => []
  end.

Definition rstrip (s : str) : str := rev (lstrip (rev s)).

(** [s.strip()] *)
Definition strip (s : str) : str := rstrip (lstrip s).

(** [s.startswith(p)] *)
Fixpoint startswith (s p : str) {struct p} : bool :=
  match p, s with
  | [], _ => true
  | a :: p', b :: s' => (a =? b) && startswith s' p'
  | _ :: _, [] => false
  end.

(** [s.endswith(p)] *)
Definition endswith (s p : str) : bool := startswith (rev s) (rev p).

(** [s.replace(c, "")] for a one-character [c]. *)
Definition remove_char (c : char) (s : str) : str :=
  filter (fun x => negb (x =? c)) s.

(** [sep.join(parts)] *)
Fixpoint join (sep : str) (parts : list str) : str :=
  match parts with
  | [] => []
  | [p] => p
  | p :: ps => p ++ sep ++ join sep ps
  end.

(** [str(n)] for a non-negative [int]. *)
Fixpoint uint_chars (u : Decimal.uint) : str :=
  match u with
  | Decimal.Nil => []
  | Decimal.D0 u' => 48 :: uint_chars u'
  | Decimal.D1 u' => 49 :: uint_chars u'
  | Decimal.D2 u' => 50 :: uint_chars u'
  | Decimal.D3 u' => 51 :: uint_chars u'
  | Decimal.D4 u' => 52 :: uint_chars u'
  | Decimal.D5 u' => 53 :: uint_chars u'
  | Decimal.D6 u' => 54 :: uint_chars u'
  | Decimal.D7 u' => 55 :: uint_chars u'
  | Decimal.D8 u' => 56 :: uint_chars u'
  | Decimal.D9 u' => 57 :: uint_chars u'
  end.

Definition str_nat (n : nat) : str := uint_chars (Nat.to_uint n).

(** [str(z)] for any [int]. *)
Definition str_int (z : Z) : str :=
  if (z <? 0)%Z then 45 :: str_nat (Z.to_nat (- z)) else str_nat (Z.to_nat z).

(** [int(s)] on a non-empty string of decimal digits, the only argument the
    modelled code passes (a [\d+] group).  The group lies within one file
    name, far below the length at which [int] refuses a string. *)
Definition int_of_decimal (s : str) : N :=
  fold_left (fun acc c => 10 * acc + decimal_value c) s 0.

(** [l[i]] with Python's negative indices. *)
Definition getitem {A} (l : list A) (i : Z) : result A :=
  let n := Z.of_nat (length l) in
  let k := if (i <? 0)%Z then (i + n)%Z else i in
  if ((k <? 0) || (n <=? k))%Z then Raise IndexError
  else match nth_error l (Z.to_nat k) with
       | Some x => Ok x
       | None => Raise IndexError
       end.

(** ** Files *)

Inductive node :=
| File (content : str)
| Dir.

(** The file system: what each path references, if anything.  A file's
    content is its text as decoded by [open(..., encoding="utf-8",
    errors="replace")].  It is a view of the names inside directories that
    exist and can be used: [None] is a name that is free in such a
    directory, a [File] can be opened.  A path under a missing directory,
    a path through a regular file and a file that may not be opened are
    not in this view: where they matter, the answers of the operating
    system are taken as they come (see [load_fasta_entries_on]). *)
Definition filesystem := str -> option node.

Definition str_eqb (a b : str) : bool :=
  if list_eq_dec N.eq_dec a b then true else false.

Definition fs_set (fs : filesystem) (p : str) (n : option node) : filesystem :=
  fun q => if str_eqb q p then n else fs q.

(** [Path(p).is_file()] *)
Definition is_file (fs : filesystem) (p : str) : bool :=
  match fs p with
  | Some (File _) => true
  | _ => false
  end.

(** [os.path.join(a, b)] on POSIX. *)
Definition path_join (a b : str) : str :=
  if startswith b (str_of "/") then b
  else match a with
       | [] => b
       | _ => if endswith a (str_of "/") then a ++ b else a ++ str_of "/" ++ b
       end.

(** Universal-newline translation of text mode: [\r\n] and [\r] are read
    as [\n].  [prev_cr] tells that the previous code point was [\r]. *)
Fixpoint translate_newlines (prev_cr : bool) (s : str) : str :=
  match s with
  | [] => []
  | c :: s' =>
      if c =? CR then LF :: translate_newlines true s'
      else if c =? LF then
        (if prev_cr then translate_newlines false s'
         else LF :: translate_newlines false s')
      else c :: translate_newlines false s'
  end.

(** Iterating a text file: each line keeps its terminating [\n]; a last
    line without terminator is yielded as it is.  [cur] is the current
    line, reversed. *)
Fixpoint split_lines (cur : str) (s : str) : list str :=
  match s with
  | [] => match cur with [] => [] | _ => [rev cur] end
  | c :: s' =>
      if c =? LF then rev (c :: cur) :: split_lines [] s'
      else split_lines (c :: cur) s'
  end.

Definition file_lines (content : str) : list str :=
  split_lines [] (translate_newlines false content).

(** [open(p, "r").read()] *)
Definition read_text (fs : filesystem) (p : str) : result str :=
  match fs p with
  | Some (File content) => Ok (translate_newlines false content)
  | Some Dir => Raise IsADirectoryError
  | None => Raise FileNotFoundError
  end.

(** [open(p, "w").write(text)], for a name of the view: its directory
    exists. *)
Definition write_text (fs : filesystem) (p : str) (text : str)
  : result filesystem :=
  match fs p with
  | Some Dir => Raise IsADirectoryError
  | _ => Ok (fs_set fs p (Some (File text)))
  end.

(** [open(p, "a").write(text)]: the file is created when the name is free.
    Its directory exists, as for every name of the view; under a missing
    directory [open] raises [FileNotFoundError], which no path of the view
    shows. *)
Definition append_text (fs : filesystem) (p : str) (text : str)
  : result filesystem :=
  match fs p with
  | Some Dir => Raise IsADirectoryError
  | Some (File old) => Ok (fs_set fs p (Some (File (old ++ text))))
  | None => Ok (fs_set fs p (Some (File text)))
  end.

(** [os.remove(p)] *)
Definition remove (fs : filesystem) (p : str) : result filesystem :=
  match fs p with
  | Some (File _) => Ok (fs_set fs p None)
  | Some Dir => Raise IsADirectoryError
  | None => Raise FileNotFoundError
  end.

End Py.

Import Py.

Declare Scope py_scope.
Delimit Scope py_scope with py.
Notation "x <- m ;; k" := (bind m (fun x => k))
  (at level 61, m at next level, right associativity) : py_scope.
Notation "' p <- m ;; k" := (bind m (fun p => k))
  (at level 61, p pattern, m at next level, right associativity) : py_scope.

(* ================================================================== *)
(** * fold_gpu/array/run_fold_parallel.py *)
(* ================================================================== *)

Module RunFoldParallel.

Local Open Scope N_scope.
Local Open Scope py_scope.

(** The local variables of the reading loop of [load_fasta_entries]. *)
Record reader := {
  descs_list : list str;
  seqs_list : list str;
  current_desc : option str;
  current_chunks : list str
}.

Definition reader_init : reader :=
  {| descs_list := []; seqs_list := [];
     current_desc := None; current_chunks := [] |}.

(** [not line or line.startswith(";") or line.startswith("#")] *)
Definition skipped (line : str) : bool :=
  match line with
  | [] => true
  | _ => startswith line (str_of ";") || startswith line (str_of "#")
  end.

Definition is_header (line : str) : bool := startswith line (str_of ">").

(** ["".join(current_chunks).replace(" ", "")] *)
Definition joined_sequence (chunks : list str) : str :=
  remove_char SPACE (join [] chunks).

(** "Flush any previous record". *)
Definition flush (r : reader) : reader :=
  match current_desc r with
  | Some d =>
      {| descs_list := descs_list r ++ [d];
         seqs_list := seqs_list r ++ [joined_sequence (current_chunks r)];
         current_desc := current_desc r;
         current_chunks := current_chunks r |}
  | None => r
  end.

(** One iteration of [for raw_line in fh]. *)
Definition read_line (r : reader) (raw_line : str) : reader :=
  let line := strip raw_line in
  if skipped line then r
  else if is_header line then
    let r' := flush r in
    {| descs_list := descs_list r';
       seqs_list := seqs_list r';
       current_desc := Some (strip (tl line));
       current_chunks := [] |}
  else
    {| descs_list := descs_list r;
       seqs_list := seqs_list r;
       current_desc := current_desc r;
       current_chunks := current_chunks r ++ [line] |}.

(** The loop and the flush at EOF; the function returns
    [seqs_list, descs_list], in this order. *)
Definition read_entries (lines : list str) : list str * list str :=
  let r := flush (fold_left read_line lines reader_init) in
  (seqs_list r, descs_list r).

Section Reader.

(** The two questions [load_fasta_entries] asks of the operating system:
    [Path(fasta_path).is_file()], and [open(fasta_path, "r",
    encoding="utf-8", errors="replace")], which gives the text of the file
    with its newlines translated, or raises. *)
Variable path_is_file : str -> bool.
Variable open_text : str -> result str.

(** [load_fasta_entries], on the answers of the operating system. *)
Definition load_fasta_entries_on (fasta_path : str)
  : result (list str * list str) :=
  if negb (path_is_file fasta_path) then Raise FileNotFoundError
  else
    text <- open_text fasta_path ;;
    Ok (read_entries (split_lines [] text)).

End Reader.

(** [load_fasta_entries] in a file system [fs], where a regular file can
    always be opened. *)
Definition load_fasta_entries (fs : filesystem) (fasta_path : str)
  : result (list str * list str) :=
  load_fasta_entries_on (is_file fs) (read_text fs) fasta_path.

(** [list_files_with_extension]; [listing] is what [os.listdir(directory)]
    returns. *)
Definition list_files_with_extension (listing : list str)
  (directory extension : str) : list str :=
  map (path_join directory) (filter (fun f => endswith f extension) listing).

(** [write_to_shared_file]: the file is opened for appending, locked
    ([fcntl.flock(f, LOCK_EX)]), written, unlocked and closed.  For the one
    process that runs it the two [flock] calls leave the file as it is, and
    the result is the appended file. *)
Definition write_to_shared_file (message shared_file : str) (fs : filesystem)
  : result filesystem :=
  append_text fs shared_file message.

(** What the external folding model gives for one sequence; numbers are
    kept as the text their formatting in the record produces. *)
Record inference := {
  pdb_text : str;          (* [model.infer_pdb(sequence)] *)
  ptm_repr : str;          (* [f"{ptm}"] *)
  plddt_repr : str;        (* [np.array2string(plddt)] *)
  plddt_mean_repr : str    (* [f"{plddt.mean()}"] *)
}.

(** The fields of a record of the shared log, in the order of [out_str]. *)
Definition record_fields (file description entry : str) (r : inference)
  (pdb_str : str) : list str :=
  [file; description; entry; ptm_repr r; plddt_repr r; plddt_mean_repr r;
   pdb_str].

(** [out_str] of the script body. *)
Definition out_str (file description entry : str) (r : inference)
  (pdb_str : str) : str :=
  file ++ str_of ";;; " ++
  description ++ str_of ";;; " ++
  entry ++ str_of ";;; " ++
  ptm_repr r ++ str_of ";;; " ++
  plddt_repr r ++ str_of ";;; " ++
  plddt_mean_repr r ++ str_of ";;; " ++
  pdb_str ++ str_of " ~~~" ++ [LF].

Section Script.

(** The external model, and the listing of ["../data/"]. *)
Variable infer : str -> result inference.
Variable data_listing : list str.

(** [fold_sequence_esm]: runs the model and writes the structure to
    [fileout]. *)
Definition fold_sequence_esm (sequence fileout : str) (fs : filesystem)
  : result (inference * filesystem) :=
  r <- infer sequence ;;
  fs' <- write_text fs fileout (pdb_text r) ;;
  Ok (r, fs').

(** The script body; [i] and [j] are [int(sys.argv[1])] and
    [int(sys.argv[2])].  It returns the record it wrote and the file
    system it leaves. *)
Definition main (i j : Z) (fs : filesystem) : result (str * filesystem) :=
  let pdb_tmp := str_of "tmp_" ++ str_int i ++ str_of "_" ++ str_int j
                 ++ str_of ".pdb" in
  file <- getitem
            (list_files_with_extension data_listing (str_of "../data/")
               (str_of ".faa")) j ;;
  '(entries, descriptions) <- load_fasta_entries fs file ;;
  entry <- getitem entries i ;;
  description <- getitem descriptions i ;;
  '(r, fs1) <- fold_sequence_esm entry pdb_tmp fs ;;
  pdb_str <- read_text fs1 pdb_tmp ;;
  fs2 <- remove fs1 pdb_tmp ;;
  let record := out_str file description entry r pdb_str in
  fs3 <- write_to_shared_file record (file ++ str_of ".fdat") fs2 ;;
  Ok (record, fs3).

End Script.

End RunFoldParallel.

(* ================================================================== *)
(** * The fragment of [re] the collector uses *)
(* ================================================================== *)

Module Re.

Local Open Scope N_scope.

(** One-character matchers: a literal, [.] (anything but a newline) and
    [\d] (a Unicode decimal digit). *)
Inductive cls :=
| Lit (c : char)
| AnyChar
| Digit.

Definition cls_match (k : cls) (c : char) : bool :=
  match k with
  | Lit x => c =? x
  | AnyChar => negb (c =? LF)
  | Digit => is_decimal c
  end.

(** A pattern is a sequence of: a one-character matcher, possibly under a
    greedy [*] or [+]; the two ends of the capturing group; [$]. *)
Inductive item :=
| One (k : cls)
| Star (k : cls)
| Plus (k : cls)
| GroupOpen
| GroupClose
| EndAnchor.

Definition regex := list item.

Definition literal (s : str) : regex := map (fun c => One (Lit c)) s.

(** The group's ends, each as the input left when it was passed. *)
Definition marks := (option str * option str)%type.

(** [$] without [re.MULTILINE]: the end of the string, or just before a
    newline that ends the string. *)
Definition at_end (s : str) : bool :=
  match s with
  | [] => true
  | [c] => c =? LF
  | _ => false
  end.

(** Greedy repetition with backtracking: the longest run is tried first,
    then shorter ones, until the rest of the pattern [rest] matches. *)
Fixpoint repeat_greedy (k : cls) (rest : str -> marks -> option marks)
  (s : str) (m : marks) : option marks :=
  match s with
  | c :: s' =>
      if cls_match k c then
        match repeat_greedy k rest s' m with
        | Some r => Some r
        | None => rest s m
        end
      else rest s m
  | [] => rest s m
  end.

(** Matching the pattern at the start of [s]. *)
Fixpoint match_here (r : regex) (s : str) (m : marks) : option marks :=
  match r with
  | [] => Some m
  | One k :: r' =>
      match s with
      | c :: s' => if cls_match k c then match_here r' s' m else None
      | [] => None
      end
  | Star k :: r' => repeat_greedy k (match_here r') s m
  | Plus k :: r' =>
      match s with
      | c :: s' =>
          if cls_match k c then repeat_greedy k (match_here r') s' m
          else None
      | [] => None
      end
  | GroupOpen :: r' => match_here r' s (Some s, snd m)
  | GroupClose :: r' => match_here r' s (fst m, Some s)
  | EndAnchor :: r' => if at_end s then match_here r' s m else None
  end.

(** [re.search(r, s)]: the first start position, from the left, where the
    pattern matches. *)
Fixpoint search (r : regex) (s : str) : option marks :=
  match match_here r s (None, None) with
  | Some m => Some m
  | None =>
      match s with
      | [] => None
      | _ :: s' => search r s'
      end
  end.

(** [m.group(1)]: [None] when the group took no part in the match. *)
Definition group1 (m : marks) : option str :=
  match m with
  | (Some from, Some to) => Some (firstn (length from - length to) from)
  | _ => None
  end.

End Re.

(* ================================================================== *)
(** * fold_gaudi/array/collector.py *)
(* ================================================================== *)

Module Collector.

Import Re.
Local Open Scope N_scope.
Local Open Scope py_scope.

(** ** Observable steps *)

Inductive event :=
| Print (line : str)
| LoadFasta (path : str)
| OpenRead (path : str)
| ReadCsv (path : str)
| ToCsv (path : str).

(** A computation: the steps it made, and its result or exception. *)
Definition io (A : Type) := (list event * result A)%type.

Definition ret {A} (a : A) : io A := ([], Ok a).
Definition throw {A} (e : exn) : io A := ([], Raise e).
Definition emit (e : event) : io unit := ([e], Ok tt).
Definition lift {A} (r : result A) : io A := ([], r).

Definition io_bind {A B} (m : io A) (f : A -> io B) : io B :=
  match m with
  | (t, Ok a) => let '(t', r) := f a in (t ++ t', r)
  | (t, Raise e) => (t, Raise e)
  end.

Notation "x <~ m ;; k" := (io_bind m (fun x => k))
  (at level 61, m at next level, right associativity).
Notation "m >> k" := (io_bind m (fun _ => k))
  (at level 61, right associativity).

Fixpoint io_map {A B} (f : A -> io B) (l : list A) : io (list B) :=
  match l with
  | [] => ret []
  | x :: xs => y <~ f x ;; ys <~ io_map f xs ;; ret (y :: ys)
  end.

Definition print (line : str) : io unit := emit (Print line).

(** ** Tables *)

(** A cell of a table: the missing-value sentinel [numpy.nan], or a value,
    kept as its text. *)
Inductive cell :=
| NaN
| Value (repr : str).

(** A [pandas.DataFrame]: its number of rows and its named columns. *)
Record DataFrame := {
  n_rows : nat;
  columns : list (str * list cell)
}.

(** The frames pandas builds: every column has one cell per row, and no
    two columns share a name. *)
Definition well_formed (df : DataFrame) : Prop :=
  Forall (fun col => length (snd col) = n_rows df) (columns df) /\
  NoDup (map fst (columns df)).

(** [pd.DataFrame()] *)
Definition DataFrame_empty : DataFrame := {| n_rows := 0; columns := [] |}.

(** [column in df] *)
Definition has_column (df : DataFrame) (column : str) : bool :=
  existsb (fun col => str_eqb (fst col) column) (columns df).

(** [df.empty]: some axis has length 0. *)
Definition empty (df : DataFrame) : bool :=
  (n_rows df =? 0)%nat || (length (columns df) =? 0)%nat.

(** [df[column]] *)
Definition get_column (df : DataFrame) (column : str) : result (list cell) :=
  match find (fun col => str_eqb (fst col) column) (columns df) with
  | Some col => Ok (snd col)
  | None => Raise KeyError
  end.

(** [series.iloc[k]] *)
Definition iloc (series : list cell) (k : nat) : result cell :=
  match nth_error series k with
  | Some v => Ok v
  | None => Raise IndexError
  end.

(** Row [k] of a frame, field by field. *)
Definition row (df : DataFrame) (k : nat) : list (str * option cell) :=
  map (fun col => (fst col, nth_error (snd col) k)) (columns df).

(** The value of field [column] in a row. *)
Definition field (r : list (str * option cell)) (column : str)
  : option cell :=
  match find (fun f => str_eqb (fst f) column) r with
  | Some f => snd f
  | None => None
  end.

Definition _safe_first (df : DataFrame) (column : str) (default : cell)
  : result cell :=
  if has_column df column && negb (empty df) then
    series <- get_column df column ;;
    iloc series 0
  else Ok default.

(** ** Result rows *)

Record Row := {
  Description : str;
  Sequence : str;
  pTM_Score : cell;
  pLDDT_Score : cell;
  PDB : option str;
  FAA_File : str
}.

(** [l[j]] for [j >= 0]. *)
Definition at_index {A} (l : list A) (j : nat) : result A :=
  match nth_error l j with
  | Some x => Ok x
  | None => Raise IndexError
  end.

(** [enumerate(l)] *)
Definition enumerate {A} (l : list A) : list (nat * A) :=
  combine (seq 0 (length l)) l.

(** ** Sorting *)

(** Insertion of [x] before the first element whose key is not smaller:
    elements of equal key keep their order. *)
Fixpoint insert_by_key {A} (x : N * A) (l : list (N * A)) : list (N * A) :=
  match l with
  | [] => [x]
  | y :: l' =>
      if fst y <? fst x then y :: insert_by_key x l' else x :: y :: l'
  end.

Definition stable_sort {A} (l : list (N * A)) : list (N * A) :=
  fold_right insert_by_key [] l.

(** [sorted(l, key=key)]: the key of every element is computed first, in
    order, and an exception of [key] ends the call; the sort is stable. *)
Definition sorted {A} (key : A -> result N) (l : list A) : result (list A) :=
  keyed <- mapM (fun x => k <- key x ;; Ok (k, x)) l ;;
  Ok (map snd (stable_sort keyed)).

(** ** The artifact matcher *)

(** [rf"folded_.*_{i}\.pdb$"] *)
Definition pattern_pdb (i : nat) : regex :=
  literal (str_of "folded_") ++ [Star AnyChar] ++ literal (str_of "_")
  ++ literal (str_nat i) ++ literal (str_of ".pdb") ++ [EndAnchor].

(** [rf"tmp_.*_{i}\.csv$"] *)
Definition pattern_csv (i : nat) : regex :=
  literal (str_of "tmp_") ++ [Star AnyChar] ++ literal (str_of "_")
  ++ literal (str_nat i) ++ literal (str_of ".csv") ++ [EndAnchor].

(** [r"_(\d+)_\d+\.pdb$"] *)
Definition key_pattern_pdb : regex :=
  [One (Lit 95); GroupOpen; Plus Digit; GroupClose; One (Lit 95); Plus Digit]
  ++ literal (str_of ".pdb") ++ [EndAnchor].

(** [r"_(\d+)_\d+\.csv$"] *)
Definition key_pattern_csv : regex :=
  [One (Lit 95); GroupOpen; Plus Digit; GroupClose; One (Lit 95); Plus Digit]
  ++ literal (str_of ".csv") ++ [EndAnchor].

(** [re.search(pattern, f)] as a condition. *)
Definition selected (pattern : regex) (f : str) : bool :=
  match search pattern f with Some _ => true | None => false end.

(** [lambda x: int(re.search(key_pattern, x).group(1))] *)
Definition sort_key (key_pattern : regex) (x : str) : result N :=
  match search key_pattern x with
  | None => Raise AttributeError
  | Some m =>
      match group1 m with
      | Some digits => Ok (int_of_decimal digits)
      | None => Raise TypeError
      end
  end.

(** [sorted((f for f in pool if re.search(pattern, f)), key=...)] *)
Definition matching_files (pattern key_pattern : regex) (pool : list str)
  : result (list str) :=
  sorted (sort_key key_pattern) (filter (selected pattern) pool).

Section Run.

(** What the collection run reads: the file system; [pandas.read_csv]; the
    reader of the external package, [mps.load_fasta_entries]; and the
    module-level lists of the scan, [pdb_files], [csv_files], [faa_files]. *)
Variable fs : filesystem.
Variable read_csv : str -> result DataFrame.
Variable mps_load_fasta_entries : str -> result (list str * list str).
Variables pdb_files csv_files faa_files : list str.

(** The order in which the worker pool of [mps.mp_calc] hands back the
    rows it computed. *)
Variable gathered : list Row -> list Row.

(** The outcome of [DataFrame.to_csv] on the rows and the path given. *)
Variable to_csv : list Row -> str -> result unit.

Definition entry_item := (nat * str * str * str * list str * list str)%type.

Definition _process_entry (item : entry_item) : io Row :=
  let '(j, entry, description, faa_file,
        matching_pdb_files, matching_csv_files) := item in
  pdb_str <~ (if (j <? length matching_pdb_files)%nat then
                p <~ lift (at_index matching_pdb_files j) ;;
                emit (OpenRead p) >>
                text <~ lift (read_text fs p) ;;
                ret (Some text)
              else ret None) ;;
  df_analysis <~ (if (j <? length matching_csv_files)%nat then
                    p <~ lift (at_index matching_csv_files j) ;;
                    emit (ReadCsv p) >>
                    lift (read_csv p)
                  else ret DataFrame_empty) ;;
  ptm <~ lift (_safe_first df_analysis (str_of "pTM_Score") NaN) ;;
  plddt <~ lift (_safe_first df_analysis (str_of "pLDDT_Score") NaN) ;;
  ret {| Description := description;
         Sequence := entry;
         pTM_Score := ptm;
         pLDDT_Score := plddt;
         PDB := pdb_str;
         FAA_File := faa_file |}.

(** Modelled from the spec: [mps.mp_calc], of the package
    [monsterproteinstability], is not among the sources.  The spec says of
    it: "processing order across entries within a file may be parallelized
    (fan-out), with no ordering guarantee required on the collected rows
    beyond 'every entry appears exactly once'", and "results are gathered
    back in arbitrary order and reassembled per the original entry index
    order by the caller, not by the workers" (the caller,
    [_process_faa_item], takes them as they come).  So [f] is applied to
    every item, and the results come back in the order [gathered] puts
    them in, about which nothing is known but what a theorem assumes.  The
    record of the workers' steps follows the order of the items, and so
    does the choice of the exception when several items raise: this the
    spec does not settle, and what is proved of the rows does not depend
    on it. *)
Definition mp_calc (f : entry_item -> io Row) (items : list entry_item)
  : io (list Row) :=
  results <~ io_map f items ;;
  ret (gathered results).

Definition _process_faa_item (item : nat * str) : io (list Row) :=
  let '(i, faa_file) := item in
  emit (LoadFasta faa_file) >>
  loaded <~ lift (mps_load_fasta_entries faa_file) ;;
  let '(entries, descriptions) := loaded in
  match entries with
  | [] => ret []
  | _ =>
      matching_pdb_files <~
        lift (matching_files (pattern_pdb i) key_pattern_pdb pdb_files) ;;
      matching_csv_files <~
        lift (matching_files (pattern_csv i) key_pattern_csv csv_files) ;;
      let inner_items :=
        map (fun e : nat * (str * str) =>
               let '(j, (entry, description)) := e in
               (j, entry, description, faa_file,
                matching_pdb_files, matching_csv_files))
            (enumerate (combine entries descriptions)) in
      chunked_results <~ mp_calc _process_entry inner_items ;;
      print (str_of "Processed FAA file " ++ str_nat (i + 1) ++ str_of "/"
             ++ str_nat (length faa_files) ++ str_of ": " ++ faa_file
             ++ str_of " with " ++ str_nat (length chunked_results)
             ++ str_of " entries") >>
      ret chunked_results
  end.

(** The script body, from the point where the scan has filled
    [pdb_files], [csv_files] and [faa_files]. *)
Definition main (cwd : str) : io (list Row) :=
  let data_out := str_of "collected_results" in
  print (str_of "Current working directory: " ++ cwd) >>
  print (str_of "Total folded PDB Files: " ++ str_nat (length pdb_files)) >>
  print (str_of "Total folded CSV Files: " ++ str_nat (length csv_files)) >>
  print (str_of "Total folded FAA Files: " ++ str_nat (length faa_files)) >>
  if negb (length pdb_files =? length csv_files)%nat then throw ValueError
  else
    chunks <~ io_map _process_faa_item (enumerate faa_files) ;;
    let results := concat chunks in
    print (str_of "Data gathering done!") >>
    print (str_of "Compressing collected results...") >>
    emit (ToCsv (data_out ++ str_of ".csv.gz")) >>
    lift (to_csv results (data_out ++ str_of ".csv.gz")) >>
    print (str_of "Collected results saved to " ++ data_out) >>
    ret results.

End Run.

End Collector.

(* ================================================================== *)
(** * The records of a FASTA text, as the specification describes them *)
(* ================================================================== *)

Module FastaText.

Import RunFoldParallel.
Local Open Scope N_scope.

(** A line of the input begins with [>] once its surrounding whitespace is
    stripped, which is how the reader looks at every line. *)
Definition is_header_line (raw_line : str) : bool :=
  is_header (strip raw_line).

(** A line that starts with whitespace. *)
Definition indented (raw_line : str) : bool :=
  match raw_line with
  | c :: _ => is_space c
  | [] => false
  end.

(** The description a header line carries. *)
Definition header_description (raw_line : str) : str :=
  strip (tl (strip raw_line)).

(** The lines of a record: the stripped lines that follow its header, up
    to the next header, without the blank and comment lines. *)
Fixpoint body (lines : list str) : list str :=
  match lines with
  | [] => []
  | raw_line :: rest =>
      let line := strip raw_line in
      if skipped line then body rest
      else if is_header line then []
      else line :: body rest
  end.

(** The records of a text, in the order of their header lines: each is its
    description and its lines. *)
Fixpoint records (lines : list str) : list (str * list str) :=
  match lines with
  | [] => []
  | raw_line :: rest =>
      let line := strip raw_line in
      if skipped line then records rest
      else if is_header line then
        (header_description raw_line, body rest) :: records rest
      else records rest
  end.

(** The record the reader is in the middle of, completed by the lines
    still to be read. *)
Definition open_record (r : reader) (lines : list str)
  : list (str * list str) :=
  match current_desc r with
  | Some d => [(d, current_chunks r ++ body lines)]
  | None => []
  end.

(** Removing every whitespace character, the reading of "internal
    whitespace removed". *)
Definition remove_whitespace (s : str) : str :=
  filter (fun c => negb (is_space c)) s.

(** The scenario text [">a\nMKV\n>b\nLLT\n"]. *)
Definition two_records : str :=
  str_of ">a" ++ [LF] ++ str_of "MKV" ++ [LF]
  ++ str_of ">b" ++ [LF] ++ str_of "LLT" ++ [LF].

(** A record whose line holds a tab: [">a\nM\tK\n"]. *)
Definition tab_record : str :=
  str_of ">a" ++ [LF] ++ str_of "M" ++ [TAB] ++ str_of "K" ++ [LF].

(** A file system that holds one file. *)
Definition single_file (path content : str) : filesystem :=
  fs_set (fun _ => None) path (Some (File content)).

Definition sample_path : str := str_of "../data/sample.faa".

End FastaText.

(* ================================================================== *)
(** * A sample run of a folding task *)
(* ================================================================== *)

Module LogSample.

Import RunFoldParallel FastaText.

Definition sample_inference : inference :=
  {| pdb_text := str_of "ATOM 1" ++ [LF] ++ str_of "END" ++ [LF];
     ptm_repr := str_of "0.5";
     plddt_repr := str_of "[0.7 0.8 0.9]";
     plddt_mean_repr := str_of "0.8" |}.

Definition sample_infer (sequence : str) : result inference :=
  Ok sample_inference.

Definition sample_listing : list str := [str_of "sample.faa"].

Definition sample_fs : filesystem := single_file sample_path two_records.


(** The record of entry 1 ([b], [LLT]) of the sample file. *)
Definition sample_record : str :=
  str_of "../data/sample.faa;;; b;;; LLT;;; 0.5;;; [0.7 0.8 0.9];;; 0.8;;; "
  ++ str_of "ATOM 1"
  ++ [LF] ++ str_of "END" ++ [LF] ++ str_of " ~~~" ++ [LF].

(** The same fields joined by [;;;] alone. *)
Definition sample_record_as_stated : str :=
  str_of "../data/sample.faa;;;b;;;LLT;;;0.5;;;[0.7 0.8 0.9];;;0.8;;;"
  ++ str_of "ATOM 1"
  ++ [LF] ++ str_of "END" ++ [LF] ++ str_of " ~~~" ++ [LF].

End LogSample.

(* ================================================================== *)
(** * A sample collection run *)
(* ================================================================== *)

Module CollectorSample.

Import Collector FastaText.

(** A file system that holds the given files. *)
Definition files_of (files : list (str * str)) : filesystem :=
  fold_right (fun f fs => fs_set fs (fst f) (Some (File (snd f))))
    (fun _ => None) files.

Definition sample_scores : DataFrame :=
  {| n_rows := 1;
     columns := [ (str_of "pTM_Score", [Value (str_of "0.5")]);
                  (str_of "pLDDT_Score", [Value (str_of "0.8")]) ] |}.

(** A score table without the expected fields. *)
Definition foreign_scores : DataFrame :=
  {| n_rows := 1; columns := [ (str_of "pTM", [Value (str_of "0.5")]) ] |}.

(** A score table with its header only. *)
Definition header_only_scores : DataFrame :=
  {| n_rows := 0;
     columns := [ (str_of "pTM_Score", []); (str_of "pLDDT_Score", []) ] |}.

Definition sample_read_csv (path : str) : result DataFrame :=
  Ok sample_scores.

Definition sample_faa : str := str_of "data/sample.faa".

Definition sample_pdb_files : list str :=
  [ str_of "F000/folded_1_0.pdb"; str_of "F000/folded_0_0.pdb";
    str_of "F001/folded_0_1.pdb" ].

Definition sample_csv_files : list str :=
  [ str_of "F000/tmp_0_0.csv"; str_of "F000/tmp_1_0.csv";
    str_of "F001/tmp_0_1.csv" ].

Definition sample_world : filesystem :=
  files_of [ (sample_faa, two_records);
             (str_of "F000/folded_0_0.pdb", str_of "ATOM a");
             (str_of "F000/folded_1_0.pdb", str_of "ATOM b");
             (str_of "F001/folded_0_1.pdb", str_of "ATOM c") ].

Definition sample_load (path : str) : result (list str * list str) :=
  RunFoldParallel.load_fasta_entries sample_world path.

(** A pool that hands the rows back as the entries stand, and one that
    hands them back last entry first. *)
Definition in_turn (rows : list Row) : list Row := rows.
Definition last_first (rows : list Row) : list Row := rev rows.

(** A table that can be written, and one that cannot. *)
Definition table_written (rows : list Row) (path : str) : result unit :=
  Ok tt.
Definition table_refused (rows : list Row) (path : str) : result unit :=
  Raise PermissionError.

(** Three matched structure files, as in the scenario of the missing-data
    path. *)
Definition three_files : list str :=
  [ str_of "F000/folded_0_0.pdb"; str_of "F000/folded_1_0.pdb";
    str_of "F000/folded_2_0.pdb" ].

End CollectorSample.

(* ================================================================== *)
(** * Order of a sorted list *)
(* ================================================================== *)

Module SortSpec.

Local Open Scope N_scope.

(** Keyed elements in the order of their keys. *)
Definition key_le {A} (x y : N * A) : Prop := fst x <= fst y.

(** The elements whose key is [k]. *)
Definition has_key {A} (key : A -> result N) (k : N) (x : A) : bool :=
  match key x with
  | Ok k' => k' =? k
  | Raise _ => false
  end.

(** The key stored with an element is the element's key. *)
Definition keyed_ok {A} (key : A -> result N) (kx : N * A) : Prop :=
  key (snd kx) = Ok (fst kx).

End SortSpec.

(* ================================================================== *)
(** * File names of artifacts *)
(* ================================================================== *)

Module ArtifactNames.

Import Re Collector.
Local Open Scope N_scope.

Definition UNDERSCORE : char := 95.
Definition DOT : char := 46.

(** A numeric token: a non-empty run of decimal digits. *)
Definition number (s : str) : Prop :=
  s <> [] /\ forallb is_decimal s = true.

(** What [$] leaves unmatched: nothing, or one final newline. *)
Definition line_end (nl : str) : Prop := nl = [] \/ nl = [LF].

(** The path [f] ends with [_<a>_<b>.<ext>], two numeric tokens. *)
Definition ends_with_tokens (ext f a b : str) : Prop :=
  exists pre nl,
    f = pre ++ [UNDERSCORE] ++ a ++ [UNDERSCORE] ++ b ++ [DOT] ++ ext ++ nl
    /\ number a /\ number b /\ line_end nl.

(** The path [f] holds [lead] and, after it, ends with [_<i>.<ext>]: the
    index [i] is the last token before the extension. *)
Definition names_index (lead ext : str) (i : nat) (f : str) : Prop :=
  exists pre mid nl,
    f = pre ++ lead ++ mid ++ [UNDERSCORE] ++ str_nat i ++ [DOT] ++ ext ++ nl
    /\ ~ In LF mid /\ line_end nl.

(** In a file of index [i], [k] is the number of the token just before
    the index: the suffix is [_<k>_<i>.<ext>]. *)
Definition entry_key (ext : str) (i : nat) (f : str) (k : N) : Prop :=
  exists a, ends_with_tokens ext f a (str_nat i) /\ k = int_of_decimal a.

(** The selection and key patterns, for any lead and extension. *)
Definition pattern_for (lead ext : str) (i : nat) : regex :=
  literal lead ++ [Star AnyChar] ++ literal [UNDERSCORE]
  ++ literal (str_nat i) ++ literal (DOT :: ext) ++ [EndAnchor].

Definition key_pattern_for (ext : str) : regex :=
  [One (Lit UNDERSCORE); GroupOpen; Plus Digit; GroupClose;
   One (Lit UNDERSCORE); Plus Digit]
  ++ literal (DOT :: ext) ++ [EndAnchor].

Definition folded_7_3 : str := str_of "F007/folded_7_3.pdb".
Definition folded_3_7 : str := str_of "F003/folded_3_7.pdb".
Definition model_7_3 : str := str_of "F007/model_7_3.pdb".
Definition folded_abc_3 : str := str_of "folded_abc_3.pdb".

End ArtifactNames.

(* ================================================================== *)
(** * Texts and lines *)
(* ================================================================== *)

Module TextLines.

Import RunFoldParallel FastaText.
Local Open Scope N_scope.

(** The lines a text file yields: no line is empty or holds a carriage
    return, a newline only ends a line, and only the last line may lack
    it. *)
Inductive well_lined : list str -> Prop :=
| wl_nil : well_lined []
| wl_last (b : str) :
    b <> [] -> ~ In LF b -> ~ In CR b -> well_lined [b]
| wl_cons (b : str) (rest : list str) :
    ~ In LF b -> ~ In CR b -> well_lined rest ->
    well_lined ((b ++ [LF]) :: rest).

(** A text is made of whole lines: it is empty or ends with a newline. *)
Definition whole_lines (text : str) : Prop :=
  text = [] \/ exists body, text = body ++ [LF].

(** A line the reader does not skip: neither blank nor a comment. *)
Definition significant (raw_line : str) : bool :=
  negb (skipped (strip raw_line)).

(** The text with every newline written as [ending]. *)
Definition with_line_ending (ending : str) (text : str) : str :=
  flat_map (fun c => if c =? LF then ending else [c]) text.

(** A description as the reader returns them: on one line, with no
    whitespace at either end. *)
Definition plain_description (d : str) : Prop :=
  strip d = d /\ ~ In LF d /\ ~ In CR d.

(** A line of residues: not empty, without whitespace, and not starting
    with a character that marks a header or a comment. *)
Definition residue_line (chunk : str) : Prop :=
  chunk <> [] /\
  forallb (fun c => negb (is_space c)) chunk = true /\
  skipped chunk = false /\ is_header chunk = false.

(** A record that can be written out. *)
Definition writable (rc : str * list str) : Prop :=
  plain_description (fst rc) /\ Forall residue_line (snd rc).

(** A record written out: its header line, then its lines of residues. *)
Definition record_lines (rc : str * list str) : list str :=
  (str_of ">" ++ fst rc ++ [LF]) :: map (fun chunk => chunk ++ [LF]) (snd rc).

Definition fasta_text (parsed : list (str * list str)) : str :=
  concat (flat_map record_lines parsed).

End TextLines.

(* ================================================================== *)
(** * Sample FASTA files *)
(* ================================================================== *)

Module FastaSamples.

Import RunFoldParallel FastaText TextLines CollectorSample.

(** Lines without a header: ["MKV\n; note\n"]. *)
Definition preamble : str :=
  str_of "MKV" ++ [LF] ++ str_of "; note" ++ [LF].

(** [">a\n# c\nMKV\n\n>b\nLLT\n"] *)
Definition commented : str :=
  str_of ">a" ++ [LF] ++ str_of "# c" ++ [LF] ++ str_of "MKV" ++ [LF]
  ++ [LF] ++ str_of ">b" ++ [LF] ++ str_of "LLT" ++ [LF].

Definition path_a : str := str_of "a.faa".
Definition path_b : str := str_of "b.faa".
Definition path_c : str := str_of "c.faa".

Definition preamble_fs : filesystem :=
  files_of [(path_a, preamble ++ two_records); (path_b, two_records)].

Definition commented_fs : filesystem :=
  files_of [(path_a, commented);
            (path_b, concat (filter significant (file_lines commented)))].

Definition joined_fs : filesystem :=
  files_of [(path_a, two_records); (path_b, tab_record);
            (path_c, two_records ++ tab_record)].

Definition endings_fs : filesystem :=
  files_of [(path_a, two_records);
            (path_b, with_line_ending [CR; LF] two_records);
            (path_c, with_line_ending [CR] two_records)].

(** A text without a header and without a final newline: ["MKV"]. *)
Definition bare : str := str_of "MKV".

Definition bare_fs : filesystem := files_of [(path_a, bare)].







(** Two records, the first with a wrapped sequence, the second without
    residues. *)
Definition wrapped_records : list (str * list str) :=
  [(str_of "sp|P1 first", [str_of "MKV"; str_of "LL"]); (str_of "b", [])].

End FastaSamples.

(* ================================================================== *)
(** * Runs of the folding tasks *)
(* ================================================================== *)

Module TaskRuns.

Import RunFoldParallel.
Local Open Scope py_scope.

(** The text a path holds, empty when it is not a file. *)
Definition content_of (fs : filesystem) (p : str) : str :=
  match fs p with
  | Some (File content) => content
  | _ => []
  end.


(** The position [l[i]] reads in a list of length [n]: a negative index
    counts from the end. *)
Definition position (n : nat) (i : Z) : nat :=
  Z.to_nat (if (i <? 0)%Z then (i + Z.of_nat n)%Z else i).

(** The name of the temporary structure file of task [(i, j)]. *)
Definition pdb_tmp (i j : Z) : str :=
  str_of "tmp_" ++ str_int i ++ str_of "_" ++ str_int j ++ str_of ".pdb".

(** The sequence files the task script lists. *)
Definition data_files (data_listing : list str) : list str :=
  list_files_with_extension data_listing (str_of "../data/") (str_of ".faa").

End TaskRuns.

(* ================================================================== *)
(** * The naming convention of artifacts *)
(* ================================================================== *)

Module Convention.

Import Re Collector ArtifactNames.
Local Open Scope N_scope.

(** The artifact of entry [e] of sequence file [i], in directory prefix
    [dir]: [<dir><lead><e>_<i>.<ext>], the scheme the task script follows
    for its [tmp_{i}_{j}.pdb]. *)
Definition artifact_name (dir lead ext : str) (e i : nat) : str :=
  dir ++ lead ++ str_nat e ++ [UNDERSCORE] ++ str_nat i ++ [DOT] ++ ext.

(** The artifacts of the first [n] entries of sequence file [i]. *)
Definition artifacts_of (dir lead ext : str) (n i : nat) : list str :=
  map (fun e => artifact_name dir lead ext e i) (seq 0 n).

(** A complete pool: for each of the [m] sequence files, the artifacts
    of its [count i] entries, in its own directory [dir i]. *)
Definition complete_pool (dir : nat -> str) (lead ext : str)
  (count : nat -> nat) (m : nat) : list str :=
  flat_map (fun i => artifacts_of (dir i) lead ext (count i) i) (seq 0 m).

(** The order of two files by their keys. *)
Definition key_order {A} (key : A -> result N) (x y : A) : Prop :=
  exists kx ky, key x = Ok kx /\ key y = Ok ky /\ kx <= ky.

(** The projection of a row on what it takes from the sequence file. *)
Definition row_entry (r : Row) : str * str * str :=
  (Sequence r, Description r, FAA_File r).

(** The structure text of a row is that of the [j]-th matched structure
    file, and absent when there is none. *)
Definition structure_of (fs : filesystem) (matched : list str) (j : nat)
  (r : Row) : Prop :=
  option_map Ok (PDB r) = option_map (read_text fs) (nth_error matched j).

(** The scores of a row are the first values of the two score fields of
    the [j]-th matched score file, and [NaN] when there is none. *)
Definition scores_of (read_csv : str -> result DataFrame)
  (matched : list str) (j : nat) (r : Row) : Prop :=
  match nth_error matched j with
  | Some p =>
      exists df,
        read_csv p = Ok df /\
        _safe_first df (str_of "pTM_Score") NaN = Ok (pTM_Score r) /\
        _safe_first df (str_of "pLDDT_Score") NaN = Ok (pLDDT_Score r)
  | None => pTM_Score r = NaN /\ pLDDT_Score r = NaN
  end.

(** The entries of a sequence file as the rows show them. *)
Definition file_entries
  (mps_load_fasta_entries : str -> result (list str * list str))
  (faa_file : str) : list (str * str * str) :=
  match mps_load_fasta_entries faa_file with
  | Ok (entries, descriptions) =>
      map (fun ed => (fst ed, snd ed, faa_file))
        (combine entries descriptions)
  | Raise _ => []
  end.

(** The event of writing the table. *)
Definition is_to_csv (e : event) : bool :=
  match e with
  | ToCsv _ => true
  | _ => false
  end.

End Convention.

(* ================================================================== *)
(** * Sample pools *)
(* ================================================================== *)

Module PoolSamples.

Import Collector Convention CollectorSample.

(** Directory [F<i>/] of sequence file [i]. *)
Definition sample_dir (i : nat) : str :=
  str_of "F" ++ str_nat i ++ str_of "/".

(** Sequence file 0 has three entries, sequence file 1 has two. *)
Definition sample_count (i : nat) : nat :=
  match i with
  | 0 => 3
  | _ => 2
  end.

(** The structure files of both sequence files, as a scan may list
    them. *)
Definition scanned_pdb_files : list str :=
  [ str_of "F1/folded_1_1.pdb"; str_of "F0/folded_2_0.pdb";
    str_of "F0/folded_0_0.pdb"; str_of "F1/folded_0_1.pdb";
    str_of "F0/folded_1_0.pdb" ].

Definition scanned_csv_files : list str :=
  [ str_of "F0/tmp_1_0.csv"; str_of "F1/tmp_0_1.csv";
    str_of "F0/tmp_0_0.csv"; str_of "F1/tmp_1_1.csv";
    str_of "F0/tmp_2_0.csv" ].

(** The sample sequence file and the structure files of both sequence
    files. *)
Definition pool_world : filesystem :=
  files_of [ (sample_faa, FastaText.two_records);
             (str_of "F0/folded_0_0.pdb", str_of "ATOM 00");
             (str_of "F0/folded_1_0.pdb", str_of "ATOM 10");
             (str_of "F0/folded_2_0.pdb", str_of "ATOM 20");
             (str_of "F1/folded_0_1.pdb", str_of "ATOM 01");
             (str_of "F1/folded_1_1.pdb", str_of "ATOM 11") ].

Definition pool_load (path : str) : result (list str * list str) :=
  RunFoldParallel.load_fasta_entries pool_world path.

End PoolSamples.

(* ================================================================== *)
(** * submitter_fold.py *)
(* ================================================================== *)

Module SubmitterFold.

Local Open Scope N_scope.

(** ** Observable steps and their outcomes *)

(** What the script does to its surroundings: a printed line, a directory
    made, a shell command handed to [os.system], a file written. *)
Inductive action :=
| Print (line : str)
| MakeDirs (folder : str)
| System (command : str)
| WriteFile (path text : str).

(** A computation: the steps it made, and its result or exception. *)
Definition run (A : Type) := (list action * result A)%type.

Definition lift {A} (r : result A) : run A := ([], r).

(** A step, with the outcome the surroundings give it. *)
Definition step (a : action) (outcome : result unit) : run unit :=
  ([a], outcome).

Definition print (line : str) : run unit := step (Print line) (Ok tt).

Definition run_bind {A B} (m : run A) (f : A -> run B) : run B :=
  match m with
  | (t, Ok a) => let '(t', r) := f a in (t ++ t', r)
  | (t, Raise e) => (t, Raise e)
  end.

#[local] Notation "x <~ m ;; k" := (run_bind m (fun x => k))
  (at level 61, m at next level, right associativity).
#[local] Notation "m >> k" := (run_bind m (fun _ => k))
  (at level 61, right associativity).

(** [for item in items: body(item)] *)
Fixpoint for_each {A} (body : A -> run unit) (items : list A) : run unit :=
  match items with
  | [] => ([], Ok tt)
  | item :: rest => body item >> for_each body rest
  end.

(** ** Formatted text *)

Definition QUOTE : char := 34.
Definition ZERO : char := 48.

(** [f"{j:03d}"] for [j >= 0]: the decimal digits, padded with zeros on
    the left to three characters. *)
Definition format_03d (j : nat) : str :=
  repeat ZERO (3 - length (str_nat j)) ++ str_nat j.

(** The text made of the given lines, each ended by a newline. *)
Definition text_lines (lines : list str) : str :=
  concat (map (fun line => line ++ [LF]) lines).

Definition srun_line : str := str_of "${SLURM_ARRAY_TASK_ID}".

(** [sub_file_data] of [fold_gpu/array/submitter_fold.py], for sequence
    file [j] with [n] entries.  The text ends with the four spaces that
    precede the closing quotes. *)
Module Gpu.

Definition sub_file_data (j n : nat) : str :=
  text_lines
    [ str_of "#!/bin/bash";
      str_of "#SBATCH --job-name=fold_" ++ str_nat j;
      str_of "#SBATCH -N 1";
      str_of "#SBATCH -c 32";
      str_of "#SBATCH -p htc";
      str_of "#SBATCH -q public";
      str_of "#SBATCH --time=0-01:00:00";
      str_of "#SBATCH -G a100:1";
      str_of "#SBATCH --array=0-" ++ str_int (Z.of_nat n - 1)%Z;
      str_of "#SBATCH --mem=32G";
      str_of "#SBATCH -o slurm.%j.out";
      str_of "#SBATCH -e slurm.%j.out";
      str_of "#SBATCH --export=NONE";
      [];
      str_of "cd $SLURM_SUBMIT_DIR";
      [];
      str_of "module load cuda-13.0.1-gcc-12.1.0";
      str_of "ENV_NAME=" ++ [QUOTE] ++ str_of "monsterproteinstability" ++
        [QUOTE];
      [];
      str_of "module load mamba/latest";
      str_of "source activate $ENV_NAME";
      [];
      str_of "$HOME/.conda/envs/$ENV_NAME/bin/python3 run_fold_parallel.py " ++
        srun_line ++ str_of " " ++ str_nat j ]
  ++ str_of "    ".

End Gpu.

(** [sub_file_data] of [fold_gaudi/array/submitter_fold.py]. *)
Module Gaudi.

Definition sub_file_data (j n : nat) : str :=
  text_lines
    [ str_of "#!/bin/bash";
      str_of "#SBATCH --job-name=fold_" ++ str_nat j;
      str_of "#SBATCH -N 1";
      str_of "#SBATCH -p gaudi";
      str_of "#SBATCH -c 152";
      str_of "#SBATCH -q public";
      str_of "#SBATCH --time=0-01:00:00";
      str_of "#SBATCH --array=0-" ++ str_int (Z.of_nat n - 1)%Z;
      str_of "#SBATCH --mem=0";
      str_of "#SBATCH -o slurm.%j.out";
      str_of "#SBATCH -e slurm.%j.out";
      str_of "#SBATCH --export=NONE";
      str_of "#SBATCH --exclusive";
      [];
      str_of "cd $SLURM_SUBMIT_DIR";
      [];
      str_of "ENV_NAME=" ++ [QUOTE] ++
        str_of "gaudi-pytorch-diffusion-1.22.0.740" ++ [QUOTE];
      [];
      str_of "module load mamba/latest";
      str_of "source activate $ENV_NAME";
      str_of "export PT_HPU_LAZY_MODE=1";
      [];
      str_of "/packages/envs/$ENV_NAME/bin/python3 run_fold_parallel.py " ++
        srun_line ++ str_of " " ++ str_nat j ++ str_of " >> slurm.%j.out" ]
  ++ str_of "    ".

End Gaudi.

(** [folder = f"F{j:03d}"] *)
Definition folder (j : nat) : str := str_of "F" ++ format_03d j.

Definition cp_command (j : nat) : str :=
  str_of "cp run_fold_parallel.py " ++ folder j ++
  str_of "/run_fold_parallel.py".

Definition sbatch_command (j : nat) : str :=
  str_of "cd " ++ folder j ++ str_of " && sbatch sub_fold.sh && cd ..".

(** ** The script body *)

Section Script.

(** [mps.load_fasta_entries], [os.path.exists], and the outcomes of
    [os.makedirs] and of writing a file, are given by the surroundings.
    The return code of [os.system] is not looked at. *)
Variable mps_load_fasta_entries : str -> result (list str * list str).
Variable path_exists : str -> bool.
Variable makedirs : str -> result unit.
Variable write_file : str -> str -> result unit.

(** The template of the script at hand. *)
Variable sub_file_data : nat -> nat -> str.

(** One turn of the loop, for sequence file [file] of index [j]. *)
Definition submit (item : nat * str) : run unit :=
  let '(j, file) := item in
  print (str_of "j = " ++ str_nat j ++
         str_of ", submitting jobs for file = " ++ file) >>
  loaded <~ lift (mps_load_fasta_entries file) ;;
  let n := length (fst loaded) in
  print (str_of "Number of entries in file: " ++ str_nat n) >>
  (if negb (path_exists (folder j))
   then step (MakeDirs (folder j)) (makedirs (folder j))
   else print (str_of "Folder " ++ folder j ++
               str_of " already exists, skipping creation.")) >>
  step (System (cp_command j)) (Ok tt) >>
  (let path := path_join (folder j) (str_of "sub_fold.sh") in
   step (WriteFile path (sub_file_data j n))
     (write_file path (sub_file_data j n))) >>
  step (System (sbatch_command j)) (Ok tt) >>
  print (str_of "Submitted jobs for file in folder " ++ folder j) >>
  print [].

(** The script, on the sequence files
    [mps.list_files_with_extension("data/", ".faa")] returned. *)
Definition main (files : list str) : run unit :=
  for_each submit (Collector.enumerate files).

End Script.

(** ** Reading a run *)

(** The shell commands of a run, in order. *)
Definition commands (t : list action) : list str :=
  flat_map (fun a => match a with System c => [c] | _ => [] end) t.

(** The files a run wrote, in order. *)
Definition written (t : list action) : list (str * str) :=
  flat_map (fun a => match a with WriteFile p x => [(p, x)] | _ => [] end) t.

(** The number of entries of a sequence file. *)
Definition entry_count (load : str -> result (list str * list str))
  (file : str) : nat :=
  match load file with
  | Ok (entries, _) => length entries
  | Raise _ => 0
  end.

(** A sequence file that loads. *)
Definition loads (load : str -> result (list str * list str))
  (file : str) : Prop :=
  exists loaded, load file = Ok loaded.

(** The lines of a script that ask for a job array. *)
Definition array_lines (script : str) : list str :=
  filter (fun line => startswith line (str_of "#SBATCH --array="))
    (file_lines script).

(** The directories a run made, in order. *)
Definition made (t : list action) : list str :=
  flat_map (fun a => match a with MakeDirs d => [d] | _ => [] end) t.

(** Surroundings in which directories can be made and files written. *)
Definition obliging (makedirs : str -> result unit)
  (write_file : str -> str -> result unit) : Prop :=
  (forall d, makedirs d = Ok tt) /\ (forall p x, write_file p x = Ok tt).

(** What the script does for one sequence file that loads. *)
Definition commands_for (item : nat * str) : list str :=
  [cp_command (fst item); sbatch_command (fst item)].

Definition script_for (load : str -> result (list str * list str))
  (sub_file_data : nat -> nat -> str) (item : nat * str) : str * str :=
  (folder (fst item) ++ str_of "/sub_fold.sh",
   sub_file_data (fst item) (entry_count load (snd item))).

Definition new_folder (path_exists : str -> bool) (item : nat * str)
  : list str :=
  if path_exists (folder (fst item)) then [] else [folder (fst item)].

End SubmitterFold.

(* ================================================================== *)
(** * Sample submissions *)
(* ================================================================== *)

Module SubmitSamples.

Import SubmitterFold.

Definition sample_files : list str :=
  [str_of "data/a.faa"; str_of "data/b.faa"; str_of "data/c.faa"].

(** [data/a.faa] has two entries, [data/b.faa] has none, and [data/c.faa]
    cannot be read. *)
Definition sample_load (path : str) : result (list str * list str) :=
  if str_eqb path (str_of "data/a.faa")
  then Ok ([str_of "MKV"; str_of "GG"], [str_of "one"; str_of "two"])
  else if str_eqb path (str_of "data/b.faa") then Ok ([], [])
  else Raise FileNotFoundError.

(** Only [F001] is there already. *)
Definition sample_exists (path : str) : bool := str_eqb path (str_of "F001").

Definition can_make (path : str) : result unit := Ok tt.
Definition can_write (path text : str) : result unit := Ok tt.

End SubmitSamples.

(* ================================================================== *)
(** * General facts *)
(* ================================================================== *)

Section General.

Local Open Scope N_scope.

Lemma bind_ok {A B} (m : result A) (f : A -> result B) (b : B) :
  bind m f = Ok b -> exists a, m = Ok a /\ f a = Ok b.
Proof.
  destruct m as [a|e]; simpl; [|discriminate]. intros H; exists a; auto.
Qed.

Lemma str_eqb_refl (a : str) : str_eqb a a = true.
Proof.
  unfold str_eqb. destruct (list_eq_dec N.eq_dec a a); congruence.
Qed.

Lemma str_eqb_eq (a b : str) : str_eqb a b = true <-> a = b.
Proof.
  unfold str_eqb. destruct (list_eq_dec N.eq_dec a b); split;
    congruence.
Qed.

Lemma find_map_fst {A B} (p : str -> bool) (g : A -> B)
  (fa : A -> str) (fb : B -> str) (l : list A) :
  (forall a, fb (g a) = fa a) ->
  find (fun b => p (fb b)) (map g l)
  = option_map g (find (fun a => p (fa a)) l).
Proof.
  intros Hg. induction l as [|a l IH]; simpl; [reflexivity|].
  rewrite Hg. destruct (p (fa a)); [reflexivity | exact IH].
Qed.

End General.
(* ================================================================== *)
(** * Properties of the FASTA reader *)
(* ================================================================== *)

Section FastaReader.

Import RunFoldParallel FastaText FastaSamples.
Local Open Scope N_scope.

Lemma join_empty_concat (chunks : list str) : join [] chunks = concat chunks.
Proof.
  induction chunks as [|c [|c' cs] IH]; simpl in *.
  - reflexivity.
  - now rewrite app_nil_r.
  - now rewrite IH.
Qed.

Lemma header_not_skipped (line : str) :
  is_header line = true -> skipped line = false.
Proof.
  unfold is_header, skipped.
  change (str_of ">") with [62]; change (str_of ";") with [59];
    change (str_of "#") with [35].
  destruct line as [|c line]; cbn [startswith]; [discriminate|].
  rewrite !andb_true_r.
  intros H; apply N.eqb_eq in H; subst c; reflexivity.
Qed.

Lemma flush_loop (lines : list str) : forall r,
  let r' := flush (fold_left read_line lines r) in
  descs_list r' = descs_list r ++ map fst (open_record r lines ++ records lines)
  /\ seqs_list r' =
     seqs_list r
     ++ map (fun rc => joined_sequence (snd rc))
          (open_record r lines ++ records lines).
Proof.
  induction lines as [|raw rest IH]; intros r; cbn zeta.
  - unfold open_record, flush; simpl.
    destruct (current_desc r); simpl; rewrite ?app_nil_r; auto.
  - simpl fold_left. unfold read_line at 2 4.
    unfold open_record in *; simpl body; simpl records.
    destruct (skipped (strip raw)) eqn:Hs.
    + apply IH.
    + destruct (is_header (strip raw)) eqn:Hh.
      * specialize (IH {| descs_list := descs_list (flush r);
                          seqs_list := seqs_list (flush r);
                          current_desc := Some (strip (tl (strip raw)));
                          current_chunks := [] |}).
        cbn zeta in IH. simpl in IH. destruct IH as [IHd IHs].
        rewrite IHd, IHs. unfold flush, header_description.
        destruct (current_desc r); simpl; rewrite ?app_nil_r;
          rewrite <- ?app_assoc; simpl; auto.
      * specialize (IH {| descs_list := descs_list r;
                          seqs_list := seqs_list r;
                          current_desc := current_desc r;
                          current_chunks := current_chunks r ++ [strip raw] |}).
        cbn zeta in IH. simpl in IH. destruct IH as [IHd IHs].
        rewrite IHd, IHs.
        destruct (current_desc r); simpl; rewrite <- ?app_assoc; simpl; auto.
Qed.

(** The reader returns the records of the text, sequences first. *)
Lemma read_entries_records (lines : list str) :
  read_entries lines =
  (map (fun rc => joined_sequence (snd rc)) (records lines),
   map fst (records lines)).
Proof.
  unfold read_entries.
  destruct (flush_loop lines reader_init) as [Hd Hs].
  cbn zeta in Hd, Hs. rewrite Hd, Hs. reflexivity.
Qed.

Lemma records_headers (lines : list str) :
  map fst (records lines) =
  map header_description (filter is_header_line lines).
Proof.
  induction lines as [|raw rest IH]; simpl; [reflexivity|].
  unfold is_header_line at 1.
  destruct (is_header (strip raw)) eqn:Hh.
  - rewrite (header_not_skipped _ Hh). simpl. now rewrite IH.
  - destruct (skipped (strip raw)); exact IH.
Qed.

(** On a line that does not start with whitespace, stripping does not
    change whether the line begins with [>]. *)
Lemma lstrip_last (l : str) (c : char) :
  is_space c = false -> exists l', lstrip (l ++ [c]) = l' ++ [c].
Proof.
  intros Hc. induction l as [|x l IH]; simpl.
  - rewrite Hc. now exists [].
  - destruct (is_space x); [exact IH | now exists (x :: l)].
Qed.

Lemma header_line_without_indent (raw_line : str) :
  indented raw_line = false ->
  is_header_line raw_line = startswith raw_line (str_of ">").
Proof.
  destruct raw_line as [|c rest]; [reflexivity|].
  cbn [indented]. intros Hc.
  unfold is_header_line, is_header, strip. cbn [lstrip]. rewrite Hc.
  unfold rstrip. cbn [rev].
  destruct (lstrip_last (rev rest) c Hc) as (l' & ->).
  rewrite rev_app_distr. reflexivity.
Qed.

(** In a text without indented lines, the header lines are the lines
    that begin with [>] as they stand. *)
Lemma header_lines_without_indent (lines : list str) :
  forallb (fun raw_line => negb (indented raw_line)) lines = true ->
  filter is_header_line lines
  = filter (fun raw_line => startswith raw_line (str_of ">")) lines.
Proof.
  intros H. apply filter_ext_in. intros raw_line Hin.
  apply header_line_without_indent.
  rewrite forallb_forall in H. specialize (H _ Hin).
  now apply negb_true_iff in H.
Qed.

Lemma load_fasta_entries_eq (fs : filesystem) (fasta_path : str) :
  load_fasta_entries fs fasta_path
  = match fs fasta_path with
    | Some (File content) => Ok (read_entries (file_lines content))
    | _ => Raise FileNotFoundError
    end.
Proof.
  unfold load_fasta_entries, load_fasta_entries_on, is_file, read_text,
    file_lines.
  destruct (fs fasta_path) as [[content|]|]; reflexivity.
Qed.

Lemma load_fasta_entries_ok (fs : filesystem) (fasta_path : str)
  (seqs descs : list str) :
  load_fasta_entries fs fasta_path = Ok (seqs, descs) ->
  exists content,
    fs fasta_path = Some (File content) /\
    (seqs, descs) = read_entries (file_lines content).
Proof.
  rewrite load_fasta_entries_eq.
  destruct (fs fasta_path) as [[content|]|]; try discriminate.
  intros H. exists content; split; [reflexivity | congruence].
Qed.

Lemma load_fasta_entries_records (fs : filesystem) (fasta_path : str)
  (seqs descs : list str) :
  load_fasta_entries fs fasta_path = Ok (seqs, descs) ->
  exists content,
    fs fasta_path = Some (File content) /\
    seqs = map (fun rc => joined_sequence (snd rc))
             (records (file_lines content)) /\
    descs = map fst (records (file_lines content)).
Proof.
  intros H. apply load_fasta_entries_ok in H as (content & Hfs & Hre).
  exists content. split; [exact Hfs|].
  rewrite read_entries_records in Hre. injection Hre as -> ->. auto.
Qed.

Lemma records_count (lines : list str) :
  length (records lines) = length (filter is_header_line lines).
Proof.
  rewrite <- (length_map fst (records lines)), records_headers.
  apply length_map.
Qed.

Lemma combine_records (parsed : list (str * list str)) :
  combine (map fst parsed)
    (map (fun rc => joined_sequence (snd rc)) parsed)
  = map (fun rc => (fst rc, joined_sequence (snd rc))) parsed.
Proof.
  induction parsed as [|rc l IH]; simpl; [reflexivity | now rewrite IH].
Qed.

(** C1: whenever the reader accepts its input, it returns as many
    descriptions as sequences, and as many as the input has lines that
    begin with [>] (lines are looked at with their surrounding whitespace
    stripped, as the reader does); the descriptions are those of the header
    lines, in the order of these lines, and the k-th sequence belongs to
    the k-th record. *)
Theorem load_fasta_entries_counts (fs : filesystem) (fasta_path : str)
  (seqs descs : list str) :
  load_fasta_entries fs fasta_path = Ok (seqs, descs) ->
  exists content,
    fs fasta_path = Some (File content) /\
    let lines := file_lines content in
    length descs = length seqs /\
    length descs = length (filter is_header_line lines) /\
    descs = map header_description (filter is_header_line lines) /\
    combine descs seqs =
      map (fun rc => (fst rc, joined_sequence (snd rc))) (records lines).
Proof.
  intros H.
  apply load_fasta_entries_records in H as (content & Hfs & -> & ->).
  exists content; split; [exact Hfs|]. cbn zeta.
  rewrite !length_map. split; [reflexivity|].
  split; [apply records_count|].
  split; [apply records_headers | apply combine_records].
Qed.

Lemma load_fasta_entries_counts_witness :
  load_fasta_entries (single_file sample_path two_records) sample_path
  = Ok ([str_of "MKV"; str_of "LLT"], [str_of "a"; str_of "b"]) /\
  exists content,
    single_file sample_path two_records sample_path = Some (File content) /\
    let lines := file_lines content in
    length [str_of "a"; str_of "b"] = length [str_of "MKV"; str_of "LLT"] /\
    length [str_of "a"; str_of "b"] = length (filter is_header_line lines) /\
    [str_of "a"; str_of "b"]
      = map header_description (filter is_header_line lines) /\
    combine [str_of "a"; str_of "b"] [str_of "MKV"; str_of "LLT"] =
      map (fun rc => (fst rc, joined_sequence (snd rc))) (records lines).
Proof.
  split; [reflexivity|].
  apply (load_fasta_entries_counts
           (single_file sample_path two_records) sample_path).
  reflexivity.
Defined.

(** C2, as stated, fails: a tab inside a sequence line is whitespace, and
    the reader keeps it. *)
Lemma sequence_keeps_tab :
  load_fasta_entries (single_file sample_path tab_record) sample_path
  = Ok ([str_of "M" ++ [TAB] ++ str_of "K"], [str_of "a"]) /\
  map (fun rc => remove_whitespace (concat (snd rc)))
      (records (file_lines tab_record)) = [str_of "MK"] /\
  [str_of "M" ++ [TAB] ++ str_of "K"] <> [str_of "MK"].
Proof.
  split; [reflexivity|]. split; [reflexivity|]. discriminate.
Qed.

(** C2, amended: for every record the reader parses, the returned sequence
    is the concatenation of the record's lines (the stripped lines after
    its header that are neither blank, nor comments, nor headers) with
    every space character (U+0020) removed; other whitespace inside a line
    is kept. *)
Theorem load_fasta_entries_sequences (fs : filesystem) (fasta_path : str)
  (seqs descs : list str) :
  load_fasta_entries fs fasta_path = Ok (seqs, descs) ->
  exists content,
    fs fasta_path = Some (File content) /\
    let parsed := records (file_lines content) in
    seqs = map (fun rc => remove_char SPACE (concat (snd rc))) parsed /\
    descs = map fst parsed.
Proof.
  intros H.
  apply load_fasta_entries_records in H as (content & Hfs & -> & ->).
  exists content; split; [exact Hfs|]. cbn zeta.
  split; [|reflexivity].
  apply map_ext; intros rc. unfold joined_sequence.
  now rewrite join_empty_concat.
Qed.

Lemma load_fasta_entries_sequences_witness :
  load_fasta_entries (single_file sample_path tab_record) sample_path
  = Ok ([str_of "M" ++ [TAB] ++ str_of "K"], [str_of "a"]) /\
  exists content,
    single_file sample_path tab_record sample_path = Some (File content) /\
    let parsed := records (file_lines content) in
    [str_of "M" ++ [TAB] ++ str_of "K"]
      = map (fun rc => remove_char SPACE (concat (snd rc))) parsed /\
    [str_of "a"] = map fst parsed.
Proof.
  split; [reflexivity|].
  apply (load_fasta_entries_sequences
           (single_file sample_path tab_record) sample_path).
  reflexivity.
Defined.




End FastaReader.

(* ================================================================== *)
(** * Properties of the shared append log *)
(* ================================================================== *)

Section SharedLog.

Import RunFoldParallel FastaText LogSample.
Local Open Scope N_scope.

Lemma write_to_shared_file_appends (message shared_file : str)
  (fs fs' : filesystem) :
  write_to_shared_file message shared_file fs = Ok fs' ->
  exists old, fs' shared_file = Some (File (old ++ message)).
Proof.
  unfold write_to_shared_file, append_text.
  destruct (fs shared_file) as [[old|]|]; try discriminate;
    intros H; injection H as <-; unfold fs_set; rewrite str_eqb_refl.
  - now exists old.
  - now exists [].
Qed.

Lemma out_str_join (file description entry : str) (r : inference)
  (pdb_str : str) :
  out_str file description entry r pdb_str =
  join (str_of ";;; ") (record_fields file description entry r pdb_str)
  ++ str_of " ~~~" ++ [LF].
Proof.
  unfold out_str, record_fields. cbn [join].
  now rewrite <- !app_assoc.
Qed.

(** C8, as stated, fails: the record of a task is not its fields joined by
    [;;;] alone. *)
Lemma record_separator_has_space :
  main sample_infer sample_listing 1 0 sample_fs
  = Ok (sample_record,
        fs_set
          (fs_set
             (fs_set sample_fs (str_of "tmp_1_0.pdb")
                (Some (File (pdb_text sample_inference))))
             (str_of "tmp_1_0.pdb") None)
          (str_of "../data/sample.faa.fdat") (Some (File sample_record))) /\
  join (str_of ";;;")
    (record_fields sample_path (str_of "b") (str_of "LLT") sample_inference
       (pdb_text sample_inference))
  ++ str_of " ~~~" ++ [LF] = sample_record_as_stated /\
  sample_record <> sample_record_as_stated.
Proof.
  split; [reflexivity|]. split; [reflexivity|]. discriminate.
Qed.

Lemma join_separators_differ (fields : list str) (tail : str) :
  length fields = 7%nat ->
  join (str_of ";;; ") fields ++ tail <> join (str_of ";;;") fields ++ tail.
Proof.
  intros Hlen H.
  do 8 (destruct fields as [|? fields]; try discriminate Hlen).
  apply (f_equal (@length char)) in H. cbn [join] in H.
  rewrite !length_app in H.
  change (length (str_of ";;; ")) with 4%nat in H.
  change (length (str_of ";;;")) with 3%nat in H. lia.
Qed.

(** C8, amended: every record a folding task writes to the shared log is
    one string: its seven fields (the path of the sequence file, the
    description and the sequence of the entry, the three scores as text,
    the structure read back from the temporary file) joined by the
    literal separator [;;; ] (three semicolons and one space), terminated
    by the literal [ ~~~] marker followed immediately by a newline; it is
    never these fields joined by [;;;] alone; the task appends it to the
    log of its input file. *)
Theorem shared_log_record_format (infer : str -> result inference)
  (data_listing : list str) (i j : Z) (fs fs' : filesystem) (record : str) :
  main infer data_listing i j fs = Ok (record, fs') ->
  exists file entries descriptions entry description r,
    getitem
      (list_files_with_extension data_listing (str_of "../data/")
         (str_of ".faa")) j = Ok file /\
    load_fasta_entries fs file = Ok (entries, descriptions) /\
    getitem entries i = Ok entry /\
    getitem descriptions i = Ok description /\
    infer entry = Ok r /\
    record =
      join (str_of ";;; ")
        [file; description; entry; ptm_repr r; plddt_repr r;
         plddt_mean_repr r; translate_newlines false (pdb_text r)]
      ++ str_of " ~~~" ++ [LF] /\
    record <>
      join (str_of ";;;")
        [file; description; entry; ptm_repr r; plddt_repr r;
         plddt_mean_repr r; translate_newlines false (pdb_text r)]
      ++ str_of " ~~~" ++ [LF] /\
    exists old, fs' (file ++ str_of ".fdat") = Some (File (old ++ record)).
Proof.
  unfold main. intros H.
  apply bind_ok in H as (file & Hfile & H).
  apply bind_ok in H as ([entries descriptions] & Hload & H).
  apply bind_ok in H as (entry & Hentry & H).
  apply bind_ok in H as (description & Hdesc & H).
  apply bind_ok in H as ([r fs1] & Hfold & H).
  apply bind_ok in H as (pdb_str & Hread & H).
  apply bind_ok in H as (fs2 & _ & H).
  apply bind_ok in H as (fs3 & Hw & H).
  injection H as <- <-.
  unfold fold_sequence_esm in Hfold.
  apply bind_ok in Hfold as (r' & Hinfer & Hfold).
  apply bind_ok in Hfold as (fs1' & Hwt & Hfold).
  injection Hfold as -> ->.
  assert (Hpdb : pdb_str = translate_newlines false (pdb_text r)).
  { unfold write_text in Hwt.
    assert (Hfs1 : fs1 = fs_set fs
                     (str_of "tmp_" ++ str_int i ++ str_of "_" ++ str_int j
                      ++ str_of ".pdb") (Some (File (pdb_text r)))).
    { destruct (fs _) as [[c|]|]; congruence. }
    subst fs1. unfold read_text, fs_set in Hread.
    rewrite str_eqb_refl in Hread. congruence. }
  subst pdb_str.
  apply write_to_shared_file_appends in Hw as (old & Hw).
  exists file, entries, descriptions, entry, description, r.
  split; [exact Hfile|]. split; [exact Hload|]. split; [exact Hentry|].
  split; [exact Hdesc|]. split; [exact Hinfer|].
  rewrite out_str_join in *. unfold record_fields in *.
  split; [reflexivity|].
  split; [now apply join_separators_differ|].
  now exists old.
Qed.

Lemma shared_log_record_format_witness :
  exists fs',
    main sample_infer sample_listing 1 0 sample_fs = Ok (sample_record, fs') /\
    exists file entries descriptions entry description r,
      getitem
        (list_files_with_extension sample_listing (str_of "../data/")
           (str_of ".faa")) 0 = Ok file /\
      load_fasta_entries sample_fs file = Ok (entries, descriptions) /\
      getitem entries 1 = Ok entry /\
      getitem descriptions 1 = Ok description /\
      sample_infer entry = Ok r /\
      sample_record =
        join (str_of ";;; ")
          [file; description; entry; ptm_repr r; plddt_repr r;
           plddt_mean_repr r; translate_newlines false (pdb_text r)]
        ++ str_of " ~~~" ++ [LF] /\
      sample_record <>
        join (str_of ";;;")
          [file; description; entry; ptm_repr r; plddt_repr r;
           plddt_mean_repr r; translate_newlines false (pdb_text r)]
        ++ str_of " ~~~" ++ [LF] /\
      exists old,
        fs' (file ++ str_of ".fdat") = Some (File (old ++ sample_record)).
Proof.
  eexists. split; [reflexivity|].
  eapply (shared_log_record_format sample_infer sample_listing 1 0 sample_fs).
  reflexivity.
Defined.

End SharedLog.

(* ================================================================== *)
(** * Properties of the collector *)
(* ================================================================== *)

Section CollectorRun.

Import Collector CollectorSample FastaText.
Local Open Scope N_scope.

Lemma has_column_find (df : DataFrame) (column : str) :
  has_column df column = true ->
  exists col,
    find (fun c => str_eqb (fst c) column) (columns df) = Some col /\
    In col (columns df).
Proof.
  unfold has_column. intros H.
  destruct (find (fun c => str_eqb (fst c) column) (columns df))
    as [col|] eqn:Hf.
  - exists col; split; [reflexivity|]. now apply find_some in Hf.
  - apply existsb_exists in H as (c & Hin & Hc).
    now rewrite (find_none _ _ Hf c Hin) in Hc.
Qed.

Lemma safe_first_present (df : DataFrame) (column : str) (default : cell) :
  well_formed df ->
  has_column df column = true -> n_rows df <> 0%nat ->
  exists v,
    field (row df 0) column = Some v /\
    _safe_first df column default = Ok v.
Proof.
  intros [Hlen _] Hc Hn.
  destruct (has_column_find _ _ Hc) as (col & Hf & Hin).
  assert (Hcol : length (snd col) = n_rows df).
  { rewrite Forall_forall in Hlen. now apply Hlen. }
  destruct (snd col) as [|v vs] eqn:Hv; [simpl in Hcol; congruence|].
  exists v. split.
  - unfold field, row.
    rewrite (find_map_fst (fun n => str_eqb n column)
               (fun c : str * list cell => (fst c, nth_error (snd c) 0))
               fst fst (columns df)) by reflexivity.
    rewrite Hf. simpl. now rewrite Hv.
  - unfold _safe_first, empty, get_column. rewrite Hc, Hf.
    destruct (columns df) as [|c cs]; [contradiction|].
    destruct (n_rows df); [congruence|]. simpl. now rewrite Hv.
Qed.

Lemma safe_first_absent (df : DataFrame) (column : str) (default : cell) :
  has_column df column = false \/ empty df = true ->
  _safe_first df column default = Ok default.
Proof.
  unfold _safe_first. intros [-> | ->]; [reflexivity|].
  now rewrite andb_false_r.
Qed.

Lemma safe_first_total (df : DataFrame) (column : str) (default : cell) :
  well_formed df -> exists v, _safe_first df column default = Ok v.
Proof.
  intros Hwf.
  destruct (has_column df column) eqn:Hc.
  - destruct (Nat.eq_dec (n_rows df) 0) as [Hn|Hn].
    + exists default. apply safe_first_absent. right.
      unfold empty. now rewrite Hn.
    + destruct (safe_first_present df column default Hwf Hc Hn) as (v & _ & Hv).
      now exists v.
  - exists default. apply safe_first_absent. now left.
Qed.

(** C6: on a table as pandas builds it, [_safe_first] returns the value of
    the named field in the first row when the field exists and the table
    has a row, and the sentinel [NaN] in every other case (field absent or
    table empty); it never raises. *)
Theorem safe_first_spec (df : DataFrame) (column : str) :
  well_formed df ->
  (has_column df column = true -> n_rows df <> 0%nat ->
   exists v,
     field (row df 0) column = Some v /\
     _safe_first df column NaN = Ok v) /\
  (has_column df column = false \/ empty df = true ->
   _safe_first df column NaN = Ok NaN) /\
  raises (_safe_first df column NaN) = false.
Proof.
  intros Hwf. split; [|split].
  - now apply safe_first_present.
  - apply safe_first_absent.
  - destruct (safe_first_total df column NaN Hwf) as (v & ->). reflexivity.
Qed.

Lemma well_formed_sample_scores : well_formed sample_scores.
Proof.
  split.
  - repeat constructor.
  - repeat constructor; simpl; intuition discriminate.
Qed.

Lemma well_formed_foreign_scores : well_formed foreign_scores.
Proof.
  split.
  - repeat constructor.
  - repeat constructor; simpl; intuition discriminate.
Qed.

Lemma well_formed_header_only_scores : well_formed header_only_scores.
Proof.
  split.
  - repeat constructor.
  - repeat constructor; simpl; intuition discriminate.
Qed.

Lemma safe_first_spec_witness :
  (well_formed sample_scores /\
   has_column sample_scores (str_of "pLDDT_Score") = true /\
   n_rows sample_scores <> 0%nat /\
   field (row sample_scores 0) (str_of "pLDDT_Score")
   = Some (Value (str_of "0.8")) /\
   exists v,
     field (row sample_scores 0) (str_of "pLDDT_Score") = Some v /\
     _safe_first sample_scores (str_of "pLDDT_Score") NaN = Ok v) /\
  (well_formed foreign_scores /\
   has_column foreign_scores (str_of "pLDDT_Score") = false /\
   _safe_first foreign_scores (str_of "pLDDT_Score") NaN = Ok NaN) /\
  (well_formed header_only_scores /\
   empty header_only_scores = true /\
   _safe_first header_only_scores (str_of "pLDDT_Score") NaN = Ok NaN).
Proof.
  split; [|split].
  - split; [exact well_formed_sample_scores|].
    split; [reflexivity|]. split; [discriminate|]. split; [reflexivity|].
    apply (safe_first_spec sample_scores (str_of "pLDDT_Score")
             well_formed_sample_scores); [reflexivity | discriminate].
  - split; [exact well_formed_foreign_scores|]. split; [reflexivity|].
    apply (safe_first_spec foreign_scores (str_of "pLDDT_Score")
             well_formed_foreign_scores).
    left; reflexivity.
  - split; [exact well_formed_header_only_scores|]. split; [reflexivity|].
    apply (safe_first_spec header_only_scores (str_of "pLDDT_Score")
             well_formed_header_only_scores).
    right; reflexivity.
Defined.

(** C4: when the entry index [j] is not below the length of the matched
    structure-file list (respectively score-file list), the structure text
    (respectively both scores) of the result row is the absent value, and
    nothing is raised on this path: with both lists short the row is built
    without touching any file (index 5 against 3 matched files is such a
    case); with one list short the row is built from the other artifact
    alone. *)
Theorem process_entry_missing_artifacts (fs : filesystem)
  (read_csv : str -> result DataFrame) (j : nat)
  (entry description faa_file : str) (pdbs csvs : list str) :
  let item := (j, entry, description, faa_file, pdbs, csvs) in
  ((length pdbs <= j)%nat -> (length csvs <= j)%nat ->
   _process_entry fs read_csv item
   = ([], Ok {| Description := description; Sequence := entry;
                pTM_Score := NaN; pLDDT_Score := NaN;
                PDB := None; FAA_File := faa_file |})) /\
  ((length pdbs <= j)%nat ->
   forall p df,
     nth_error csvs j = Some p -> read_csv p = Ok df -> well_formed df ->
     exists ptm plddt,
       _process_entry fs read_csv item
       = ([ReadCsv p],
          Ok {| Description := description; Sequence := entry;
                pTM_Score := ptm; pLDDT_Score := plddt;
                PDB := None; FAA_File := faa_file |})) /\
  ((length csvs <= j)%nat ->
   forall p text,
     nth_error pdbs j = Some p -> fs p = Some (File text) ->
     _process_entry fs read_csv item
     = ([OpenRead p],
        Ok {| Description := description; Sequence := entry;
              pTM_Score := NaN; pLDDT_Score := NaN;
              PDB := Some (translate_newlines false text);
              FAA_File := faa_file |})).
Proof.
  cbn zeta. unfold _process_entry. split; [|split].
  - intros Hp Hc.
    apply Nat.ltb_ge in Hp, Hc. rewrite Hp, Hc. reflexivity.
  - intros Hp p df Hn Hr Hwf.
    apply Nat.ltb_ge in Hp. rewrite Hp.
    assert (Hj : (j <? length csvs)%nat = true).
    { apply Nat.ltb_lt, nth_error_Some. congruence. }
    rewrite Hj. unfold at_index. rewrite Hn.
    destruct (safe_first_total df (str_of "pTM_Score") NaN Hwf) as (ptm & Hptm).
    destruct (safe_first_total df (str_of "pLDDT_Score") NaN Hwf)
      as (plddt & Hplddt).
    exists ptm, plddt.
    cbn [io_bind lift ret emit app]. rewrite Hr.
    cbn [io_bind lift ret emit app]. rewrite Hptm.
    cbn [io_bind lift ret emit app]. rewrite Hplddt. reflexivity.
  - intros Hc p text Hn Hfs.
    apply Nat.ltb_ge in Hc. rewrite Hc.
    assert (Hj : (j <? length pdbs)%nat = true).
    { apply Nat.ltb_lt, nth_error_Some. congruence. }
    rewrite Hj. unfold at_index, read_text. rewrite Hn.
    cbn [io_bind lift ret emit app]. rewrite Hfs. reflexivity.
Qed.

Lemma process_entry_missing_artifacts_witness :
  (length three_files <= 5)%nat /\
  _process_entry sample_world sample_read_csv
    (5%nat, str_of "MKV", str_of "a", sample_faa, three_files, three_files)
  = ([], Ok {| Description := str_of "a"; Sequence := str_of "MKV";
               pTM_Score := NaN; pLDDT_Score := NaN;
               PDB := None; FAA_File := sample_faa |}) /\
  (exists ptm plddt,
     _process_entry sample_world sample_read_csv
       (1%nat, str_of "MKV", str_of "a", sample_faa, [], sample_csv_files)
     = ([ReadCsv (str_of "F000/tmp_1_0.csv")],
        Ok {| Description := str_of "a"; Sequence := str_of "MKV";
              pTM_Score := ptm; pLDDT_Score := plddt;
              PDB := None; FAA_File := sample_faa |})) /\
  _process_entry sample_world sample_read_csv
    (1%nat, str_of "MKV", str_of "a", sample_faa, three_files, [])
  = ([OpenRead (str_of "F000/folded_1_0.pdb")],
     Ok {| Description := str_of "a"; Sequence := str_of "MKV";
           pTM_Score := NaN; pLDDT_Score := NaN;
           PDB := Some (str_of "ATOM b"); FAA_File := sample_faa |}).
Proof.
  split; [simpl; lia|]. split; [|split].
  - apply (process_entry_missing_artifacts sample_world sample_read_csv 5
             (str_of "MKV") (str_of "a") sample_faa three_files three_files);
      simpl; lia.
  - apply (proj1 (proj2 (process_entry_missing_artifacts sample_world
             sample_read_csv 1 (str_of "MKV") (str_of "a") sample_faa
             [] sample_csv_files))
             (Nat.le_0_l 1) (str_of "F000/tmp_1_0.csv") sample_scores
             eq_refl eq_refl well_formed_sample_scores).
  - apply (proj2 (proj2 (process_entry_missing_artifacts sample_world
             sample_read_csv 1 (str_of "MKV") (str_of "a") sample_faa
             three_files []))
             (Nat.le_0_l 1) (str_of "F000/folded_1_0.pdb") (str_of "ATOM b")
             eq_refl eq_refl).
Defined.

(** C5: when the scan found different numbers of structure files and of
    score files, the collector prints its four opening lines and raises
    [ValueError]: no sequence file is loaded, no artifact is read, no row
    is built and no table is written. *)
Theorem main_pool_mismatch (fs : filesystem)
  (read_csv : str -> result DataFrame)
  (mps_load_fasta_entries : str -> result (list str * list str))
  (pdb_files csv_files faa_files : list str)
  (gathered : list Row -> list Row)
  (to_csv : list Row -> str -> result unit) (cwd : str) :
  length pdb_files <> length csv_files ->
  main fs read_csv mps_load_fasta_entries pdb_files csv_files faa_files
    gathered to_csv cwd
  = ([ Print (str_of "Current working directory: " ++ cwd);
       Print (str_of "Total folded PDB Files: "
              ++ str_nat (length pdb_files));
       Print (str_of "Total folded CSV Files: "
              ++ str_nat (length csv_files));
       Print (str_of "Total folded FAA Files: "
              ++ str_nat (length faa_files)) ],
     Raise ValueError).
Proof.
  intros H. apply Nat.eqb_neq in H.
  unfold main. rewrite H. reflexivity.
Qed.

Lemma main_pool_mismatch_witness :
  length three_files <> length [str_of "F000/tmp_0_0.csv";
                                str_of "F000/tmp_1_0.csv"] /\
  main sample_world sample_read_csv sample_load three_files
    [str_of "F000/tmp_0_0.csv"; str_of "F000/tmp_1_0.csv"]
    [sample_faa] in_turn table_written (str_of "/work")
  = ([ Print (str_of "Current working directory: /work");
       Print (str_of "Total folded PDB Files: 3");
       Print (str_of "Total folded CSV Files: 2");
       Print (str_of "Total folded FAA Files: 1") ],
     Raise ValueError).
Proof.
  split; [discriminate|].
  apply (main_pool_mismatch sample_world sample_read_csv sample_load
           three_files
           [str_of "F000/tmp_0_0.csv"; str_of "F000/tmp_1_0.csv"]
           [sample_faa] in_turn table_written (str_of "/work")).
  discriminate.
Defined.

(** A run with matching pools does reach the entries: it loads the
    sequence file, reads the artifacts of each entry and builds a row per
    entry. *)
Example main_sample_run :
  main sample_world sample_read_csv sample_load
    sample_pdb_files sample_csv_files [sample_faa] in_turn table_written
    (str_of "/work")
  = ([ Print (str_of "Current working directory: /work");
       Print (str_of "Total folded PDB Files: 3");
       Print (str_of "Total folded CSV Files: 3");
       Print (str_of "Total folded FAA Files: 1");
       LoadFasta sample_faa;
       OpenRead (str_of "F000/folded_0_0.pdb");
       ReadCsv (str_of "F000/tmp_0_0.csv");
       OpenRead (str_of "F000/folded_1_0.pdb");
       ReadCsv (str_of "F000/tmp_1_0.csv");
       Print (str_of "Processed FAA file 1/1: data/sample.faa with 2 entries");
       Print (str_of "Data gathering done!");
       Print (str_of "Compressing collected results...");
       ToCsv (str_of "collected_results.csv.gz");
       Print (str_of "Collected results saved to collected_results") ],
     Ok [ {| Description := str_of "a"; Sequence := str_of "MKV";
             pTM_Score := Value (str_of "0.5");
             pLDDT_Score := Value (str_of "0.8");
             PDB := Some (str_of "ATOM a"); FAA_File := sample_faa |};
          {| Description := str_of "b"; Sequence := str_of "LLT";
             pTM_Score := Value (str_of "0.5");
             pLDDT_Score := Value (str_of "0.8");
             PDB := Some (str_of "ATOM b"); FAA_File := sample_faa |} ]).
Proof. vm_compute. reflexivity. Qed.

End CollectorRun.

(* ================================================================== *)
(** * The matcher of patterns *)
(* ================================================================== *)

Section Matching.

Import Re.
Local Open Scope N_scope.

Lemma startswith_app (s l : str) :
  startswith s l = true <-> exists s', s = l ++ s'.
Proof.
  revert s. induction l as [|a l IH]; intros s; simpl.
  - split; [intros _; now exists s | reflexivity].
  - destruct s as [|c s].
    + split; [discriminate | intros (s' & H); discriminate].
    + rewrite andb_true_iff, N.eqb_eq, IH. split.
      * intros (-> & s' & ->). now exists s'.
      * intros (s' & H). injection H as -> ->. split; [reflexivity|].
        now exists s'.
Qed.

(** A literal matches exactly itself. *)
Lemma match_literal_app (l : str) (r : regex) (s : str) (m : marks) :
  match_here (literal l ++ r) (l ++ s) m = match_here r s m.
Proof.
  induction l as [|a l IH]; simpl; [reflexivity|].
  now rewrite N.eqb_refl.
Qed.

Lemma match_literal_inv (l : str) (r : regex) (s : str) (m m' : marks) :
  match_here (literal l ++ r) s m = Some m' ->
  exists s', s = l ++ s' /\ match_here r s' m = Some m'.
Proof.
  revert s. induction l as [|a l IH]; intros s; simpl.
  - intros H. now exists s.
  - destruct s as [|c s]; [discriminate|].
    destruct (c =? a) eqn:Hc; [|discriminate].
    apply N.eqb_eq in Hc. subst c.
    intros H. apply IH in H as (s' & -> & H). now exists s'.
Qed.

(** A greedy repetition that succeeds took some run of the class and left
    the rest of the pattern a match. *)
Lemma repeat_greedy_inv (k : cls) (rest : str -> marks -> option marks)
  (s : str) (m m' : marks) :
  repeat_greedy k rest s m = Some m' ->
  exists p s',
    s = p ++ s' /\ forallb (cls_match k) p = true /\ rest s' m = Some m'.
Proof.
  induction s as [|c s IH]; simpl.
  - intros H. now exists [], [].
  - destruct (cls_match k c) eqn:Hc.
    + destruct (repeat_greedy k rest s m) as [r|] eqn:Hr.
      * intros H. injection H as ->.
        destruct (IH eq_refl) as (p & s' & -> & Hp & Hrest).
        exists (c :: p), s'. simpl. now rewrite Hc, Hp.
      * intros H. now exists [], (c :: s).
    + intros H. now exists [], (c :: s).
Qed.

(** Backtracking finds a match whenever some run of the class leaves the
    rest of the pattern a match. *)
Lemma repeat_greedy_complete (k : cls) (rest : str -> marks -> option marks)
  (p s' : str) (m m' : marks) :
  forallb (cls_match k) p = true -> rest s' m = Some m' ->
  exists m'', repeat_greedy k rest (p ++ s') m = Some m''.
Proof.
  intros Hp Hrest. induction p as [|c p IH]; simpl in *.
  - destruct s' as [|c s']; simpl; [now exists m'|].
    destruct (cls_match k c); [|now exists m'].
    destruct (repeat_greedy k rest s' m) as [r|]; [now exists r|].
    now exists m'.
  - apply andb_true_iff in Hp as [Hc Hp]. rewrite Hc.
    destruct (IH Hp) as (m'' & ->). now exists m''.
Qed.

Lemma search_inv (r : regex) (s : str) (m' : marks) :
  search r s = Some m' ->
  exists pre suf, s = pre ++ suf /\ match_here r suf (None, None) = Some m'.
Proof.
  induction s as [|c s IH]; simpl.
  - destruct (match_here r [] (None, None)) eqn:H; [|discriminate].
    intros H'. injection H' as ->. now exists [], [].
  - destruct (match_here r (c :: s) (None, None)) eqn:H.
    + intros H'. injection H' as ->. now exists [], (c :: s).
    + intros H'. destruct (IH H') as (pre & suf & -> & Hm).
      now exists (c :: pre), suf.
Qed.

Lemma search_complete (r : regex) (pre suf : str) (m' : marks) :
  match_here r suf (None, None) = Some m' ->
  exists m'', search r (pre ++ suf) = Some m''.
Proof.
  intros H. induction pre as [|c pre IH]; simpl.
  - destruct suf; simpl; rewrite H; now exists m'.
  - destruct (match_here r (c :: pre ++ suf) (None, None)) as [m0|];
      [now exists m0 | exact IH].
Qed.

Lemma at_end_line_end (s : str) :
  at_end s = true <-> ArtifactNames.line_end s.
Proof.
  unfold ArtifactNames.line_end.
  destruct s as [|c [|c' s]]; simpl.
  - intuition.
  - rewrite N.eqb_eq. split.
    + intros ->. now right.
    + intros [H|H]; [discriminate | now injection H].
  - split; [discriminate | intros [H|H]; discriminate].
Qed.

Lemma anychar_run (mid : str) :
  forallb (cls_match AnyChar) mid = true <-> ~ In LF mid.
Proof.
  induction mid as [|c mid IH]; simpl.
  - intuition.
  - rewrite andb_true_iff, IH, negb_true_iff, N.eqb_neq. intuition.
Qed.

End Matching.

(* ================================================================== *)
(** * Patterns and file names *)
(* ================================================================== *)

Section Names.

Import Re Collector ArtifactNames.
Local Open Scope N_scope.

(** Splitting at the last separator is unique. *)
Lemma split_last_sep (sep : char) (x x' b b' : str) :
  ~ In sep b -> ~ In sep b' ->
  x ++ sep :: b = x' ++ sep :: b' -> x = x' /\ b = b'.
Proof.
  revert x'. induction x as [|c x IH]; intros [|c' x'] Hb Hb' H; simpl in H.
  - injection H as H. auto.
  - injection H as H1 H2. subst c' b. exfalso. apply Hb, in_elt.
  - injection H as H1 H2. subst c b'. exfalso. apply Hb', in_elt.
  - injection H as H1 H2. subst c'.
    destruct (IH x' Hb Hb' H2) as [H3 H4]. subst. auto.
Qed.

Lemma digits_no_underscore (s : str) :
  forallb is_decimal s = true -> ~ In UNDERSCORE s.
Proof.
  intros H Hin. rewrite forallb_forall in H.
  specialize (H _ Hin). discriminate.
Qed.

Lemma uint_chars_decimal (u : Decimal.uint) :
  forallb is_decimal (uint_chars u) = true.
Proof.
  induction u; simpl; auto.
Qed.

Lemma str_nat_decimal (n : nat) : forallb is_decimal (str_nat n) = true.
Proof. apply uint_chars_decimal. Qed.

Lemma firstn_group (a rest : str) :
  firstn (length (a ++ rest) - length rest) (a ++ rest) = a.
Proof.
  rewrite length_app, Nat.add_sub.
  rewrite firstn_app, Nat.sub_diag, firstn_all. simpl. apply app_nil_r.
Qed.

Section Extension.

Variable ext : str.
Hypothesis ext_one_line : ~ In LF ext.

(** The final newline, if any, is determined by the name. *)
Lemma tail_unique (x x' nl nl' : str) :
  line_end nl -> line_end nl' ->
  x ++ [DOT] ++ ext ++ nl = x' ++ [DOT] ++ ext ++ nl' ->
  x = x' /\ nl = nl'.
Proof.
  assert (Hlast : forall y y',
             y ++ [DOT] ++ ext <> y' ++ [DOT] ++ ext ++ [LF]).
  { intros y y' H. apply (f_equal (@rev char)) in H.
    rewrite !rev_app_distr in H. simpl in H.
    destruct (rev ext) as [|e re] eqn:He; simpl in H.
    - discriminate.
    - injection H as -> _. apply ext_one_line.
      apply in_rev. rewrite He. now left. }
  intros [-> | ->] [-> | ->] H.
  - rewrite !app_nil_r in H. apply app_inv_tail in H. auto.
  - rewrite app_nil_r in H. now apply Hlast in H.
  - rewrite app_nil_r in H. symmetry in H. now apply Hlast in H.
  - assert (H' : (x ++ [DOT] ++ ext) ++ [LF] = (x' ++ [DOT] ++ ext) ++ [LF])
      by (rewrite <- !app_assoc; exact H).
    apply app_inv_tail, app_inv_tail in H'. auto.
Qed.

(** The two tokens at the end of a name are determined by the name. *)
Lemma ends_with_tokens_unique (f a b a' b' : str) :
  ends_with_tokens ext f a b -> ends_with_tokens ext f a' b' ->
  a = a' /\ b = b'.
Proof.
  intros (pre & nl & -> & [_ Ha] & [_ Hb] & Hnl)
         (pre' & nl' & H & [_ Ha'] & [_ Hb'] & Hnl').
  replace (pre ++ [UNDERSCORE] ++ a ++ [UNDERSCORE] ++ b
           ++ [DOT] ++ ext ++ nl)
    with ((pre ++ [UNDERSCORE] ++ a ++ [UNDERSCORE] ++ b)
          ++ [DOT] ++ ext ++ nl)
    in H by now rewrite <- !app_assoc.
  replace (pre' ++ [UNDERSCORE] ++ a' ++ [UNDERSCORE] ++ b'
           ++ [DOT] ++ ext ++ nl')
    with ((pre' ++ [UNDERSCORE] ++ a' ++ [UNDERSCORE] ++ b')
          ++ [DOT] ++ ext ++ nl')
    in H by now rewrite <- !app_assoc.
  apply tail_unique in H as [H _]; auto.
  replace (pre ++ [UNDERSCORE] ++ a ++ [UNDERSCORE] ++ b)
    with ((pre ++ UNDERSCORE :: a) ++ UNDERSCORE :: b) in H
    by now rewrite <- !app_assoc.
  replace (pre' ++ [UNDERSCORE] ++ a' ++ [UNDERSCORE] ++ b')
    with ((pre' ++ UNDERSCORE :: a') ++ UNDERSCORE :: b') in H
    by now rewrite <- !app_assoc.
  apply split_last_sep in H as [H Hbb]; auto using digits_no_underscore.
  apply split_last_sep in H as [_ Haa]; auto using digits_no_underscore.
Qed.

(** In a name selected for index [i], the last token is [i]. *)
Lemma names_index_last_token (lead : str) (i : nat) (f a b : str) :
  names_index lead ext i f -> ends_with_tokens ext f a b -> b = str_nat i.
Proof.
  intros (pre & mid & nl & -> & _ & Hnl)
         (pre' & nl' & H & _ & [_ Hb] & Hnl').
  replace (pre ++ lead ++ mid ++ [UNDERSCORE] ++ str_nat i
           ++ [DOT] ++ ext ++ nl)
    with ((pre ++ lead ++ mid ++ [UNDERSCORE] ++ str_nat i)
          ++ [DOT] ++ ext ++ nl)
    in H by now rewrite <- !app_assoc.
  replace (pre' ++ [UNDERSCORE] ++ a ++ [UNDERSCORE] ++ b
           ++ [DOT] ++ ext ++ nl')
    with ((pre' ++ [UNDERSCORE] ++ a ++ [UNDERSCORE] ++ b)
          ++ [DOT] ++ ext ++ nl')
    in H by now rewrite <- !app_assoc.
  apply tail_unique in H as [H _]; auto.
  replace (pre ++ lead ++ mid ++ [UNDERSCORE] ++ str_nat i)
    with ((pre ++ lead ++ mid) ++ UNDERSCORE :: str_nat i) in H
    by now rewrite <- !app_assoc.
  replace (pre' ++ [UNDERSCORE] ++ a ++ [UNDERSCORE] ++ b)
    with ((pre' ++ [UNDERSCORE] ++ a) ++ UNDERSCORE :: b) in H
    by now rewrite <- !app_assoc.
  apply split_last_sep in H as [_ H];
    auto using digits_no_underscore, str_nat_decimal.
Qed.

(** The selection pattern accepts exactly the names of index [i]. *)
Lemma selected_names_index (lead : str) (i : nat) (f : str) :
  selected (pattern_for lead ext i) f = true <-> names_index lead ext i f.
Proof.
  unfold selected, pattern_for, names_index. split.
  - destruct (search _ f) as [m'|] eqn:Hs; [intros _ | discriminate].
    apply search_inv in Hs as (pre & suf & -> & H).
    apply match_literal_inv in H as (s1 & -> & H).
    cbn [app match_here] in H.
    apply repeat_greedy_inv in H as (mid & s2 & -> & Hmid & H).
    apply match_literal_inv in H as (s3 & -> & H).
    apply match_literal_inv in H as (s4 & -> & H).
    apply match_literal_inv in H as (nl & -> & H).
    cbn [match_here] in H.
    destruct (at_end nl) eqn:Hnl; [|discriminate].
    exists pre, mid, nl. split; [reflexivity|].
    split; [now apply anychar_run | now apply at_end_line_end].
  - intros (pre & mid & nl & -> & Hmid & Hnl).
    apply anychar_run in Hmid. apply at_end_line_end in Hnl.
    assert (Hm : exists m',
               match_here
                 (literal lead ++ [Star AnyChar] ++ literal [UNDERSCORE]
                  ++ literal (str_nat i) ++ literal (DOT :: ext)
                  ++ [EndAnchor])
                 (lead ++ mid ++ [UNDERSCORE] ++ str_nat i ++ [DOT] ++ ext
                  ++ nl) (None, None) = Some m').
    { rewrite match_literal_app. cbn [app match_here].
      apply repeat_greedy_complete with (m' := (None, None)); [exact Hmid|].
      change (UNDERSCORE :: str_nat i ++ DOT :: ext ++ nl)
        with ([UNDERSCORE] ++ str_nat i ++ (DOT :: ext) ++ nl).
      rewrite !match_literal_app. cbn [match_here]. now rewrite Hnl. }
    destruct Hm as (m' & Hm).
    destruct (search_complete _ pre _ _ Hm) as (m'' & ->). reflexivity.
Qed.

(** A match of the key pattern starts at the underscore before two
    numeric tokens, and its group is the first of them. *)
Lemma key_match_inv (suf : str) (m' : marks) :
  match_here (key_pattern_for ext) suf (None, None) = Some m' ->
  exists a b nl,
    suf = [UNDERSCORE] ++ a ++ [UNDERSCORE] ++ b ++ [DOT] ++ ext ++ nl /\
    number a /\ number b /\ line_end nl /\ group1 m' = Some a.
Proof.
  unfold key_pattern_for. cbn [app match_here cls_match fst snd].
  destruct suf as [|c0 s1]; [discriminate|].
  destruct (c0 =? UNDERSCORE) eqn:H0; [|discriminate].
  apply N.eqb_eq in H0. subst c0.
  destruct s1 as [|d s2] eqn:Hs1; [discriminate|].
  destruct (is_decimal d) eqn:Hd; [|discriminate].
  intros H. apply repeat_greedy_inv in H as (p & s3 & -> & Hp & H).
  cbn [match_here cls_match fst snd] in H.
  destruct s3 as [|c3 s4] eqn:Hs3; [discriminate|].
  destruct (c3 =? UNDERSCORE) eqn:H3; [|discriminate].
  apply N.eqb_eq in H3. subst c3.
  destruct s4 as [|d' s5]; [discriminate|].
  destruct (is_decimal d') eqn:Hd'; [|discriminate].
  apply repeat_greedy_inv in H as (p' & s6 & -> & Hp' & H).
  apply match_literal_inv in H as (nl & -> & H).
  cbn [match_here] in H.
  destruct (at_end nl) eqn:Hnl; [|discriminate].
  injection H as <-.
  exists (d :: p), (d' :: p'), nl.
  split; [reflexivity|].
  split; [split; [discriminate|]|].
  { cbn [forallb cls_match] in *. now rewrite Hd. }
  split; [split; [discriminate|]|].
  { cbn [forallb cls_match] in *. now rewrite Hd'. }
  split; [now apply at_end_line_end|].
  unfold group1. f_equal. apply (firstn_group (d :: p)).
Qed.

Lemma key_match_complete (a b nl : str) :
  number a -> number b -> line_end nl ->
  exists m',
    match_here (key_pattern_for ext)
      ([UNDERSCORE] ++ a ++ [UNDERSCORE] ++ b ++ [DOT] ++ ext ++ nl)
      (None, None) = Some m'.
Proof.
  intros [Ha0 Ha] [Hb0 Hb] Hnl. apply at_end_line_end in Hnl.
  destruct a as [|d p]; [congruence|]. destruct b as [|d' p']; [congruence|].
  cbn [forallb] in Ha, Hb.
  apply andb_true_iff in Ha as [Hd Hp]. apply andb_true_iff in Hb as [Hd' Hp'].
  unfold key_pattern_for. cbn [app match_here cls_match fst snd].
  rewrite N.eqb_refl, Hd.
  assert (Hin : exists m',
             repeat_greedy Digit
               (match_here (literal (DOT :: ext) ++ [EndAnchor]))
               (p' ++ (DOT :: ext) ++ nl)
               (Some (d :: p ++ UNDERSCORE :: d' :: p' ++ DOT :: ext ++ nl),
                Some (UNDERSCORE :: d' :: p' ++ DOT :: ext ++ nl))
             = Some m').
  { eapply repeat_greedy_complete; [exact Hp'|].
    rewrite match_literal_app. cbn [match_here]. now rewrite Hnl. }
  destruct Hin as (m' & Hin).
  eapply repeat_greedy_complete; [exact Hp|].
  cbn [match_here cls_match fst snd]. rewrite N.eqb_refl, Hd'. exact Hin.
Qed.

(** The sort key of a name is the number of the first of the two tokens
    it ends with; a name that does not end with two tokens has no key,
    and asking for it raises [AttributeError]. *)
Lemma sort_key_tokens (f a b : str) :
  ends_with_tokens ext f a b ->
  sort_key (key_pattern_for ext) f = Ok (int_of_decimal a).
Proof.
  intros Ht. pose proof Ht as (pre & nl & Hf & Ha & Hb & Hnl).
  destruct (key_match_complete a b nl Ha Hb Hnl) as (m0 & Hm0).
  destruct (search_complete _ pre _ _ Hm0) as (m1 & Hs).
  unfold sort_key. rewrite Hf, Hs.
  apply search_inv in Hs as (pre' & suf & Heq & Hm).
  apply key_match_inv in Hm as (a' & b' & nl' & -> & Ha' & Hb' & Hnl' & Hg).
  rewrite Hg.
  assert (Ht' : ends_with_tokens ext f a' b').
  { exists pre', nl'. rewrite Hf, Heq. auto. }
  destruct (ends_with_tokens_unique f a b a' b' Ht Ht') as [-> _].
  reflexivity.
Qed.

Lemma sort_key_inv (f : str) (k : N) :
  sort_key (key_pattern_for ext) f = Ok k ->
  exists a b, ends_with_tokens ext f a b /\ k = int_of_decimal a.
Proof.
  unfold sort_key.
  destruct (search _ f) as [m'|] eqn:Hs; [|discriminate].
  apply search_inv in Hs as (pre & suf & -> & Hm).
  apply key_match_inv in Hm as (a & b & nl & -> & Ha & Hb & Hnl & Hg).
  rewrite Hg. intros H. injection H as <-.
  exists a, b. split; [|reflexivity]. exists pre, nl. auto.
Qed.

Lemma sort_key_raise (f : str) (e : exn) :
  sort_key (key_pattern_for ext) f = Raise e ->
  e = AttributeError /\ ~ exists a b, ends_with_tokens ext f a b.
Proof.
  intros H. split.
  - unfold sort_key in H.
    destruct (search _ f) as [m'|] eqn:Hs; [|congruence].
    apply search_inv in Hs as (pre & suf & -> & Hm).
    apply key_match_inv in Hm as (a & b & nl & _ & _ & _ & _ & Hg).
    rewrite Hg in H. discriminate.
  - intros (a & b & Ht). rewrite (sort_key_tokens f a b Ht) in H.
    discriminate.
Qed.

End Extension.

End Names.

(* ================================================================== *)
(** * Sorting by a key *)
(* ================================================================== *)

Section Sorting.

Import Collector SortSpec.
Local Open Scope N_scope.

Context {A B : Type}.

Lemma mapM_inv (f : A -> result B) (l : list A) (l' : list B) :
  mapM f l = Ok l' -> Forall2 (fun x y => f x = Ok y) l l'.
Proof.
  revert l'. induction l as [|x l IH]; simpl; intros l' H.
  - injection H as <-. constructor.
  - destruct (f x) as [y|e] eqn:Hx; simpl in H; [|discriminate].
    destruct (mapM f l) as [ys|e]; simpl in H; [|discriminate].
    injection H as <-. constructor; auto.
Qed.

Lemma mapM_total (f : A -> result B) (l : list A) :
  (forall x, In x l -> exists y, f x = Ok y) -> exists l', mapM f l = Ok l'.
Proof.
  induction l as [|x l IH]; simpl; intros H.
  - now exists [].
  - destruct (H x (or_introl eq_refl)) as (y & ->).
    destruct IH as (ys & ->); [intros; apply H; now right|].
    now exists (y :: ys).
Qed.

Lemma mapM_raise (f : A -> result B) (l : list A) (e : exn) :
  mapM f l = Raise e -> exists x, In x l /\ f x = Raise e.
Proof.
  induction l as [|x l IH]; simpl; [discriminate|].
  destruct (f x) as [y|e'] eqn:Hx; simpl.
  - destruct (mapM f l) as [ys|e'']; simpl; [discriminate|].
    intros H. injection H as ->.
    destruct (IH eq_refl) as (x' & Hin & Hx'). exists x'. auto.
  - intros H. injection H as ->. exists x. auto.
Qed.

Lemma insert_by_key_perm (x : N * A) (l : list (N * A)) :
  Permutation (insert_by_key x l) (x :: l).
Proof.
  induction l as [|y l IH]; simpl; [reflexivity|].
  destruct (fst y <? fst x); [|reflexivity].
  rewrite IH. apply perm_swap.
Qed.

Lemma stable_sort_perm (l : list (N * A)) : Permutation (stable_sort l) l.
Proof.
  induction l as [|x l IH]; simpl; [reflexivity|].
  rewrite insert_by_key_perm. now constructor.
Qed.

Lemma insert_by_key_sorted (x : N * A) (l : list (N * A)) :
  StronglySorted key_le l -> StronglySorted key_le (insert_by_key x l).
Proof.
  induction 1 as [|y l Hs IH Hy]; simpl.
  - repeat constructor.
  - destruct (fst y <? fst x) eqn:Hlt.
    + constructor; [exact IH|].
      apply N.ltb_lt in Hlt.
      rewrite Forall_forall. intros z Hz.
      apply (Permutation_in _ (insert_by_key_perm x l)) in Hz.
      destruct Hz as [<- | Hz]; [unfold key_le; lia|].
      rewrite Forall_forall in Hy. now apply Hy.
    + apply N.ltb_ge in Hlt.
      constructor; [now constructor|].
      constructor; [exact Hlt|].
      rewrite Forall_forall in *. intros z Hz. specialize (Hy z Hz).
      unfold key_le in *. lia.
Qed.

Lemma stable_sort_sorted (l : list (N * A)) :
  StronglySorted key_le (stable_sort l).
Proof.
  induction l as [|x l IH]; simpl; [constructor|].
  now apply insert_by_key_sorted.
Qed.

(** Elements of equal key keep their order. *)
Lemma insert_by_key_stable (k : N) (x : N * A) (l : list (N * A)) :
  filter (fun y => fst y =? k) (insert_by_key x l)
  = filter (fun y => fst y =? k) (x :: l).
Proof.
  induction l as [|y l IH]; [reflexivity|].
  cbn [insert_by_key]. destruct (fst y <? fst x) eqn:Hlt; [|reflexivity].
  apply N.ltb_lt in Hlt.
  cbn [filter] in *. rewrite IH.
  destruct (fst x =? k) eqn:Hx; [|reflexivity].
  apply N.eqb_eq in Hx.
  destruct (fst y =? k) eqn:Hy; [|reflexivity].
  apply N.eqb_eq in Hy. lia.
Qed.

Lemma stable_sort_stable (k : N) (l : list (N * A)) :
  filter (fun y => fst y =? k) (stable_sort l)
  = filter (fun y => fst y =? k) l.
Proof.
  induction l as [|x l IH]; [reflexivity|].
  cbn [stable_sort fold_right]. rewrite insert_by_key_stable.
  cbn [filter]. fold (stable_sort l). now rewrite IH.
Qed.

Lemma sorted_keys_strongly (l : list (N * A)) :
  StronglySorted key_le l -> StronglySorted N.le (map fst l).
Proof.
  induction 1 as [|x l Hs IH Hx]; simpl; constructor; auto.
  rewrite Forall_forall in *. intros k Hk.
  apply in_map_iff in Hk as (y & <- & Hy). now apply Hx.
Qed.

End Sorting.

Section SortedCall.

Import Collector SortSpec.
Local Open Scope N_scope.

Context {A : Type}.
Variable key : A -> result N.

Lemma keyed_list (l : list A) (keyed : list (N * A)) :
  mapM (fun x => bind (key x) (fun k => Ok (k, x))) l = Ok keyed ->
  map snd keyed = l /\ Forall (keyed_ok key) keyed.
Proof.
  intros H. apply mapM_inv in H.
  induction H as [|x kx l keyed Hx _ [IH1 IH2]]; [split; constructor|].
  destruct (key x) as [k|e] eqn:Hk; simpl in Hx; [|discriminate].
  injection Hx as <-. simpl. split; [now rewrite IH1|].
  constructor; [exact Hk | exact IH2].
Qed.

Lemma filter_keyed (k : N) (keyed : list (N * A)) :
  Forall (keyed_ok key) keyed ->
  filter (has_key key k) (map snd keyed)
  = map snd (filter (fun y => fst y =? k) keyed).
Proof.
  induction 1 as [|kx keyed Hkx _ IH]; [reflexivity|].
  cbn [map filter]. unfold has_key at 1. unfold keyed_ok in Hkx. rewrite Hkx.
  destruct (fst kx =? k); cbn [map]; now rewrite IH.
Qed.

(** A call of [sorted] that returns gives a permutation of its argument,
    in non-decreasing order of the keys, elements of equal key in their
    original order. *)
Lemma sorted_spec (l result : list A) :
  sorted key l = Ok result ->
  exists keys,
    Forall2 (fun x k => key x = Ok k) result keys /\
    StronglySorted N.le keys /\
    Permutation result l /\
    forall k, filter (has_key key k) result = filter (has_key key k) l.
Proof.
  unfold sorted. intros H.
  destruct (mapM _ l) as [keyed|e] eqn:Hm; simpl in H; [|discriminate].
  injection H as <-. apply keyed_list in Hm as [Hl Hok].
  assert (Hok' : Forall (keyed_ok key) (stable_sort keyed)).
  { rewrite Forall_forall in *. intros kx Hin. apply Hok.
    now apply (Permutation_in _ (stable_sort_perm keyed)). }
  exists (map fst (stable_sort keyed)). repeat split.
  - clear - Hok'. induction Hok' as [|kx s Hkx _ IH]; simpl; constructor; auto.
  - apply sorted_keys_strongly, stable_sort_sorted.
  - rewrite <- Hl. apply Permutation_map, stable_sort_perm.
  - intros k. rewrite <- Hl, !filter_keyed by assumption.
    now rewrite stable_sort_stable.
Qed.

Lemma sorted_total (l : list A) :
  (forall x, In x l -> exists k, key x = Ok k) ->
  exists result, sorted key l = Ok result.
Proof.
  intros H. unfold sorted.
  destruct (mapM_total (fun x => bind (key x) (fun k => Ok (k, x))) l)
    as (keyed & ->).
  - intros x Hin. destruct (H x Hin) as (k & ->). now exists (k, x).
  - simpl. eauto.
Qed.

Lemma sorted_raise (l : list A) (e : exn) :
  sorted key l = Raise e -> exists x, In x l /\ key x = Raise e.
Proof.
  unfold sorted. intros H.
  destruct (mapM _ l) as [keyed|e'] eqn:Hm; simpl in H; [discriminate|].
  injection H as ->. apply mapM_raise in Hm as (x & Hin & Hx).
  exists x. split; [exact Hin|].
  destruct (key x); simpl in Hx; congruence.
Qed.

End SortedCall.

(* ================================================================== *)
(** * Properties of the artifact matcher *)
(* ================================================================== *)

Section ArtifactMatcher.

Import Re Collector SortSpec ArtifactNames CollectorSample.
Local Open Scope N_scope.

Lemma Forall2_in_impl {A B} (P Q : A -> B -> Prop) (l : list A)
  (l' : list B) :
  Forall2 P l l' -> (forall x y, In x l -> P x y -> Q x y) -> Forall2 Q l l'.
Proof.
  induction 1 as [|x y l l' Hxy _ IH]; intros H; constructor.
  - apply H; [now left | exact Hxy].
  - apply IH. intros x' y' Hin. apply H. now right.
Qed.

Section Kind.

Variables lead ext : str.
Hypothesis ext_one_line : ~ In LF ext.

Lemma matching_files_total (i : nat) (pool : list str) :
  (forall f, In f pool -> names_index lead ext i f ->
             exists a b, ends_with_tokens ext f a b) ->
  exists result,
    matching_files (pattern_for lead ext i) (key_pattern_for ext) pool
    = Ok result.
Proof.
  intros H. apply sorted_total. intros f Hin.
  apply filter_In in Hin as [Hin Hsel].
  apply selected_names_index in Hsel.
  destruct (H f Hin Hsel) as (a & b & Ht).
  exists (int_of_decimal a). now apply sort_key_tokens with (b := b).
Qed.

Lemma matching_files_raise (i : nat) (pool : list str) (e : exn) :
  matching_files (pattern_for lead ext i) (key_pattern_for ext) pool
  = Raise e ->
  e = AttributeError /\
  exists f, In f pool /\ names_index lead ext i f /\
            ~ exists a b, ends_with_tokens ext f a b.
Proof.
  intros H. apply sorted_raise in H as (f & Hin & Hf).
  apply filter_In in Hin as [Hin Hsel].
  apply selected_names_index in Hsel.
  apply sort_key_raise in Hf as [-> Hno]; [|exact ext_one_line].
  split; [reflexivity|]. exists f. auto.
Qed.

Lemma matching_files_spec (i : nat) (pool result : list str) :
  matching_files (pattern_for lead ext i) (key_pattern_for ext) pool
  = Ok result ->
  (forall f, In f result <-> In f pool /\ names_index lead ext i f) /\
  Permutation result (filter (selected (pattern_for lead ext i)) pool) /\
  (exists keys,
     Forall2 (entry_key ext i) result keys /\ StronglySorted N.le keys) /\
  (forall k,
     filter (has_key (sort_key (key_pattern_for ext)) k) result
     = filter (has_key (sort_key (key_pattern_for ext)) k)
         (filter (selected (pattern_for lead ext i)) pool)).
Proof.
  intros H. apply sorted_spec in H as (keys & Hk & Hs & Hp & Hst).
  assert (Hin : forall f,
             In f result <-> In f pool /\ names_index lead ext i f).
  { intros f. rewrite <- selected_names_index, <- filter_In.
    split; apply Permutation_in; [exact Hp | now symmetry]. }
  split; [exact Hin|]. split; [exact Hp|]. split; [|exact Hst].
  exists keys. split; [|exact Hs].
  apply Forall2_in_impl with (1 := Hk). intros f k Hf Hkey.
  apply Hin in Hf as [_ Hidx].
  apply sort_key_inv in Hkey as (a & b & Ht & ->).
  exists a. split; [|reflexivity].
  now rewrite <- (names_index_last_token ext ext_one_line lead i f a b).
Qed.

End Kind.

Lemma pdb_one_line : ~ In LF (str_of "pdb").
Proof. simpl. intuition discriminate. Qed.

Lemma csv_one_line : ~ In LF (str_of "csv").
Proof. simpl. intuition discriminate. Qed.

Lemma folded_7_3_tokens :
  ends_with_tokens (str_of "pdb") folded_7_3 (str_of "7") (str_of "3").
Proof.
  exists (str_of "F007/folded"), [].
  repeat split; try reflexivity; try discriminate. now left.
Qed.

(** C7, as stated, fails: the index of the sequence file is the last
    token of a selected name and the ordering key is the token before it.
    For index 3 the matcher selects [folded_7_3.pdb], with key 7, and not
    [folded_3_7.pdb], which is what [_<fileIndex>_<entryIndex>] names; nor
    does it select [model_7_3.pdb], a name of the form [*_3.pdb] that
    lacks the lead [folded_]. *)
Lemma matcher_index_is_last_token :
  matching_files (pattern_pdb 3) key_pattern_pdb
    [folded_7_3; folded_3_7; model_7_3]
  = Ok [folded_7_3] /\
  sort_key key_pattern_pdb folded_7_3 = Ok 7 /\
  ends_with_tokens (str_of "pdb") folded_3_7 (str_nat 3) (str_of "7") /\
  ~ (exists entry,
       ends_with_tokens (str_of "pdb") folded_7_3 (str_nat 3) entry) /\
  ends_with_tokens (str_of "pdb") model_7_3 (str_of "7") (str_nat 3).
Proof.
  split; [reflexivity|]. split; [reflexivity|]. split; [|split].
  - exists (str_of "F003/folded"), [].
    repeat split; try reflexivity; try discriminate. now left.
  - intros (entry & H).
    destruct (ends_with_tokens_unique (str_of "pdb") pdb_one_line
                folded_7_3 _ _ _ _ H folded_7_3_tokens) as [H3 _].
    discriminate.
  - exists (str_of "F007/model"), [].
    repeat split; try reflexivity; try discriminate. now left.
Qed.

(** C7, amended: for every sequence-file index [i], the matcher selects
    exactly the candidate structure files whose path holds [folded_] and
    then ends with [_<i>.pdb], the index being the last numeric token, and
    orders them (stably) by the number of the numeric token just before
    it, the per-entry identifier: the suffix convention is
    [_<entryIndex>_<fileIndex>.pdb].  This is what the call returns when
    every selected path has that entry token. *)
Theorem matching_files_selects_and_orders (i : nat) (pool : list str) :
  (forall f, In f pool -> names_index (str_of "folded_") (str_of "pdb") i f ->
             exists a b, ends_with_tokens (str_of "pdb") f a b) ->
  exists result keys,
    matching_files (pattern_pdb i) key_pattern_pdb pool = Ok result /\
    (forall f, In f result <->
               In f pool /\ names_index (str_of "folded_") (str_of "pdb") i f) /\
    Permutation result (filter (selected (pattern_pdb i)) pool) /\
    Forall2 (entry_key (str_of "pdb") i) result keys /\
    StronglySorted N.le keys /\
    (forall k,
       filter (has_key (sort_key key_pattern_pdb) k) result
       = filter (has_key (sort_key key_pattern_pdb) k)
           (filter (selected (pattern_pdb i)) pool)).
Proof.
  intros H.
  destruct (matching_files_total (str_of "folded_") (str_of "pdb")
              pdb_one_line i pool H) as (result & Hr).
  destruct (matching_files_spec (str_of "folded_") (str_of "pdb")
              pdb_one_line i pool result Hr)
    as (Hin & Hp & (keys & Hk & Hs) & Hst).
  exists result, keys. repeat split; auto; apply Hin; auto.
Qed.

Lemma sample_pdb_files_tokens (f : str) :
  In f sample_pdb_files ->
  exists a b, ends_with_tokens (str_of "pdb") f a b.
Proof.
  intros [<- | [<- | [<- | []]]].
  - exists (str_of "1"), (str_of "0"), (str_of "F000/folded"), [].
    repeat split; try reflexivity; try discriminate. now left.
  - exists (str_of "0"), (str_of "0"), (str_of "F000/folded"), [].
    repeat split; try reflexivity; try discriminate. now left.
  - exists (str_of "0"), (str_of "1"), (str_of "F001/folded"), [].
    repeat split; try reflexivity; try discriminate. now left.
Qed.

Lemma matching_files_selects_and_orders_witness :
  (forall f, In f sample_pdb_files ->
             names_index (str_of "folded_") (str_of "pdb") 0 f ->
             exists a b, ends_with_tokens (str_of "pdb") f a b) /\
  matching_files (pattern_pdb 0) key_pattern_pdb sample_pdb_files
  = Ok [str_of "F000/folded_0_0.pdb"; str_of "F000/folded_1_0.pdb"] /\
  exists result keys,
    matching_files (pattern_pdb 0) key_pattern_pdb sample_pdb_files
    = Ok result /\
    (forall f, In f result <->
               In f sample_pdb_files /\
               names_index (str_of "folded_") (str_of "pdb") 0 f) /\
    Permutation result (filter (selected (pattern_pdb 0)) sample_pdb_files) /\
    Forall2 (entry_key (str_of "pdb") 0) result keys /\
    StronglySorted N.le keys /\
    (forall k,
       filter (has_key (sort_key key_pattern_pdb) k) result
       = filter (has_key (sort_key key_pattern_pdb) k)
           (filter (selected (pattern_pdb 0)) sample_pdb_files)).
Proof.
  split; [intros f Hin _; exact (sample_pdb_files_tokens f Hin)|].
  split; [reflexivity|].
  apply (matching_files_selects_and_orders 0 sample_pdb_files).
  intros f Hin _. exact (sample_pdb_files_tokens f Hin).
Defined.

(** C10: the sort of the matcher returns only when every candidate name
    accepted by the selection pattern (ending in [_<i>.pdb], or [_<i>.csv])
    also ends with two underscore-separated numeric tokens; otherwise the
    key extraction raises [AttributeError].  [folded_abc_3.pdb] is selected
    for index 3, has no numeric token before its final [_3], and makes the
    processing of the sequence file raise instead of recording an absent
    artifact. *)
Theorem sort_key_needs_two_tokens :
  (forall i pool,
     (exists result,
        matching_files (pattern_pdb i) key_pattern_pdb pool = Ok result) <->
     (forall f, In f pool ->
                names_index (str_of "folded_") (str_of "pdb") i f ->
                exists a b, ends_with_tokens (str_of "pdb") f a b)) /\
  (forall i pool,
     (exists result,
        matching_files (pattern_csv i) key_pattern_csv pool = Ok result) <->
     (forall f, In f pool ->
                names_index (str_of "tmp_") (str_of "csv") i f ->
                exists a b, ends_with_tokens (str_of "csv") f a b)) /\
  (forall i pool e,
     matching_files (pattern_pdb i) key_pattern_pdb pool = Raise e \/
     matching_files (pattern_csv i) key_pattern_csv pool = Raise e ->
     e = AttributeError) /\
  names_index (str_of "folded_") (str_of "pdb") 3 folded_abc_3 /\
  ~ (exists a b, ends_with_tokens (str_of "pdb") folded_abc_3 a b) /\
  sort_key key_pattern_pdb folded_abc_3 = Raise AttributeError /\
  (forall fs read_csv mps_load_fasta_entries pdb_files csv_files faa_files
          gathered faa_file entry entries descriptions,
     mps_load_fasta_entries faa_file = Ok (entry :: entries, descriptions) ->
     In folded_abc_3 pdb_files ->
     _process_faa_item fs read_csv mps_load_fasta_entries
       pdb_files csv_files faa_files gathered (3%nat, faa_file)
     = ([LoadFasta faa_file], Raise AttributeError)).
Proof.
  assert (Hpdb : forall i pool,
     (exists result,
        matching_files (pattern_pdb i) key_pattern_pdb pool = Ok result) <->
     (forall f, In f pool ->
                names_index (str_of "folded_") (str_of "pdb") i f ->
                exists a b, ends_with_tokens (str_of "pdb") f a b)).
  { intros i pool. split.
    - intros (result & Hr) f Hin Hidx.
      destruct (matching_files_spec (str_of "folded_") (str_of "pdb")
                  pdb_one_line i pool result Hr)
        as (Hmem & _ & (keys & Hk & _) & _).
      assert (Hf : In f result) by (apply Hmem; auto).
      clear - Hk Hf. induction Hk as [|x k l ks (a & Hx & _) _ IH].
      + contradiction.
      + destruct Hf as [<- | Hf]; [now exists a, (str_nat i) | auto].
    - apply (matching_files_total (str_of "folded_") (str_of "pdb")
               pdb_one_line). }
  assert (Hcsv : forall i pool,
     (exists result,
        matching_files (pattern_csv i) key_pattern_csv pool = Ok result) <->
     (forall f, In f pool ->
                names_index (str_of "tmp_") (str_of "csv") i f ->
                exists a b, ends_with_tokens (str_of "csv") f a b)).
  { intros i pool. split.
    - intros (result & Hr) f Hin Hidx.
      destruct (matching_files_spec (str_of "tmp_") (str_of "csv")
                  csv_one_line i pool result Hr)
        as (Hmem & _ & (keys & Hk & _) & _).
      assert (Hf : In f result) by (apply Hmem; auto).
      clear - Hk Hf. induction Hk as [|x k l ks (a & Hx & _) _ IH].
      + contradiction.
      + destruct Hf as [<- | Hf]; [now exists a, (str_nat i) | auto].
    - apply (matching_files_total (str_of "tmp_") (str_of "csv")
               csv_one_line). }
  assert (Hexn : forall i pool e,
     matching_files (pattern_pdb i) key_pattern_pdb pool = Raise e \/
     matching_files (pattern_csv i) key_pattern_csv pool = Raise e ->
     e = AttributeError).
  { intros i pool e [H | H].
    - now apply (matching_files_raise (str_of "folded_") (str_of "pdb")
                   pdb_one_line) in H.
    - now apply (matching_files_raise (str_of "tmp_") (str_of "csv")
                   csv_one_line) in H. }
  assert (Hidx : names_index (str_of "folded_") (str_of "pdb") 3
                   folded_abc_3).
  { apply (selected_names_index (str_of "pdb")). reflexivity. }
  assert (Hno : ~ (exists a b,
                     ends_with_tokens (str_of "pdb") folded_abc_3 a b)).
  { apply (sort_key_raise (str_of "pdb") pdb_one_line folded_abc_3
             AttributeError). reflexivity. }
  split; [exact Hpdb|]. split; [exact Hcsv|]. split; [exact Hexn|].
  split; [exact Hidx|]. split; [exact Hno|]. split; [reflexivity|].
  intros fs read_csv load pdb_files csv_files faa_files gathered faa_file
         entry entries descriptions Hload Hin.
  destruct (matching_files (pattern_pdb 3) key_pattern_pdb pdb_files)
    as [result|e] eqn:Hm.
  - exfalso. apply Hno.
    apply (proj1 (Hpdb 3%nat pdb_files)) with (f := folded_abc_3); eauto.
  - assert (e = AttributeError) by (apply (Hexn 3%nat pdb_files); now left).
    subst e. unfold _process_faa_item.
    cbn [io_bind emit lift app]. rewrite Hload.
    cbn [io_bind emit lift app]. rewrite Hm. reflexivity.
Qed.

Lemma sort_key_needs_two_tokens_witness :
  sample_load sample_faa
  = Ok ([str_of "MKV"; str_of "LLT"], [str_of "a"; str_of "b"]) /\
  In folded_abc_3 [folded_abc_3] /\
  _process_faa_item sample_world sample_read_csv sample_load
    [folded_abc_3] [] [sample_faa] in_turn (3%nat, sample_faa)
  = ([LoadFasta sample_faa], Raise AttributeError) /\
  (forall e,
     matching_files (pattern_pdb 3) key_pattern_pdb [folded_abc_3] = Raise e ->
     e = AttributeError) /\
  exists result,
    matching_files (pattern_pdb 0) key_pattern_pdb sample_pdb_files
    = Ok result.
Proof.
  pose proof sort_key_needs_two_tokens
    as (Hpdb & _ & Hexn & _ & _ & _ & Hitem).
  split; [reflexivity|]. split; [now left|]. split; [|split].
  - apply (Hitem sample_world sample_read_csv sample_load [folded_abc_3] []
             [sample_faa] in_turn sample_faa (str_of "MKV") [str_of "LLT"]
             [str_of "a"; str_of "b"]); [reflexivity | now left].
  - intros e He. apply (Hexn 3%nat [folded_abc_3] e). now left.
  - apply (proj2 (Hpdb 0%nat sample_pdb_files)).
    intros f Hin _. exact (sample_pdb_files_tokens f Hin).
Defined.

End ArtifactMatcher.

(* ================================================================== *)
(** * Stripping and line splitting *)
(* ================================================================== *)

Section Strings.

Import FastaText.
Local Open Scope N_scope.

Lemma lstrip_split (s : str) :
  exists w, s = w ++ lstrip s /\ forallb is_space w = true.
Proof.
  induction s as [|c s (w & Hs & Hw)]; simpl.
  - now exists [].
  - destruct (is_space c) eqn:Hc.
    + exists (c :: w). simpl. rewrite Hc, Hw. split; [congruence | reflexivity].
    + now exists [].
Qed.

Lemma lstrip_head (s : str) (c : char) (r : str) :
  lstrip s = c :: r -> is_space c = false.
Proof.
  induction s as [|x s IH]; simpl; [discriminate|].
  destruct (is_space x) eqn:Hx; [exact IH|].
  intros H. injection H as <- _. exact Hx.
Qed.

Lemma lstrip_keep (c : char) (s : str) :
  is_space c = false -> lstrip (c :: s) = c :: s.
Proof. intros H. simpl. now rewrite H. Qed.

Lemma lstrip_idem (s : str) : lstrip (lstrip s) = lstrip s.
Proof.
  destruct (lstrip s) as [|c r] eqn:H; [reflexivity|].
  apply lstrip_keep. exact (lstrip_head s c r H).
Qed.

Lemma lstrip_all_space (w s : str) :
  forallb is_space w = true -> lstrip (w ++ s) = lstrip s.
Proof.
  induction w as [|c w IH]; simpl; [reflexivity|].
  intros H. apply andb_true_iff in H as [-> H]. auto.
Qed.

(** Stripping on the left keeps what follows a character it keeps. *)
Lemma lstrip_app_keep (s t : str) :
  lstrip s <> [] -> lstrip (s ++ t) = lstrip s ++ t.
Proof.
  induction s as [|c s IH]; simpl; [congruence|].
  destruct (is_space c); [exact IH | reflexivity].
Qed.

Lemma rstrip_snoc_space (s : str) (c : char) :
  is_space c = true -> rstrip (s ++ [c]) = rstrip s.
Proof.
  intros H. unfold rstrip. rewrite rev_app_distr. simpl. now rewrite H.
Qed.

Lemma rstrip_snoc_keep (s : str) (c : char) :
  is_space c = false -> rstrip (s ++ [c]) = s ++ [c].
Proof.
  intros H. unfold rstrip. rewrite rev_app_distr. simpl. rewrite H.
  simpl. now rewrite rev_involutive.
Qed.

Lemma rstrip_split (s : str) :
  exists w, s = rstrip s ++ w /\ forallb is_space w = true.
Proof.
  unfold rstrip. destruct (lstrip_split (rev s)) as (w & Hs & Hw).
  exists (rev w). split.
  - rewrite <- rev_app_distr, <- Hs. now rewrite rev_involutive.
  - rewrite forallb_forall in *. intros x Hx. apply Hw. now apply in_rev.
Qed.

Lemma rstrip_nil : rstrip [] = [].
Proof. reflexivity. Qed.

(** A stripped string is a part of the string. *)
Lemma strip_incl (s : str) (x : char) : In x (strip s) -> In x s.
Proof.
  unfold strip. intros H.
  destruct (rstrip_split (lstrip s)) as (w & Hr & _).
  destruct (lstrip_split s) as (w' & Hl & _).
  rewrite Hl. apply in_or_app. right.
  rewrite Hr. apply in_or_app. now left.
Qed.

(** A string with no whitespace at either end is left as it is. *)
Lemma strip_clean (s : str) :
  indented s = false -> indented (rev s) = false -> strip s = s.
Proof.
  unfold strip. intros Hh Hl.
  assert (H1 : lstrip s = s).
  { destruct s as [|c s]; [reflexivity|]. now apply lstrip_keep. }
  rewrite H1. unfold rstrip.
  assert (H2 : lstrip (rev s) = rev s).
  { destruct (rev s) as [|c r]; [reflexivity|]. now apply lstrip_keep. }
  rewrite H2. apply rev_involutive.
Qed.

Lemma strip_snoc_space (s : str) (c : char) :
  is_space c = true -> strip (s ++ [c]) = strip s.
Proof.
  intros Hc. unfold strip.
  destruct (lstrip s) as [|x r] eqn:Hs.
  - destruct (lstrip_split s) as (w & Hw & Hsp). rewrite Hs, app_nil_r in Hw.
    subst w. rewrite lstrip_all_space by exact Hsp.
    simpl. now rewrite Hc.
  - rewrite lstrip_app_keep by congruence. rewrite Hs.
    now apply rstrip_snoc_space.
Qed.

(** What stripping returns has no whitespace at either end. *)
Lemma strip_ends (s : str) :
  indented (strip s) = false /\ indented (rev (strip s)) = false.
Proof.
  unfold strip, rstrip. rewrite rev_involutive. split.
  - destruct (rstrip_split (lstrip s)) as (w & Hr & _). unfold rstrip in Hr.
    destruct (rev (lstrip (rev (lstrip s)))) as [|c r] eqn:E; [reflexivity|].
    simpl. destruct (lstrip s) as [|c' r'] eqn:Hl; [destruct r; discriminate|].
    simpl in Hr. injection Hr as <- _.
    exact (lstrip_head s c' r' Hl).
  - destruct (lstrip (rev (lstrip s))) as [|c r] eqn:E; [reflexivity|].
    simpl. exact (lstrip_head _ c r E).
Qed.

Lemma strip_idem (s : str) : strip (strip s) = strip s.
Proof.
  destruct (strip_ends s). now apply strip_clean.
Qed.

End Strings.

(* ================================================================== *)
(** * Lines of a text *)
(* ================================================================== *)

Section Lines.

Import RunFoldParallel FastaText TextLines.
Local Open Scope N_scope.

Lemma translate_no_cr (s : str) : forall b, ~ In CR (translate_newlines b s).
Proof.
  induction s as [|c s IH]; intros b; simpl; [tauto|].
  destruct (c =? CR) eqn:Hc.
  - simpl. intros [H | H]; [discriminate | now apply IH in H].
  - destruct (c =? LF) eqn:Hl.
    + destruct b; simpl; [apply IH|].
      intros [H | H]; [discriminate | now apply IH in H].
    + simpl. apply N.eqb_neq in Hc.
      intros [H | H]; [congruence | now apply IH in H].
Qed.

Lemma translate_id (s : str) :
  ~ In CR s -> translate_newlines false s = s.
Proof.
  induction s as [|c s IH]; simpl; [reflexivity|].
  intros H.
  assert (Hc : c <> CR) by (intros ->; apply H; now left).
  assert (Hs : ~ In CR s) by (intros Hs; apply H; now right).
  apply N.eqb_neq in Hc. rewrite Hc, (IH Hs).
  destruct (c =? LF) eqn:E; [|reflexivity].
  apply N.eqb_eq in E. now subst c.
Qed.

Lemma translate_app_lf (u v : str) : forall b,
  translate_newlines b (u ++ LF :: v)
  = translate_newlines b (u ++ [LF]) ++ translate_newlines false v.
Proof.
  induction u as [|c u IH]; intros b; simpl.
  - now destruct b.
  - destruct (c =? CR); [now rewrite IH|].
    destruct (c =? LF); [destruct b|]; now rewrite IH.
Qed.

Lemma translate_ends (u : str) : forall b,
  (translate_newlines b (u ++ [LF]) = [] /\ b = true /\ u = []) \/
  exists x, translate_newlines b (u ++ [LF]) = x ++ [LF].
Proof.
  induction u as [|c u IH]; intros b; simpl.
  - destruct b; [now left | right; now exists []].
  - right. destruct (c =? CR).
    + destruct (IH true) as [(-> & _) | (x & ->)];
        [now exists [] | now exists (LF :: x)].
    + destruct (c =? LF).
      * destruct b.
        -- destruct (IH false) as [(_ & H & _) | (x & ->)];
             [discriminate | now exists x].
        -- destruct (IH false) as [(_ & H & _) | (x & ->)];
             [discriminate | now exists (LF :: x)].
      * destruct (IH false) as [(_ & H & _) | (x & ->)];
          [discriminate | now exists (c :: x)].
Qed.

Lemma split_lines_app (x y : str) : forall cur,
  split_lines cur (x ++ LF :: y)
  = split_lines cur (x ++ [LF]) ++ split_lines [] y.
Proof.
  induction x as [|c x IH]; intros cur; simpl.
  - reflexivity.
  - destruct (c =? LF); now rewrite IH.
Qed.

(** The lines of two texts put together are the lines of the first, then
    the lines of the second, when the first ends with a newline. *)
Lemma file_lines_app (t1 t2 : str) :
  whole_lines t1 ->
  file_lines (t1 ++ t2) = file_lines t1 ++ file_lines t2.
Proof.
  unfold file_lines. intros [-> | (u & ->)]; [reflexivity|].
  rewrite <- app_assoc. cbn [app].
  rewrite translate_app_lf.
  destruct (translate_ends u false) as [(_ & H & _) | (x & ->)];
    [discriminate|].
  rewrite <- app_assoc. cbn [app]. apply split_lines_app.
Qed.

Lemma split_lines_body (b s : str) : forall cur,
  ~ In LF b -> split_lines cur (b ++ s) = split_lines (rev b ++ cur) s.
Proof.
  induction b as [|c b IH]; intros cur H; simpl; [reflexivity|].
  assert (Hc : c <> LF) by (simpl in H; tauto).
  apply N.eqb_neq in Hc. rewrite Hc, IH by (simpl in H; tauto).
  now rewrite <- app_assoc.
Qed.

Lemma split_lines_well_lined (s : str) : forall cur,
  ~ In CR s -> ~ In LF cur -> ~ In CR cur ->
  well_lined (split_lines cur s).
Proof.
  induction s as [|c s IH]; intros cur Hs Hl Hc; simpl.
  - destruct cur as [|x cur]; [constructor|].
    apply wl_last; rewrite <- ?in_rev; auto.
    intros H. apply (f_equal (@length char)) in H.
    rewrite length_rev in H. discriminate.
  - assert (Hs' : ~ In CR s) by (simpl in Hs; tauto).
    destruct (c =? LF) eqn:E.
    + apply N.eqb_eq in E. subst c.
      simpl. apply wl_cons; rewrite <- ?in_rev; auto.
    + apply N.eqb_neq in E. apply IH; simpl in *; [tauto | | ].
      * intros [H | H]; [congruence | tauto].
      * intros [H | H]; [|tauto]. apply Hs. now left.
Qed.

Lemma file_lines_well_lined (content : str) :
  well_lined (file_lines content).
Proof.
  apply split_lines_well_lined; [apply translate_no_cr | tauto | tauto].
Qed.

Lemma well_lined_no_cr (lines : list str) :
  well_lined lines -> ~ In CR (concat lines).
Proof.
  induction 1 as [|b Hb Hl Hc|b rest Hl Hc _ IH]; simpl.
  - tauto.
  - now rewrite app_nil_r.
  - rewrite !in_app_iff. simpl. intros [[H | [H | []]] | H];
      [tauto | discriminate | tauto].
Qed.

(** Lines written one after the other are read back as they are. *)
Lemma file_lines_concat (lines : list str) :
  well_lined lines -> file_lines (concat lines) = lines.
Proof.
  intros H. unfold file_lines.
  rewrite translate_id by now apply well_lined_no_cr.
  induction H as [|b Hb Hl Hc|b rest Hl Hc _ IH]; simpl.
  - reflexivity.
  - rewrite split_lines_body by assumption. simpl.
    rewrite app_nil_r, rev_involutive.
    destruct (rev b) eqn:E; [|reflexivity].
    apply (f_equal (@rev char)) in E. rewrite rev_involutive in E.
    simpl in E. contradiction.
  - rewrite <- app_assoc, split_lines_body by assumption. simpl.
    rewrite app_nil_r, rev_involutive. now rewrite IH.
Qed.

Lemma well_lined_filter (keep : str -> bool) (lines : list str) :
  well_lined lines -> well_lined (filter keep lines).
Proof.
  induction 1 as [|b Hb Hl Hc|b rest Hl Hc _ IH]; simpl.
  - constructor.
  - destruct (keep b); [now apply wl_last | constructor].
  - destruct (keep (b ++ [LF])); [now apply wl_cons | exact IH].
Qed.

(** No line break survives the stripping of a line. *)
Lemma well_lined_strip (lines : list str) (raw_line : str) :
  well_lined lines -> In raw_line lines ->
  ~ In LF (strip raw_line) /\ ~ In CR (strip raw_line).
Proof.
  induction 1 as [|b Hb Hl Hc|b rest Hl Hc _ IH]; simpl.
  - tauto.
  - intros [<- | []]. split; intros H; apply strip_incl in H; tauto.
  - intros [<- | H]; [|now apply IH].
    rewrite strip_snoc_space by reflexivity.
    split; intros H; apply strip_incl in H; tauto.
Qed.

End Lines.

(* ================================================================== *)
(** * More on the FASTA reader *)
(* ================================================================== *)

Section FastaReaderMore.

Import RunFoldParallel FastaText TextLines FastaSamples.
Local Open Scope N_scope.

Lemma load_fasta_entries_file (fs : filesystem) (p content : str) :
  fs p = Some (File content) ->
  load_fasta_entries fs p = Ok (read_entries (file_lines content)).
Proof. rewrite load_fasta_entries_eq. now intros ->. Qed.

Lemma records_no_header (pre rest : list str) :
  forallb (fun raw_line => negb (is_header_line raw_line)) pre = true ->
  records (pre ++ rest) = records rest.
Proof.
  induction pre as [|raw pre IH]; simpl; [reflexivity|].
  intros H. apply andb_true_iff in H as [Hh H].
  apply negb_true_iff in Hh. unfold is_header_line in Hh. rewrite Hh.
  destruct (skipped (strip raw)); auto.
Qed.

Lemma body_app (l1 l2 : list str) :
  body l2 = [] -> body (l1 ++ l2) = body l1.
Proof.
  intros H. induction l1 as [|raw l1 IH]; simpl; [exact H|].
  destruct (skipped (strip raw)); [exact IH|].
  destruct (is_header (strip raw)); [reflexivity | now rewrite IH].
Qed.

Lemma records_app (l1 l2 : list str) :
  body l2 = [] -> records (l1 ++ l2) = records l1 ++ records l2.
Proof.
  intros H. induction l1 as [|raw l1 IH]; simpl; [reflexivity|].
  destruct (skipped (strip raw)); [exact IH|].
  destruct (is_header (strip raw)); [|exact IH].
  simpl. now rewrite IH, body_app.
Qed.

Lemma body_significant (lines : list str) :
  body (filter significant lines) = body lines.
Proof.
  induction lines as [|raw lines IH]; simpl; [reflexivity|].
  unfold significant at 1.
  destruct (skipped (strip raw)) eqn:Hs; simpl; [exact IH|].
  rewrite Hs. destruct (is_header (strip raw)); [reflexivity | now rewrite IH].
Qed.

Lemma records_significant (lines : list str) :
  records (filter significant lines) = records lines.
Proof.
  induction lines as [|raw lines IH]; simpl; [reflexivity|].
  unfold significant at 1.
  destruct (skipped (strip raw)) eqn:Hs; simpl; [exact IH|].
  rewrite Hs. destruct (is_header (strip raw)); [|exact IH].
  now rewrite IH, body_significant.
Qed.

Lemma read_entries_same (l1 l2 : list str) :
  records l1 = records l2 -> read_entries l1 = read_entries l2.
Proof. intros H. now rewrite !read_entries_records, H. Qed.

(** The first line of a text that starts with a character other than a
    newline starts with that character. *)
Lemma split_lines_first (x : str) : forall cur c,
  exists l ls, split_lines (cur ++ [c]) x = (c :: l) :: ls.
Proof.
  induction x as [|y x IH]; intros cur c; simpl.
  - destruct (cur ++ [c]) eqn:E; [now destruct cur|].
    rewrite <- E, rev_app_distr. simpl. eauto.
  - destruct (y =? LF).
    + rewrite rev_app_distr. simpl. eauto.
    + apply (IH (y :: cur) c).
Qed.

Lemma file_lines_first (c : char) (text : str) :
  c <> CR -> c <> LF ->
  exists l ls, file_lines (c :: text) = (c :: l) :: ls.
Proof.
  intros H1 H2. apply N.eqb_neq in H1, H2.
  unfold file_lines. cbn [translate_newlines]. rewrite H1, H2.
  cbn [split_lines]. rewrite H2.
  exact (split_lines_first _ [] c).
Qed.

Lemma body_header_first (text : str) :
  startswith text (str_of ">") = true -> body (file_lines text) = [].
Proof.
  change (str_of ">") with [62]. destruct text as [|c text]; [discriminate|].
  cbn [startswith]. rewrite andb_true_r. intros H.
  apply N.eqb_eq in H. subst c.
  destruct (file_lines_first 62 text) as (l & ls & ->); [discriminate ..|].
  cbn [body]. cbv zeta.
  match goal with
  | |- context [skipped ?x] =>
      assert (Hh : is_header x = true)
        by (change (is_header_line (62 :: l) = true);
            rewrite header_line_without_indent; reflexivity);
      now rewrite (header_not_skipped x Hh), Hh
  end.
Qed.

(** X1: a file without any header line yields two empty lists, whether
    or not its last line ends with a newline; and whatever precedes the
    first header line is discarded: a file whose first lines, up to a
    newline, hold no header reads as the text after them. *)
Theorem load_fasta_entries_before_first_header (fs : filesystem) (p : str) :
  (forall content,
     fs p = Some (File content) ->
     forallb (fun raw_line => negb (is_header_line raw_line))
       (file_lines content) = true ->
     load_fasta_entries fs p = Ok ([], [])) /\
  (forall q preamble text,
     fs p = Some (File (preamble ++ text)) ->
     fs q = Some (File text) ->
     whole_lines preamble ->
     forallb (fun raw_line => negb (is_header_line raw_line))
       (file_lines preamble) = true ->
     load_fasta_entries fs p = load_fasta_entries fs q).
Proof.
  split.
  - intros content Hp Hh.
    rewrite (load_fasta_entries_file fs p _ Hp), read_entries_records.
    rewrite <- (app_nil_r (file_lines content)).
    now rewrite (records_no_header _ [] Hh).
  - intros q preamble text Hp Hq Hw Hh.
    rewrite (load_fasta_entries_file fs p _ Hp).
    rewrite (load_fasta_entries_file fs q _ Hq).
    f_equal. apply read_entries_same. rewrite file_lines_app by exact Hw.
    now apply records_no_header.
Qed.

Lemma load_fasta_entries_before_first_header_witness :
  bare_fs path_a = Some (File bare) /\
  forallb (fun raw_line => negb (is_header_line raw_line))
    (file_lines bare) = true /\
  load_fasta_entries bare_fs path_a = Ok ([], []) /\
  preamble_fs path_a = Some (File (preamble ++ two_records)) /\
  preamble_fs path_b = Some (File two_records) /\
  whole_lines preamble /\
  forallb (fun raw_line => negb (is_header_line raw_line))
    (file_lines preamble) = true /\
  load_fasta_entries preamble_fs path_a
  = load_fasta_entries preamble_fs path_b.
Proof.
  assert (Hw : whole_lines preamble).
  { right. exists (str_of "MKV" ++ [LF] ++ str_of "; note"). reflexivity. }
  split; [reflexivity|]. split; [reflexivity|].
  split.
  { apply (proj1 (load_fasta_entries_before_first_header bare_fs path_a)
             bare eq_refl eq_refl). }
  split; [reflexivity|]. split; [reflexivity|]. split; [exact Hw|].
  split; [reflexivity|].
  apply (proj2 (load_fasta_entries_before_first_header preamble_fs path_a)
           path_b preamble two_records eq_refl eq_refl Hw eq_refl).
Defined.

(** X2: blank lines and comment lines count for nothing wherever they
    stand: the file without them reads the same. *)
Theorem load_fasta_entries_ignores_comments (fs : filesystem)
  (p q content : str) :
  fs p = Some (File content) ->
  fs q = Some (File (concat (filter significant (file_lines content)))) ->
  load_fasta_entries fs q = load_fasta_entries fs p.
Proof.
  intros Hp Hq.
  rewrite (load_fasta_entries_file fs p _ Hp).
  rewrite (load_fasta_entries_file fs q _ Hq).
  f_equal. apply read_entries_same.
  rewrite file_lines_concat
    by apply well_lined_filter, file_lines_well_lined.
  apply records_significant.
Qed.

Lemma load_fasta_entries_ignores_comments_witness :
  commented_fs path_a = Some (File commented) /\
  commented_fs path_b
  = Some (File (concat (filter significant (file_lines commented)))) /\
  load_fasta_entries commented_fs path_b
  = load_fasta_entries commented_fs path_a.
Proof.
  split; [reflexivity|]. split; [reflexivity|].
  apply (load_fasta_entries_ignores_comments commented_fs path_a path_b
           commented eq_refl eq_refl).
Defined.

(** X3: a file made of two files, the first ending with a newline and the
    second starting with a header, holds the entries of the first followed
    by the entries of the second. *)
Theorem load_fasta_entries_concatenation (fs : filesystem)
  (p1 p2 p t1 t2 : str) :
  fs p1 = Some (File t1) -> fs p2 = Some (File t2) ->
  fs p = Some (File (t1 ++ t2)) ->
  whole_lines t1 -> startswith t2 (str_of ">") = true ->
  exists seqs1 descs1 seqs2 descs2,
    load_fasta_entries fs p1 = Ok (seqs1, descs1) /\
    load_fasta_entries fs p2 = Ok (seqs2, descs2) /\
    load_fasta_entries fs p = Ok (seqs1 ++ seqs2, descs1 ++ descs2).
Proof.
  intros H1 H2 Hp Hw Hh.
  rewrite (load_fasta_entries_file fs p1 _ H1).
  rewrite (load_fasta_entries_file fs p2 _ H2).
  rewrite (load_fasta_entries_file fs p _ Hp).
  rewrite !read_entries_records, file_lines_app by exact Hw.
  rewrite records_app by now apply body_header_first.
  do 4 eexists. split; [reflexivity|]. split; [reflexivity|].
  now rewrite !map_app.
Qed.

Lemma load_fasta_entries_concatenation_witness :
  whole_lines two_records /\
  startswith tab_record (str_of ">") = true /\
  exists seqs1 descs1 seqs2 descs2,
    load_fasta_entries joined_fs path_a = Ok (seqs1, descs1) /\
    load_fasta_entries joined_fs path_b = Ok (seqs2, descs2) /\
    load_fasta_entries joined_fs path_c
    = Ok (seqs1 ++ seqs2, descs1 ++ descs2).
Proof.
  assert (Hw : whole_lines two_records).
  { right.
    exists (str_of ">a" ++ [LF] ++ str_of "MKV" ++ [LF] ++ str_of ">b"
            ++ [LF] ++ str_of "LLT").
    reflexivity. }
  split; [exact Hw|]. split; [reflexivity|].
  apply (load_fasta_entries_concatenation joined_fs path_a path_b path_c
           two_records tab_record eq_refl eq_refl eq_refl Hw eq_refl).
Defined.

Lemma translate_after_cr (s : str) :
  startswith s [LF] = false ->
  translate_newlines true s = translate_newlines false s.
Proof.
  destruct s as [|c s]; [reflexivity|].
  cbn [startswith]. rewrite andb_true_r. intros H.
  cbn [translate_newlines]. rewrite N.eqb_sym in H. now rewrite H.
Qed.

Lemma with_cr_first (text : str) :
  startswith (with_line_ending [CR] text) [LF] = false.
Proof.
  destruct text as [|c text]; [reflexivity|].
  unfold with_line_ending. cbn [flat_map].
  destruct (c =? LF) eqn:E; cbn [app startswith]; [reflexivity|].
  rewrite N.eqb_sym, E. reflexivity.
Qed.

Lemma translate_line_endings (text : str) :
  ~ In CR text ->
  translate_newlines false (with_line_ending [CR; LF] text) = text /\
  translate_newlines false (with_line_ending [CR] text) = text.
Proof.
  induction text as [|c text IH]; [now split|].
  intros H.
  assert (Hc : (c =? CR) = false)
    by (apply N.eqb_neq; intros ->; apply H; now left).
  destruct IH as [IH1 IH2]; [intros Hin; apply H; now right|].
  unfold with_line_ending in *. cbn [flat_map].
  destruct (c =? LF) eqn:E.
  - apply N.eqb_eq in E. subst c. cbn [app translate_newlines].
    simpl (CR =? CR). simpl (LF =? CR). simpl (LF =? LF). cbn iota.
    rewrite IH1. split; [reflexivity|].
    rewrite translate_after_cr by apply with_cr_first. now rewrite IH2.
  - cbn [app translate_newlines]. rewrite Hc, E, IH1, IH2. now split.
Qed.

(** X4: the line endings do not matter: a file read with [\r\n] or with
    [\r] at the end of its lines gives what it gives with [\n]. *)
Theorem load_fasta_entries_line_endings (fs : filesystem)
  (p q r content : str) :
  ~ In CR content ->
  fs p = Some (File content) ->
  fs q = Some (File (with_line_ending [CR; LF] content)) ->
  fs r = Some (File (with_line_ending [CR] content)) ->
  load_fasta_entries fs q = load_fasta_entries fs p /\
  load_fasta_entries fs r = load_fasta_entries fs p.
Proof.
  intros Hc Hp Hq Hr.
  rewrite (load_fasta_entries_file fs p _ Hp).
  rewrite (load_fasta_entries_file fs q _ Hq).
  rewrite (load_fasta_entries_file fs r _ Hr).
  destruct (translate_line_endings content Hc) as [H1 H2].
  unfold file_lines. rewrite H1, H2, translate_id by exact Hc. now split.
Qed.

Lemma two_records_no_cr : ~ In CR two_records.
Proof. simpl. intuition discriminate. Qed.

Lemma load_fasta_entries_line_endings_witness :
  ~ In CR two_records /\
  load_fasta_entries endings_fs path_b = load_fasta_entries endings_fs path_a /\
  load_fasta_entries endings_fs path_c = load_fasta_entries endings_fs path_a.
Proof.
  split; [exact two_records_no_cr|].
  apply (load_fasta_entries_line_endings endings_fs path_a path_b path_c
           two_records two_records_no_cr eq_refl eq_refl eq_refl).
Defined.

Lemma body_in (lines : list str) (chunk : str) :
  In chunk (body lines) ->
  exists raw_line, In raw_line lines /\ chunk = strip raw_line.
Proof.
  induction lines as [|raw lines IH]; simpl; [tauto|].
  destruct (skipped (strip raw)).
  - intros H. destruct (IH H) as (r & Hr & ->). eauto.
  - destruct (is_header (strip raw)); [intros []|].
    intros [<- | H]; [eauto|]. destruct (IH H) as (r & Hr & ->). eauto.
Qed.

Lemma records_in (lines : list str) (rc : str * list str) :
  In rc (records lines) ->
  (exists raw_line,
     In raw_line lines /\ fst rc = header_description raw_line) /\
  forall chunk, In chunk (snd rc) ->
    exists raw_line, In raw_line lines /\ chunk = strip raw_line.
Proof.
  induction lines as [|raw lines IH]; simpl; [tauto|].
  assert (Hrest : In rc (records lines) ->
            (exists raw_line,
               (raw = raw_line \/ In raw_line lines) /\
               fst rc = header_description raw_line) /\
            forall chunk, In chunk (snd rc) ->
              exists raw_line,
                (raw = raw_line \/ In raw_line lines) /\
                chunk = strip raw_line).
  { intros H. destruct (IH H) as ((r & Hr & Hd) & Hb). split; [eauto|].
    intros chunk Hc. destruct (Hb chunk Hc) as (r' & Hr' & ->). eauto. }
  destruct (skipped (strip raw)); [exact Hrest|].
  destruct (is_header (strip raw)); [|exact Hrest].
  intros [<- | H]; [|auto]. simpl. split; [eauto|].
  intros chunk Hc. destruct (body_in _ _ Hc) as (r' & Hr' & ->). eauto.
Qed.

Lemma joined_sequence_in (chunks : list str) (x : char) :
  In x (joined_sequence chunks) ->
  x <> SPACE /\ exists chunk, In chunk chunks /\ In x chunk.
Proof.
  unfold joined_sequence, remove_char. rewrite join_empty_concat.
  intros H. apply filter_In in H as [H Hx].
  apply negb_true_iff, N.eqb_neq in Hx. split; [exact Hx|].
  apply in_concat in H as (chunk & Hc & Hin). eauto.
Qed.

(** X5: what the reader returns is clean: no sequence holds a space or a
    line break, and every description is on one line, with no whitespace
    at either end. *)
Theorem load_fasta_entries_output_shape (fs : filesystem) (p : str)
  (seqs descs : list str) :
  load_fasta_entries fs p = Ok (seqs, descs) ->
  Forall (fun s => ~ In SPACE s /\ ~ In LF s /\ ~ In CR s) seqs /\
  Forall plain_description descs.
Proof.
  intros H. apply load_fasta_entries_records in H as (content & _ & -> & ->).
  pose proof (file_lines_well_lined content) as Hwl.
  split; rewrite Forall_forall; intros x Hx;
    apply in_map_iff in Hx as (rc & <- & Hrc);
    apply records_in in Hrc as ((raw & Hraw & Hd) & Hb).
  - assert (Hno : forall c, In c (joined_sequence (snd rc)) ->
                            c <> SPACE /\ c <> LF /\ c <> CR).
    { intros c Hc. apply joined_sequence_in in Hc as (Hsp & chunk & Hch & Hin).
      destruct (Hb chunk Hch) as (raw' & Hraw' & ->).
      destruct (well_lined_strip _ _ Hwl Hraw') as [Hl Hr].
      repeat split; [exact Hsp | intros -> | intros ->]; contradiction. }
    repeat split; intros Hin; apply Hno in Hin; tauto.
  - rewrite Hd. unfold plain_description, header_description.
    destruct (well_lined_strip _ _ Hwl Hraw) as [Hl Hr].
    split; [apply strip_idem|].
    split; intros Hin; apply strip_incl in Hin;
      destruct (strip raw) as [|c r]; simpl in *; tauto.
Qed.

Lemma load_fasta_entries_output_shape_witness :
  load_fasta_entries commented_fs path_a
  = Ok ([str_of "MKV"; str_of "LLT"], [str_of "a"; str_of "b"]) /\
  Forall (fun s => ~ In SPACE s /\ ~ In LF s /\ ~ In CR s)
    [str_of "MKV"; str_of "LLT"] /\
  Forall plain_description [str_of "a"; str_of "b"].
Proof.
  split; [reflexivity|].
  apply (load_fasta_entries_output_shape commented_fs path_a).
  reflexivity.
Defined.

Lemma indented_snoc (s : str) (c : char) :
  s <> [] -> indented (s ++ [c]) = indented s.
Proof. destruct s; [congruence | reflexivity]. Qed.

Lemma strip_header_line (d : str) :
  plain_description d -> strip (str_of ">" ++ d ++ [LF]) = str_of ">" ++ d.
Proof.
  intros (Hs & _ & _). rewrite app_assoc, strip_snoc_space by reflexivity.
  apply strip_clean; [reflexivity|].
  change (str_of ">") with [62]. cbn [app rev].
  destruct d as [|c d]; [reflexivity|].
  rewrite indented_snoc.
  - rewrite <- Hs. apply strip_ends.
  - intros E. apply (f_equal (@length char)) in E.
    rewrite length_rev in E. discriminate.
Qed.

Lemma strip_residue_line (chunk : str) :
  residue_line chunk -> strip (chunk ++ [LF]) = chunk.
Proof.
  intros (_ & Hc & _). rewrite strip_snoc_space by reflexivity.
  rewrite forallb_forall in Hc.
  apply strip_clean.
  - destruct chunk as [|c r]; [reflexivity|]. simpl.
    apply negb_true_iff, Hc. now left.
  - destruct (rev chunk) as [|c r] eqn:E; [reflexivity|]. simpl.
    apply negb_true_iff, Hc, in_rev. rewrite E. now left.
Qed.

Lemma body_residue_lines (chunks : list str) (rest : list str) :
  Forall residue_line chunks ->
  body (map (fun chunk => chunk ++ [LF]) chunks ++ rest)
  = chunks ++ body rest.
Proof.
  induction 1 as [|chunk chunks Hc _ IH]; [reflexivity|].
  cbn [map app body]. cbv zeta. rewrite strip_residue_line by exact Hc.
  destruct Hc as (_ & _ & -> & ->). now rewrite IH.
Qed.

Lemma records_residue_lines (chunks : list str) (rest : list str) :
  Forall residue_line chunks ->
  records (map (fun chunk => chunk ++ [LF]) chunks ++ rest) = records rest.
Proof.
  induction 1 as [|chunk chunks Hc _ IH]; [reflexivity|].
  cbn [map app records]. cbv zeta. rewrite strip_residue_line by exact Hc.
  destruct Hc as (_ & _ & -> & ->). exact IH.
Qed.

Lemma body_record_lines (parsed : list (str * list str)) :
  Forall writable parsed -> body (flat_map record_lines parsed) = [].
Proof.
  destruct 1 as [|rc rest [Hd _] _]; [reflexivity|].
  cbn [flat_map record_lines app body]. cbv zeta.
  rewrite strip_header_line by exact Hd. reflexivity.
Qed.

Lemma records_record_lines (parsed : list (str * list str)) :
  Forall writable parsed -> records (flat_map record_lines parsed) = parsed.
Proof.
  induction 1 as [|rc parsed [Hd Hc] Hrest IH]; [reflexivity|].
  cbn [flat_map record_lines app records]. cbv zeta.
  unfold header_description.
  rewrite strip_header_line by exact Hd.
  change (skipped (str_of ">" ++ fst rc)) with false.
  change (is_header (str_of ">" ++ fst rc)) with true. cbv iota.
  change (tl (str_of ">" ++ fst rc)) with (fst rc).
  destruct Hd as (Hs & _). rewrite Hs.
  rewrite body_residue_lines, records_residue_lines by exact Hc.
  rewrite body_record_lines, app_nil_r, IH by exact Hrest.
  now destruct rc.
Qed.

Lemma well_lined_app (l1 l2 : list str) :
  Forall (fun l => exists b, l = b ++ [LF] /\ ~ In LF b /\ ~ In CR b) l1 ->
  well_lined l2 -> well_lined (l1 ++ l2).
Proof.
  induction 1 as [|l l1 (b & -> & Hl & Hc) _ IH]; intros H2; [exact H2|].
  simpl. apply wl_cons; auto.
Qed.

Lemma residue_no_break (chunk : str) (c : char) :
  residue_line chunk -> is_space c = true -> ~ In c chunk.
Proof.
  intros (_ & H & _) Hc Hin. rewrite forallb_forall in H.
  apply H in Hin. now rewrite Hc in Hin.
Qed.

Lemma well_lined_record_lines (parsed : list (str * list str)) :
  Forall writable parsed -> well_lined (flat_map record_lines parsed).
Proof.
  induction 1 as [|rc parsed [(_ & Hl & Hr) Hc] _ IH]; [constructor|].
  cbn [flat_map]. apply well_lined_app; [|exact IH].
  unfold record_lines. constructor.
  - exists (str_of ">" ++ fst rc). split; [now rewrite <- app_assoc|].
    split; intros [H | H]; (discriminate || tauto).
  - rewrite Forall_forall in *. intros l Hin.
    apply in_map_iff in Hin as (chunk & <- & Hin). exists chunk.
    split; [reflexivity|].
    split; apply residue_no_break; auto.
Qed.

(** X6: a text written from records, each as its header line followed by
    its lines of residues, is read back as these records: the descriptions
    as they are, each sequence as its lines put together. *)
Theorem load_fasta_entries_round_trip (fs : filesystem) (p : str)
  (parsed : list (str * list str)) :
  Forall writable parsed ->
  fs p = Some (File (fasta_text parsed)) ->
  load_fasta_entries fs p
  = Ok (map (fun rc => concat (snd rc)) parsed, map fst parsed).
Proof.
  intros Hw Hp. rewrite (load_fasta_entries_file fs p _ Hp).
  rewrite read_entries_records. unfold fasta_text.
  rewrite file_lines_concat by now apply well_lined_record_lines.
  rewrite records_record_lines by exact Hw.
  f_equal. f_equal. apply map_ext_in. intros rc Hin.
  rewrite Forall_forall in Hw. destruct (Hw rc Hin) as [_ Hc].
  unfold joined_sequence, remove_char. rewrite join_empty_concat.
  apply forallb_filter_id. apply forallb_forall. intros c Hc'.
  apply in_concat in Hc' as (chunk & Hch & Hin').
  rewrite Forall_forall in Hc.
  apply negb_true_iff, N.eqb_neq. intros ->.
  now apply (residue_no_break chunk SPACE (Hc chunk Hch)).
Qed.

Lemma wrapped_records_writable : Forall writable wrapped_records.
Proof.
  repeat constructor; try reflexivity; try discriminate;
    simpl; intuition discriminate.
Qed.

Lemma load_fasta_entries_round_trip_witness :
  Forall writable wrapped_records /\
  load_fasta_entries (single_file sample_path (fasta_text wrapped_records))
    sample_path
  = Ok ([str_of "MKVLL"; []], [str_of "sp|P1 first"; str_of "b"]).
Proof.
  split; [exact wrapped_records_writable|].
  apply (load_fasta_entries_round_trip
           (single_file sample_path (fasta_text wrapped_records))
           sample_path wrapped_records wrapped_records_writable).
  reflexivity.
Defined.

End FastaReaderMore.

(* ================================================================== *)
(** * Runs of the folding task *)
(* ================================================================== *)

Section Tasks.

Import RunFoldParallel FastaText LogSample TaskRuns.
Local Open Scope N_scope.

Lemma str_eqb_neq (a b : str) : a <> b -> str_eqb a b = false.
Proof.
  intros H. destruct (str_eqb a b) eqn:E; [|reflexivity].
  now apply str_eqb_eq in E.
Qed.

Lemma fs_set_same (fs : filesystem) (p : str) (n : option node) :
  fs_set fs p n p = n.
Proof. unfold fs_set. now rewrite str_eqb_refl. Qed.

Lemma fs_set_other (fs : filesystem) (p q : str) (n : option node) :
  q <> p -> fs_set fs p n q = fs q.
Proof. intros H. unfold fs_set. now rewrite str_eqb_neq. Qed.

Lemma write_to_shared_file_spec (message shared_file : str)
  (fs : filesystem) :
  fs shared_file <> Some Dir ->
  exists fs',
    write_to_shared_file message shared_file fs = Ok fs' /\
    fs' shared_file
    = Some (File (content_of fs shared_file ++ message)) /\
    forall q, q <> shared_file -> fs' q = fs q.
Proof.
  unfold write_to_shared_file, append_text, content_of. intros H.
  destruct (fs shared_file) as [[old|]|]; [|congruence|];
    eexists; (split; [reflexivity|]);
    (split; [apply fs_set_same | intros q Hq; now apply fs_set_other]).
Qed.





Lemma endswith_app (x f p : str) :
  endswith f p = true -> endswith (x ++ f) p = true.
Proof.
  unfold endswith. rewrite rev_app_distr. intros H.
  apply startswith_app in H as (s' & ->).
  apply startswith_app. exists (s' ++ rev x). now rewrite app_assoc.
Qed.

(** X8: every path [list_files_with_extension] returns ends with the
    extension; and where the directory ends with [/] and the listed names
    are plain names, the paths are the directory followed by the names
    that end with the extension, in the order of the listing. *)
Theorem list_files_with_extension_paths (listing : list str)
  (directory extension : str) :
  Forall (fun path => endswith path extension = true)
    (list_files_with_extension listing directory extension) /\
  (endswith directory (str_of "/") = true ->
   Forall (fun name => startswith name (str_of "/") = false) listing ->
   list_files_with_extension listing directory extension
   = map (app directory)
       (filter (fun name => endswith name extension) listing)).
Proof.
  unfold list_files_with_extension. split.
  - rewrite Forall_forall. intros path Hin.
    apply in_map_iff in Hin as (f & <- & Hf).
    apply filter_In in Hf as [_ Hf]. unfold path_join.
    destruct (startswith f (str_of "/")); [exact Hf|].
    destruct directory as [|c d]; [exact Hf|].
    destruct (endswith (c :: d) (str_of "/"));
      [|rewrite app_assoc]; now apply endswith_app.
  - intros Hd Hl. apply map_ext_in. intros f Hf.
    apply filter_In in Hf as [Hf _].
    rewrite Forall_forall in Hl. unfold path_join.
    rewrite (Hl f Hf), Hd. destruct directory; [discriminate | reflexivity].
Qed.

Lemma list_files_with_extension_paths_witness :
  endswith (str_of "../data/") (str_of "/") = true /\
  Forall (fun name => startswith name (str_of "/") = false)
    [str_of "b.faa"; str_of "notes.txt"; str_of "a.faa"] /\
  list_files_with_extension
    [str_of "b.faa"; str_of "notes.txt"; str_of "a.faa"]
    (str_of "../data/") (str_of ".faa")
  = map (app (str_of "../data/"))
      (filter (fun name => endswith name (str_of ".faa"))
         [str_of "b.faa"; str_of "notes.txt"; str_of "a.faa"]).
Proof.
  assert (H : Forall (fun name => startswith name (str_of "/") = false)
                [str_of "b.faa"; str_of "notes.txt"; str_of "a.faa"])
    by (repeat constructor).
  split; [reflexivity|]. split; [exact H|].
  apply (list_files_with_extension_paths
           [str_of "b.faa"; str_of "notes.txt"; str_of "a.faa"]
           (str_of "../data/") (str_of ".faa")); [reflexivity | exact H].
Defined.


Lemma getitem_out_of_range {A} (l : list A) (i : Z) :
  (i < - Z.of_nat (length l) \/ Z.of_nat (length l) <= i)%Z ->
  getitem l i = Raise IndexError.
Proof.
  intros H. unfold getitem.
  destruct (i <? 0)%Z eqn:Hi; cbv zeta; rewrite ?Hi.
  - apply Z.ltb_lt in Hi.
    assert (H1 : (i + Z.of_nat (length l) <? 0)%Z = true)
      by (apply Z.ltb_lt; lia).
    now rewrite H1.
  - apply Z.ltb_ge in Hi.
    assert (H2 : (Z.of_nat (length l) <=? i)%Z = true)
      by (apply Z.leb_le; lia).
    rewrite H2. reflexivity.
Qed.

Lemma pdb_tmp_not_log (i j : Z) (file : str) :
  pdb_tmp i j <> file ++ str_of ".fdat".
Proof.
  unfold pdb_tmp. intros H. apply (f_equal (@rev char)) in H.
  rewrite !rev_app_distr in H. discriminate.
Qed.



Lemma getitem_position {A} (l : list A) (i : Z) (d : A) :
  (- Z.of_nat (length l) <= i < Z.of_nat (length l))%Z ->
  getitem l i = Ok (nth (position (length l) i) l d).
Proof.
  intros H. unfold getitem, position.
  destruct (i <? 0)%Z eqn:Hi; cbv zeta; rewrite ?Hi.
  - apply Z.ltb_lt in Hi.
    assert (H1 : (i + Z.of_nat (length l) <? 0)%Z = false)
      by (apply Z.ltb_ge; lia).
    assert (H2 : (Z.of_nat (length l) <=? i + Z.of_nat (length l))%Z = false)
      by (apply Z.leb_gt; lia).
    rewrite H1, H2. cbn [orb].
    rewrite (nth_error_nth' l d); [reflexivity | lia].
  - apply Z.ltb_ge in Hi.
    assert (H2 : (Z.of_nat (length l) <=? i)%Z = false)
      by (apply Z.leb_gt; lia).
    rewrite H2. cbn [orb].
    rewrite (nth_error_nth' l d); [reflexivity | lia].
Qed.

Lemma main_returns (infer : str -> result inference)
  (data_listing : list str) (i j : Z) (fs : filesystem)
  (file entry description : str) (entries descriptions : list str)
  (r : inference) :
  getitem (data_files data_listing) j = Ok file ->
  load_fasta_entries fs file = Ok (entries, descriptions) ->
  getitem entries i = Ok entry ->
  getitem descriptions i = Ok description ->
  infer entry = Ok r ->
  fs (pdb_tmp i j) <> Some Dir ->
  fs (file ++ str_of ".fdat") <> Some Dir ->
  exists fs',
    main infer data_listing i j fs
    = Ok (out_str file description entry r
            (translate_newlines false (pdb_text r)), fs').
Proof.
  intros Hfile Hload Hentry Hdesc Hinfer Htmp Hlog.
  pose proof (pdb_tmp_not_log i j file) as Hne.
  set (fs1 := fs_set fs (pdb_tmp i j) (Some (File (pdb_text r)))).
  set (fs2 := fs_set fs1 (pdb_tmp i j) None).
  assert (Hlog2 : fs2 (file ++ str_of ".fdat") = fs (file ++ str_of ".fdat")).
  { unfold fs2, fs1. rewrite !fs_set_other by congruence. reflexivity. }
  destruct (write_to_shared_file_spec
              (out_str file description entry r
                 (translate_newlines false (pdb_text r)))
              (file ++ str_of ".fdat") fs2) as (fs3 & Hw & _);
    [now rewrite Hlog2|].
  exists fs3. unfold main. fold (data_files data_listing).
  rewrite Hfile. cbn [bind]. rewrite Hload. cbn [bind].
  rewrite Hentry. cbn [bind]. rewrite Hdesc. cbn [bind].
  unfold fold_sequence_esm. rewrite Hinfer. cbn [bind].
  fold (pdb_tmp i j). unfold write_text.
  assert (Hwt : match fs (pdb_tmp i j) with
                | Some Dir => Raise IsADirectoryError
                | _ => Ok fs1
                end = Ok fs1).
  { destruct (fs (pdb_tmp i j)) as [[c|]|]; congruence. }
  fold fs1. rewrite Hwt. cbn [bind].
  unfold read_text, remove. unfold fs1 at 1 2.
  rewrite fs_set_same. cbn [bind]. fold fs2. rewrite Hw. reflexivity.
Qed.

(** X10: a task whose file index is out of the range of the listed
    sequence files, or whose entry index is out of the range of the
    entries of its file, raises [IndexError], whatever the folding model
    would do; so does every task of a file without entries.  An index
    from [-n] to [-1] is in range and counts from the end: the task of
    such indices writes the record of the entry and of the file they
    count to. *)
Theorem main_index_out_of_range (infer : str -> result inference)
  (data_listing : list str) (i j : Z) (fs : filesystem) :
  let files := data_files data_listing in
  ((j < - Z.of_nat (length files) \/ Z.of_nat (length files) <= j)%Z ->
   main infer data_listing i j fs = Raise IndexError) /\
  (forall file entries descriptions,
     getitem files j = Ok file ->
     load_fasta_entries fs file = Ok (entries, descriptions) ->
     (i < - Z.of_nat (length entries) \/ Z.of_nat (length entries) <= i)%Z ->
     main infer data_listing i j fs = Raise IndexError) /\
  (forall file,
     getitem files j = Ok file ->
     load_fasta_entries fs file = Ok ([], []) ->
     main infer data_listing i j fs = Raise IndexError) /\
  (forall entries descriptions r,
     let file := nth (position (length files) j) files [] in
     let entry := nth (position (length entries) i) entries [] in
     let description := nth (position (length entries) i) descriptions [] in
     (- Z.of_nat (length files) <= j < Z.of_nat (length files))%Z ->
     load_fasta_entries fs file = Ok (entries, descriptions) ->
     (- Z.of_nat (length entries) <= i < Z.of_nat (length entries))%Z ->
     infer entry = Ok r ->
     fs (pdb_tmp i j) <> Some Dir ->
     fs (file ++ str_of ".fdat") <> Some Dir ->
     exists fs',
       main infer data_listing i j fs
       = Ok (out_str file description entry r
               (translate_newlines false (pdb_text r)), fs')).
Proof.
  cbv zeta.
  assert (H2 : forall file entries descriptions,
     getitem (data_files data_listing) j = Ok file ->
     load_fasta_entries fs file = Ok (entries, descriptions) ->
     (i < - Z.of_nat (length entries) \/ Z.of_nat (length entries) <= i)%Z ->
     main infer data_listing i j fs = Raise IndexError).
  { intros file entries descriptions Hf Hl Hi.
    unfold main. fold (data_files data_listing). rewrite Hf. cbn [bind].
    rewrite Hl. cbn [bind].
    now rewrite (getitem_out_of_range entries i Hi). }
  split; [|split; [|split]].
  - intros Hj. unfold main. fold (data_files data_listing).
    now rewrite (getitem_out_of_range _ j Hj).
  - exact H2.
  - intros file Hf Hl. apply (H2 file [] [] Hf Hl). simpl. lia.
  - intros entries descriptions r Hj Hload Hi Hinfer Htmp Hlog.
    assert (Hlen : length descriptions = length entries).
    { apply load_fasta_entries_records in Hload as (content & _ & -> & ->).
      now rewrite !length_map. }
    apply main_returns with (entries := entries)
                            (descriptions := descriptions); try assumption.
    + now apply getitem_position.
    + now apply getitem_position.
    + rewrite <- Hlen. apply getitem_position.
      unfold str in *. lia.
Qed.

Lemma main_index_out_of_range_witness :
  (Z.of_nat (length (data_files sample_listing)) <= 1)%Z /\
  main sample_infer sample_listing 0 1 sample_fs = Raise IndexError /\
  getitem (data_files sample_listing) 0 = Ok sample_path /\
  (Z.of_nat (length [str_of "MKV"; str_of "LLT"]) <= 2)%Z /\
  main sample_infer sample_listing 2 0 sample_fs = Raise IndexError /\
  (- Z.of_nat (length (data_files sample_listing)) <= -1
   < Z.of_nat (length (data_files sample_listing)))%Z /\
  (- Z.of_nat (length [str_of "MKV"; str_of "LLT"]) <= -2
   < Z.of_nat (length [str_of "MKV"; str_of "LLT"]))%Z /\
  exists fs',
    main sample_infer sample_listing (-2) (-1) sample_fs
    = Ok (out_str sample_path (str_of "a") (str_of "MKV") sample_inference
            (translate_newlines false (pdb_text sample_inference)), fs').
Proof.
  pose proof (main_index_out_of_range sample_infer sample_listing 0 1
                sample_fs) as (H1 & _).
  pose proof (main_index_out_of_range sample_infer sample_listing 2 0
                sample_fs) as (_ & H2 & _).
  pose proof (main_index_out_of_range sample_infer sample_listing (-2) (-1)
                sample_fs) as (_ & _ & _ & H4).
  split; [simpl; lia|]. split; [apply H1; right; simpl; lia|].
  split; [reflexivity|]. split; [simpl; lia|].
  split.
  { apply (H2 sample_path [str_of "MKV"; str_of "LLT"]
              [str_of "a"; str_of "b"] eq_refl eq_refl).
    right; simpl; lia. }
  split; [simpl; lia|]. split; [simpl; lia|].
  apply (H4 [str_of "MKV"; str_of "LLT"] [str_of "a"; str_of "b"]
            sample_inference);
    try reflexivity; try discriminate; simpl; lia.
Defined.

End Tasks.

(* ================================================================== *)
(** * Names that follow the convention *)
(* ================================================================== *)

Section ConventionNames.

Import Re Collector SortSpec ArtifactNames Convention.
Local Open Scope N_scope.

Lemma int_of_uint_acc (u : Decimal.uint) : forall acc : nat,
  fold_left (fun a c => 10 * a + decimal_value c) (uint_chars u)
    (N.of_nat acc)
  = N.of_nat (Nat.of_uint_acc u acc).
Proof.
  induction u; intros acc; cbn [uint_chars fold_left Nat.of_uint_acc];
    [reflexivity | ..];
    rewrite <- IHu, ?Nat.tail_mul_spec; f_equal;
    change (decimal_value 48) with 0; change (decimal_value 49) with 1;
    change (decimal_value 50) with 2; change (decimal_value 51) with 3;
    change (decimal_value 52) with 4; change (decimal_value 53) with 5;
    change (decimal_value 54) with 6; change (decimal_value 55) with 7;
    change (decimal_value 56) with 8; change (decimal_value 57) with 9;
    lia.
Qed.

(** [int(str(n)) == n] *)
Lemma int_of_str_nat (n : nat) : int_of_decimal (str_nat n) = N.of_nat n.
Proof.
  unfold int_of_decimal, str_nat.
  change 0 with (N.of_nat 0). rewrite int_of_uint_acc.
  f_equal. apply DecimalNat.Unsigned.of_to.
Qed.

Lemma str_nat_inj (n n' : nat) : str_nat n = str_nat n' -> n = n'.
Proof.
  intros H. apply (f_equal int_of_decimal) in H.
  rewrite !int_of_str_nat in H. lia.
Qed.

Lemma str_nat_number (n : nat) : number (str_nat n).
Proof.
  split; [|apply str_nat_decimal].
  unfold str_nat. destruct (Nat.to_uint n) eqn:E; try discriminate.
  pose proof (DecimalNat.Unsigned.of_to n) as Hn.
  rewrite E in Hn. simpl in Hn. subst n. discriminate.
Qed.

Section Kind.

Variables stem ext : str.
Hypothesis ext_one_line : ~ In LF ext.

Lemma artifact_name_index (dir : str) (e i : nat) :
  names_index (stem ++ [UNDERSCORE]) ext i (artifact_name dir (stem ++ [UNDERSCORE]) ext e i).
Proof.
  exists dir, (str_nat e), []. split; [|split; [|now left]].
  - unfold artifact_name. now rewrite !app_nil_r.
  - intros H. pose proof (str_nat_decimal e) as Hd.
    rewrite forallb_forall in Hd. specialize (Hd _ H). discriminate.
Qed.

Lemma artifact_name_tokens (dir : str) (e i : nat) :
  ends_with_tokens ext (artifact_name dir (stem ++ [UNDERSCORE]) ext e i)
    (str_nat e) (str_nat i).
Proof.
  exists (dir ++ stem), []. split; [|split; [|split; [|now left]]].
  - unfold artifact_name. now rewrite <- !app_assoc, !app_nil_r.
  - apply str_nat_number.
  - apply str_nat_number.
Qed.

Lemma artifact_name_selected (dir : str) (e i i' : nat) :
  selected (pattern_for (stem ++ [UNDERSCORE]) ext i') (artifact_name dir (stem ++ [UNDERSCORE]) ext e i)
  = (i' =? i)%nat.
Proof.
  destruct (i' =? i)%nat eqn:E.
  - apply Nat.eqb_eq in E. subst i'.
    apply selected_names_index, artifact_name_index.
  - destruct (selected _ _) eqn:Hs; [|reflexivity].
    apply selected_names_index in Hs.
    pose proof (names_index_last_token ext ext_one_line (stem ++ [UNDERSCORE]) i' _ _ _ Hs
                  (artifact_name_tokens dir e i)) as H.
    apply str_nat_inj in H. apply Nat.eqb_neq in E. congruence.
Qed.

Lemma artifact_name_key (dir : str) (e i : nat) :
  sort_key (key_pattern_for ext) (artifact_name dir (stem ++ [UNDERSCORE]) ext e i)
  = Ok (N.of_nat e).
Proof.
  rewrite (sort_key_tokens ext ext_one_line _ _ _
             (artifact_name_tokens dir e i)).
  now rewrite int_of_str_nat.
Qed.

End Kind.

(** X11: a structure file named by the convention,
    [<dir>folded_<e>_<i>.pdb], is selected for the sequence file of index
    [i] and for no other index, and its ordering key is the number [e];
    the same holds of the score file [<dir>tmp_<e>_<i>.csv]. *)
Theorem conventional_names_match (dir : str) (e i i' : nat) :
  selected (pattern_pdb i')
    (artifact_name dir (str_of "folded_") (str_of "pdb") e i)
  = (i' =? i)%nat /\
  sort_key key_pattern_pdb
    (artifact_name dir (str_of "folded_") (str_of "pdb") e i)
  = Ok (N.of_nat e) /\
  selected (pattern_csv i')
    (artifact_name dir (str_of "tmp_") (str_of "csv") e i)
  = (i' =? i)%nat /\
  sort_key key_pattern_csv
    (artifact_name dir (str_of "tmp_") (str_of "csv") e i)
  = Ok (N.of_nat e).
Proof.
  split; [|split; [|split]].
  - apply (artifact_name_selected (str_of "folded") (str_of "pdb")
             pdb_one_line).
  - apply (artifact_name_key (str_of "folded") (str_of "pdb") pdb_one_line).
  - apply (artifact_name_selected (str_of "tmp") (str_of "csv")
             csv_one_line).
  - apply (artifact_name_key (str_of "tmp") (str_of "csv") csv_one_line).
Qed.

End ConventionNames.

(* ================================================================== *)
(** * The order of the matched files *)
(* ================================================================== *)

Section MatchedOrder.

Import Re Collector SortSpec ArtifactNames Convention.
Local Open Scope N_scope.

(** Two sorted lists with the same elements are the same list, where
    the order tells the elements apart. *)
Lemma sorted_permutation_unique {A} (R : A -> A -> Prop) (l : list A) :
  forall l',
    StronglySorted R l -> StronglySorted R l' -> Permutation l l' ->
    (forall x y, In x l -> In y l -> R x y -> R y x -> x = y) ->
    l = l'.
Proof.
  induction l as [|x t IH]; intros l' Hs Hs' Hp Ha.
  - now apply Permutation_nil in Hp.
  - destruct l' as [|y t'];
      [apply Permutation_sym, Permutation_nil in Hp; discriminate|].
    apply StronglySorted_inv in Hs as [Hst Hx].
    apply StronglySorted_inv in Hs' as [Hst' Hy].
    rewrite Forall_forall in Hx, Hy.
    assert (Hxy : x = y).
    { assert (Hx' : In x (y :: t')) by (apply (Permutation_in _ Hp); now left).
      assert (Hy' : In y (x :: t))
        by (apply (Permutation_in _ (Permutation_sym Hp)); now left).
      destruct Hx' as [-> | Hx']; [reflexivity|].
      destruct Hy' as [-> | Hy']; [reflexivity|].
      apply Ha; [now left | now right | now apply Hx | now apply Hy]. }
    subst y. f_equal.
    apply IH; auto.
    + now apply Permutation_cons_inv in Hp.
    + intros a b Ha' Hb'. apply Ha; now right.
Qed.

Lemma Permutation_filter' {A} (p : A -> bool) (l l' : list A) :
  Permutation l l' -> Permutation (filter p l) (filter p l').
Proof.
  induction 1 as [|x l l' _ IH|x y l|l l' l'' _ IH1 _ IH2]; simpl.
  - constructor.
  - destruct (p x); [now constructor | exact IH].
  - destruct (p x), (p y); try reflexivity. apply perm_swap.
  - now transitivity (filter p l').
Qed.

Section Key.

Context {A : Type}.
Variable key : A -> result N.

Lemma keyed_sorted (l : list A) (keys : list N) :
  Forall2 (fun x k => key x = Ok k) l keys ->
  StronglySorted N.le keys ->
  StronglySorted (key_order key) l.
Proof.
  induction 1 as [|x k l keys Hx Hl IH]; intros Hs; [constructor|].
  apply StronglySorted_inv in Hs as [Hs Hk].
  constructor; [now apply IH|].
  clear IH Hs. induction Hl as [|y k' l keys Hy _ IH]; constructor.
  - exists k, k'. repeat split; auto.
    apply Forall_inv in Hk. exact Hk.
  - apply IH. now apply Forall_inv_tail in Hk.
Qed.

Lemma sorted_keys_ok (l result : list A) (x : A) :
  sorted key l = Ok result -> In x l -> exists k, key x = Ok k.
Proof.
  intros H Hx. apply sorted_spec in H as (keys & Hk & _ & Hp & _).
  apply (Permutation_in _ (Permutation_sym Hp)) in Hx.
  clear Hp. induction Hk as [|y k r ks Hy _ IH]; [contradiction|].
  destruct Hx as [<- | Hx]; eauto.
Qed.

(** The result of [sorted] does not depend on the order of its argument
    when no two distinct elements have the same key. *)
Lemma sorted_permutation (l l' result : list A) :
  sorted key l = Ok result -> Permutation l l' ->
  (forall x y, In x l -> In y l -> key x = key y -> x = y) ->
  sorted key l' = Ok result.
Proof.
  intros H Hp Hinj.
  destruct (sorted_total key l') as (result' & H').
  { intros x Hx. apply (sorted_keys_ok l result); [exact H|].
    now apply (Permutation_in _ (Permutation_sym Hp)). }
  rewrite H'. f_equal. symmetry.
  apply sorted_spec in H as (keys & Hk & Hs & Hpr & _).
  apply sorted_spec in H' as (keys' & Hk' & Hs' & Hpr' & _).
  apply (sorted_permutation_unique (key_order key)).
  - now apply keyed_sorted with keys.
  - now apply keyed_sorted with keys'.
  - now rewrite Hpr, Hp, Hpr'.
  - intros x y Hx Hy (kx & ky & Hkx & Hky & Hle) (ky' & kx' & Hky' & Hkx' & Hle').
    apply (Permutation_in _ Hpr) in Hx, Hy.
    apply Hinj; auto.
    assert (kx = kx') by congruence. assert (ky = ky') by congruence.
    subst. rewrite Hkx, Hky. f_equal. lia.
Qed.

(** A list given in strictly increasing order of its keys is what
    [sorted] returns for any arrangement of it. *)
Lemma sorted_of_permutation (l l0 : list A) (keys : list N) :
  Permutation l l0 ->
  Forall2 (fun x k => key x = Ok k) l0 keys ->
  StronglySorted N.lt keys ->
  sorted key l = Ok l0.
Proof.
  intros Hp Hk Hs.
  assert (Hle : StronglySorted N.le keys).
  { clear - Hs. induction Hs as [|k ks _ IH Hk]; constructor; auto.
    rewrite Forall_forall in *. intros y Hy. apply N.lt_le_incl. auto. }
  assert (Hinj : forall x y kx ky,
             In x l0 -> In y l0 -> key x = Ok kx -> key y = Ok ky ->
             kx = ky -> x = y).
  { clear - Hk Hs. induction Hk as [|a k l0 keys Ha Hl IH];
      intros x y kx ky Hx Hy Hkx Hky E; [contradiction|].
    apply StronglySorted_inv in Hs as [Hs Hlt].
    assert (Hgt : forall z kz, In z l0 -> key z = Ok kz -> k < kz).
    { clear - Hl Hlt. induction Hl as [|b k' l0 keys Hb _ IH];
        intros z kz Hz Hkz; [contradiction|].
      destruct Hz as [<- | Hz].
      - apply Forall_inv in Hlt. congruence.
      - apply (IH (Forall_inv_tail Hlt) z kz Hz Hkz). }
    destruct Hx as [<- | Hx], Hy as [<- | Hy].
    - reflexivity.
    - specialize (Hgt y ky Hy Hky). assert (k = kx) by congruence. lia.
    - specialize (Hgt x kx Hx Hkx). assert (k = ky) by congruence. lia.
    - now apply (IH Hs x y kx ky). }
  destruct (sorted_total key l) as (result & H).
  { intros x Hx. apply (Permutation_in _ Hp) in Hx.
    clear - Hk Hx. induction Hk as [|a k l0 keys Ha _ IH]; [contradiction|].
    destruct Hx as [<- | Hx]; eauto. }
  rewrite H. f_equal.
  apply sorted_spec in H as (keys' & Hk' & Hs' & Hpr & _).
  apply (sorted_permutation_unique (key_order key)).
  - now apply keyed_sorted with keys'.
  - now apply keyed_sorted with keys.
  - now rewrite Hpr, Hp.
  - intros x y Hx Hy (kx & ky & Hkx & Hky & Hle1) (ky' & kx' & Hky' & Hkx' & Hle2).
    apply (Permutation_in _ Hpr) in Hx, Hy.
    apply (Permutation_in _ Hp) in Hx, Hy.
    apply (Hinj x y kx ky); auto.
    assert (kx = kx') by congruence. assert (ky = ky') by congruence. lia.
Qed.

End Key.

End MatchedOrder.

Section PoolOrder.

Import Re Collector SortSpec ArtifactNames Convention PoolSamples.
Local Open Scope N_scope.

(** X12: the matched files do not depend on the order in which the scan
    listed the pool, provided no two distinct selected files have the same
    key. *)
Theorem matching_files_any_order (pattern key_pattern : regex)
  (pool pool' result : list str) :
  Permutation pool pool' ->
  (forall f g,
     In f pool -> In g pool ->
     selected pattern f = true -> selected pattern g = true ->
     sort_key key_pattern f = sort_key key_pattern g -> f = g) ->
  matching_files pattern key_pattern pool = Ok result ->
  matching_files pattern key_pattern pool' = Ok result.
Proof.
  unfold matching_files. intros Hp Hinj H.
  apply (sorted_permutation (sort_key key_pattern)
           (filter (selected pattern) pool)); auto.
  - now apply Permutation_filter'.
  - intros f g Hf Hg. apply filter_In in Hf as [Hf Hsf].
    apply filter_In in Hg as [Hg Hsg]. now apply Hinj.
Qed.

Lemma sample_pdb_files_keys (f g : str) :
  In f CollectorSample.sample_pdb_files ->
  In g CollectorSample.sample_pdb_files ->
  selected (pattern_pdb 0) f = true -> selected (pattern_pdb 0) g = true ->
  sort_key key_pattern_pdb f = sort_key key_pattern_pdb g -> f = g.
Proof.
  intros [<- | [<- | [<- | []]]] [<- | [<- | [<- | []]]] Hf Hg Hk;
    try reflexivity;
    vm_compute in Hf, Hg, Hk; discriminate.
Qed.

Lemma matching_files_any_order_witness :
  Permutation CollectorSample.sample_pdb_files
    (rev CollectorSample.sample_pdb_files) /\
  matching_files (pattern_pdb 0) key_pattern_pdb
    CollectorSample.sample_pdb_files
  = Ok [str_of "F000/folded_0_0.pdb"; str_of "F000/folded_1_0.pdb"] /\
  matching_files (pattern_pdb 0) key_pattern_pdb
    (rev CollectorSample.sample_pdb_files)
  = Ok [str_of "F000/folded_0_0.pdb"; str_of "F000/folded_1_0.pdb"].
Proof.
  split; [apply Permutation_rev|]. split; [reflexivity|].
  apply (matching_files_any_order (pattern_pdb 0) key_pattern_pdb
           CollectorSample.sample_pdb_files
           (rev CollectorSample.sample_pdb_files)).
  - apply Permutation_rev.
  - exact sample_pdb_files_keys.
  - reflexivity.
Defined.

Section Kind.

Variables stem ext : str.
Hypothesis ext_one_line : ~ In LF ext.
Variable dir : nat -> str.
Variable count : nat -> nat.

Lemma filter_artifacts (n i i' : nat) :
  filter (selected (pattern_for (stem ++ [UNDERSCORE]) ext i'))
    (artifacts_of (dir i) (stem ++ [UNDERSCORE]) ext n i)
  = if (i' =? i)%nat
    then artifacts_of (dir i) (stem ++ [UNDERSCORE]) ext n i
    else [].
Proof.
  unfold artifacts_of. induction (seq 0 n) as [|e l IH]; simpl.
  - now destruct (i' =? i)%nat.
  - rewrite (artifact_name_selected stem ext ext_one_line), IH.
    now destruct (i' =? i)%nat.
Qed.

Lemma filter_complete_pool (i : nat) : forall m s,
  filter (selected (pattern_for (stem ++ [UNDERSCORE]) ext i))
    (flat_map (fun i' => artifacts_of (dir i') (stem ++ [UNDERSCORE]) ext
                           (count i') i')
       (seq s m))
  = if ((s <=? i) && (i <? s + m))%nat
    then artifacts_of (dir i) (stem ++ [UNDERSCORE]) ext (count i) i
    else [].
Proof.
  induction m as [|m IH]; intros s; cbn [seq flat_map filter].
  - destruct (s <=? i)%nat eqn:E1, (i <? s + 0)%nat eqn:E2; try reflexivity.
    apply Nat.leb_le in E1. apply Nat.ltb_lt in E2. lia.
  - rewrite filter_app, filter_artifacts, IH.
    destruct (i =? s)%nat eqn:E.
    + apply Nat.eqb_eq in E. subst s.
      assert (H1 : (S i <=? i)%nat = false) by (apply Nat.leb_gt; lia).
      assert (H2 : (i <=? i)%nat = true) by (apply Nat.leb_le; lia).
      assert (H3 : (i <? i + S m)%nat = true) by (apply Nat.ltb_lt; lia).
      rewrite H1, H2, H3. cbn [andb]. apply app_nil_r.
    + apply Nat.eqb_neq in E. cbn [app].
      destruct (S s <=? i)%nat eqn:E1, (s <=? i)%nat eqn:E2,
               (i <? S s + m)%nat eqn:E3, (i <? s + S m)%nat eqn:E4;
        try reflexivity; exfalso;
        repeat match goal with
          | H : (_ <=? _)%nat = true |- _ => apply Nat.leb_le in H
          | H : (_ <=? _)%nat = false |- _ => apply Nat.leb_gt in H
          | H : (_ <? _)%nat = true |- _ => apply Nat.ltb_lt in H
          | H : (_ <? _)%nat = false |- _ => apply Nat.ltb_ge in H
          end; lia.
Qed.

Lemma artifacts_keys (d : str) (i : nat) : forall n s,
  Forall2 (fun f k => sort_key (key_pattern_for ext) f = Ok k)
    (map (fun e => artifact_name d (stem ++ [UNDERSCORE]) ext e i) (seq s n))
    (map N.of_nat (seq s n)).
Proof.
  induction n as [|n IH]; intros s; simpl; constructor.
  - apply (artifact_name_key stem ext ext_one_line).
  - apply IH.
Qed.

Lemma seq_keys_sorted : forall n s,
  StronglySorted N.lt (map N.of_nat (seq s n)).
Proof.
  induction n as [|n IH]; intros s; simpl; constructor.
  - apply IH.
  - rewrite Forall_forall. intros k Hk.
    apply in_map_iff in Hk as (x & <- & Hx). apply in_seq in Hx. lia.
Qed.

Lemma matching_complete_pool (pool : list str) (m i : nat) :
  Permutation pool (complete_pool dir (stem ++ [UNDERSCORE]) ext count m) ->
  (i < m)%nat ->
  matching_files (pattern_for (stem ++ [UNDERSCORE]) ext i)
    (key_pattern_for ext) pool
  = Ok (artifacts_of (dir i) (stem ++ [UNDERSCORE]) ext (count i) i).
Proof.
  intros Hp Hi. unfold matching_files.
  apply sorted_of_permutation with (keys := map N.of_nat (seq 0 (count i))).
  - rewrite (Permutation_filter' _ _ _ Hp). unfold complete_pool.
    rewrite filter_complete_pool.
    assert (H : ((0 <=? i) && (i <? 0 + m))%nat = true).
    { apply andb_true_iff. split; [now apply Nat.leb_le; lia|].
      apply Nat.ltb_lt. lia. }
    now rewrite H.
  - apply artifacts_keys.
  - apply seq_keys_sorted.
Qed.

End Kind.

Lemma matching_files_pools (dir : nat -> str) (count : nat -> nat)
  (m i : nat) (pdb_pool csv_pool : list str) :
  (i < m)%nat ->
  (Permutation pdb_pool
     (complete_pool dir (str_of "folded_") (str_of "pdb") count m) ->
   matching_files (pattern_pdb i) key_pattern_pdb pdb_pool
   = Ok (artifacts_of (dir i) (str_of "folded_") (str_of "pdb")
           (count i) i)) /\
  (Permutation csv_pool
     (complete_pool dir (str_of "tmp_") (str_of "csv") count m) ->
   matching_files (pattern_csv i) key_pattern_csv csv_pool
   = Ok (artifacts_of (dir i) (str_of "tmp_") (str_of "csv")
           (count i) i)).
Proof.
  intros Hi. split; intros Hp.
  - now apply (matching_complete_pool (str_of "folded") (str_of "pdb")
                 pdb_one_line dir count pdb_pool m i).
  - now apply (matching_complete_pool (str_of "tmp") (str_of "csv")
                 csv_one_line dir count csv_pool m i).
Qed.

(** X13: when the pool holds, in any order, the structure files of every
    sequence file named by the convention (entry [e] of file [i] as
    [<dir i>folded_<e>_<i>.pdb]), the matcher returns for index [i] the
    files of sequence file [i] alone, in the order of their entries; and
    likewise for the score files [<dir i>tmp_<e>_<i>.csv]. *)
Theorem matching_files_complete_pool (dir : nat -> str)
  (count : nat -> nat) (m i : nat) (pdb_pool csv_pool : list str) :
  (i < m)%nat ->
  (Permutation pdb_pool
     (complete_pool dir (str_of "folded_") (str_of "pdb") count m) ->
   matching_files (pattern_pdb i) key_pattern_pdb pdb_pool
   = Ok (artifacts_of (dir i) (str_of "folded_") (str_of "pdb")
           (count i) i)) /\
  (Permutation csv_pool
     (complete_pool dir (str_of "tmp_") (str_of "csv") count m) ->
   matching_files (pattern_csv i) key_pattern_csv csv_pool
   = Ok (artifacts_of (dir i) (str_of "tmp_") (str_of "csv")
           (count i) i)).
Proof. apply matching_files_pools. Qed.

Lemma scanned_pdb_files_complete :
  Permutation scanned_pdb_files
    (complete_pool sample_dir (str_of "folded_") (str_of "pdb")
       sample_count 2).
Proof.
  unfold scanned_pdb_files.
  apply (Permutation_cons_app
           [str_of "F0/folded_0_0.pdb"; str_of "F0/folded_1_0.pdb";
            str_of "F0/folded_2_0.pdb"; str_of "F1/folded_0_1.pdb"] []).
  apply (Permutation_cons_app
           [str_of "F0/folded_0_0.pdb"; str_of "F0/folded_1_0.pdb"]
           [str_of "F1/folded_0_1.pdb"]).
  apply (Permutation_cons_app []
           [str_of "F0/folded_1_0.pdb"; str_of "F1/folded_0_1.pdb"]).
  apply perm_swap.
Qed.

Lemma matching_files_complete_pool_witness :
  (0 < 2)%nat /\
  Permutation scanned_pdb_files
    (complete_pool sample_dir (str_of "folded_") (str_of "pdb")
       sample_count 2) /\
  matching_files (pattern_pdb 0) key_pattern_pdb scanned_pdb_files
  = Ok [str_of "F0/folded_0_0.pdb"; str_of "F0/folded_1_0.pdb";
        str_of "F0/folded_2_0.pdb"].
Proof.
  split; [lia|]. split; [exact scanned_pdb_files_complete|].
  apply (matching_files_complete_pool sample_dir sample_count 2 0
           scanned_pdb_files []); [lia|].
  exact scanned_pdb_files_complete.
Defined.

End PoolOrder.

(* ================================================================== *)
(** * The rows of the collector *)
(* ================================================================== *)

Section Rows.

Import Re Collector SortSpec ArtifactNames Convention CollectorSample
       PoolSamples.
Local Open Scope N_scope.

Lemma io_bind_ok {A B} (m : io A) (f : A -> io B) (t : list event) (b : B) :
  io_bind m f = (t, Ok b) ->
  exists t1 a t2, m = (t1, Ok a) /\ f a = (t2, Ok b) /\ t = t1 ++ t2.
Proof.
  destruct m as [t1 [a|e]]; simpl; [|discriminate].
  destruct (f a) as [t2 r] eqn:Hf. intros H. injection H as <- ->.
  now exists t1, a, t2.
Qed.

Lemma io_bind_trace {A B} (P : event -> Prop) (m : io A) (f : A -> io B) :
  Forall P (fst m) -> (forall a, Forall P (fst (f a))) ->
  Forall P (fst (io_bind m f)).
Proof.
  destruct m as [t1 [a|e]]; simpl; intros H1 H2; [|exact H1].
  specialize (H2 a). destruct (f a) as [t2 r]. simpl in *.
  apply Forall_app. now split.
Qed.

Lemma io_map_ok {A B} (f : A -> io B) (l : list A) :
  forall t ys,
    io_map f l = (t, Ok ys) ->
    Forall2 (fun x y => exists t', f x = (t', Ok y)) l ys.
Proof.
  induction l as [|x l IH]; intros t ys H.
  - injection H as <- <-. constructor.
  - cbn [io_map] in H.
    apply io_bind_ok in H as (t1 & y & t2 & Hx & H & _).
    apply io_bind_ok in H as (t3 & ys' & t4 & Hl & H & _).
    injection H as _ <-. constructor; [eauto | eapply IH; eauto].
Qed.

Lemma io_map_total {A B} (f : A -> io B) (l : list A) :
  (forall x, In x l -> exists t y, f x = (t, Ok y)) ->
  exists t ys, io_map f l = (t, Ok ys).
Proof.
  induction l as [|x l IH]; intros H.
  - now exists [], [].
  - destruct (H x (or_introl eq_refl)) as (t1 & y & Hx).
    destruct IH as (t2 & ys & Hl); [intros; apply H; now right|].
    cbn [io_map]. rewrite Hx. cbn [io_bind]. rewrite Hl. cbn [io_bind ret].
    eauto.
Qed.

Lemma io_map_trace {A B} (P : event -> Prop) (f : A -> io B) (l : list A) :
  (forall x, Forall P (fst (f x))) -> Forall P (fst (io_map f l)).
Proof.
  intros Hf. induction l as [|x l IH]; [constructor|].
  cbn [io_map]. apply io_bind_trace; [apply Hf|]. intros y.
  apply io_bind_trace; [exact IH|]. intros ys. constructor.
Qed.

Lemma Forall2_nth_error {A B} (P : A -> B -> Prop) (l : list A)
  (l' : list B) :
  Forall2 P l l' ->
  forall j y, nth_error l' j = Some y ->
              exists x, nth_error l j = Some x /\ P x y.
Proof.
  induction 1 as [|x y l l' Hxy _ IH]; intros j z Hj.
  - destruct j; discriminate.
  - destruct j as [|j]; simpl in *; [injection Hj as <-; eauto | eauto].
Qed.

Lemma nth_error_enumerate {A} (l : list A) : forall s j,
  nth_error (combine (seq s (length l)) l) j
  = option_map (fun x => ((s + j)%nat, x)) (nth_error l j).
Proof.
  induction l as [|x l IH]; intros s j; simpl.
  - now destruct j.
  - destruct j as [|j]; simpl; [now rewrite Nat.add_0_r|].
    rewrite IH. now rewrite Nat.add_succ_r.
Qed.

Lemma map_snd_enumerate {A} (l : list A) : map snd (enumerate l) = l.
Proof.
  unfold enumerate. generalize 0%nat.
  induction l as [|x l IH]; intros s; simpl; [reflexivity | now rewrite IH].
Qed.

Section World.

Variable fs : filesystem.
Variable read_csv : str -> result DataFrame.
Variable mps_load_fasta_entries : str -> result (list str * list str).
Variables pdb_files csv_files faa_files : list str.
Variable gathered : list Row -> list Row.

Lemma at_index_nth_error {A} (l : list A) (j : nat) :
  (if (j <? length l)%nat then nth_error l j <> None
   else nth_error l j = None).
Proof.
  destruct (j <? length l)%nat eqn:E.
  - apply Nat.ltb_lt in E. now apply nth_error_Some.
  - apply Nat.ltb_ge in E. now apply nth_error_None.
Qed.

(** What [_process_entry] does, by what the two matched lists hold at
    [j]. *)
Lemma process_entry_cases (j : nat) (entry description faa_file : str)
  (mp mc : list str) :
  _process_entry fs read_csv (j, entry, description, faa_file, mp, mc)
  = io_bind
      (match nth_error mp j with
       | Some p =>
           ([OpenRead p],
            match read_text fs p with
            | Ok text => Ok (Some text)
            | Raise e => Raise e
            end)
       | None => ([], Ok None)
       end)
      (fun pdb_str =>
         io_bind
           (match nth_error mc j with
            | Some p => ([ReadCsv p], read_csv p)
            | None => ([], Ok DataFrame_empty)
            end)
           (fun df =>
              io_bind (lift (_safe_first df (str_of "pTM_Score") NaN))
                (fun ptm =>
                   io_bind
                     (lift (_safe_first df (str_of "pLDDT_Score") NaN))
                     (fun plddt =>
                        ret {| Description := description;
                               Sequence := entry;
                               pTM_Score := ptm;
                               pLDDT_Score := plddt;
                               PDB := pdb_str;
                               FAA_File := faa_file |})))).
Proof.
  unfold _process_entry, at_index.
  pose proof (at_index_nth_error mp j) as Hp.
  pose proof (at_index_nth_error mc j) as Hc.
  destruct (j <? length mp)%nat, (nth_error mp j) as [p|];
    try congruence;
    destruct (j <? length mc)%nat, (nth_error mc j) as [c|];
    try congruence;
    cbn [io_bind lift emit ret app];
    try destruct (read_text fs p); cbn [io_bind lift emit ret app];
    try destruct (read_csv c); reflexivity.
Qed.

Lemma process_entry_inv (j : nat) (entry description faa_file : str)
  (mp mc : list str) (t : list event) (r : Row) :
  _process_entry fs read_csv (j, entry, description, faa_file, mp, mc)
  = (t, Ok r) ->
  row_entry r = (entry, description, faa_file) /\
  structure_of fs mp j r /\ scores_of read_csv mc j r.
Proof.
  rewrite process_entry_cases. unfold structure_of, scores_of. intros H.
  apply io_bind_ok in H as (t1 & pdb_str & t2 & Hs & H & _).
  apply io_bind_ok in H as (t3 & df & t4 & Hd & H & _).
  apply io_bind_ok in H as (t5 & ptm & t6 & Hptm & H & _).
  apply io_bind_ok in H as (t7 & plddt & t8 & Hplddt & H & _).
  unfold lift, ret in *.
  inversion H as [[Ht8 Hr]]. inversion Hptm as [[Ht5 Hptm']].
  inversion Hplddt as [[Ht7 Hplddt']]. clear H Hptm Hplddt.
  cbn [PDB pTM_Score pLDDT_Score].
  split; [reflexivity|]. split.
  - destruct (nth_error mp j) as [p|]; cbn [option_map].
    + destruct (read_text fs p) as [text|e]; inversion Hs. reflexivity.
    + inversion Hs. reflexivity.
  - destruct (nth_error mc j) as [p|].
    + inversion Hd as [[Ht3 Hd']]. exists df. auto.
    + inversion Hd as [[Ht3 Hd']]. subst df.
      unfold _safe_first in Hptm', Hplddt'. simpl in Hptm', Hplddt'.
      split; congruence.
Qed.

Lemma process_entry_total (j : nat) (entry description faa_file : str)
  (mp mc : list str) :
  (forall p, nth_error mp j = Some p ->
             exists text, read_text fs p = Ok text) ->
  (forall p, nth_error mc j = Some p ->
             exists df, read_csv p = Ok df /\ well_formed df) ->
  exists t r,
    _process_entry fs read_csv (j, entry, description, faa_file, mp, mc)
    = (t, Ok r).
Proof.
  intros Hp Hc. rewrite process_entry_cases.
  assert (Hfin : forall (t1 t2 : list event) (pdb_str : option str)
                        (df : DataFrame),
             well_formed df ->
             exists t r,
               io_bind (t1, Ok pdb_str)
                 (fun pdb_str =>
                    io_bind (t2, Ok df)
                      (fun df =>
                         io_bind
                           (lift (_safe_first df (str_of "pTM_Score") NaN))
                           (fun ptm =>
                              io_bind
                                (lift (_safe_first df (str_of "pLDDT_Score")
                                         NaN))
                                (fun plddt =>
                                   ret {| Description := description;
                                          Sequence := entry;
                                          pTM_Score := ptm;
                                          pLDDT_Score := plddt;
                                          PDB := pdb_str;
                                          FAA_File := faa_file |}))))
               = (t, Ok r)).
  { intros t1 t2 pdb_str df Hwf.
    destruct (safe_first_total df (str_of "pTM_Score") NaN Hwf)
      as (ptm & Hptm).
    destruct (safe_first_total df (str_of "pLDDT_Score") NaN Hwf)
      as (plddt & Hplddt).
    cbn [io_bind lift ret app]. rewrite Hptm. cbn [io_bind lift ret app].
    rewrite Hplddt. cbn [io_bind lift ret app]. eauto. }
  assert (Hempty : well_formed DataFrame_empty) by (split; constructor).
  destruct (nth_error mp j) as [p|];
    [destruct (Hp p eq_refl) as (text & ->)|];
    (destruct (nth_error mc j) as [c|];
     [destruct (Hc c eq_refl) as (df & -> & Hwf)|]);
    now apply Hfin.
Qed.

Lemma process_entry_trace (item : entry_item) :
  Forall (fun e => is_to_csv e = false) (fst (_process_entry fs read_csv item)).
Proof.
  destruct item as [[[[[j entry] description] faa_file] mp] mc].
  rewrite process_entry_cases.
  apply io_bind_trace.
  - destruct (nth_error mp j); repeat constructor.
  - intros pdb_str. apply io_bind_trace.
    + destruct (nth_error mc j); repeat constructor.
    + intros df. apply io_bind_trace; [constructor|]. intros ptm.
      apply io_bind_trace; [constructor|]. intros plddt. constructor.
Qed.

(** The rows of one sequence file, when its processing returns:
    [computed] are the rows in the order of the entries, before the pool
    hands them back. *)
Lemma process_faa_item_inv (i : nat) (faa_file : str)
  (entries descriptions : list str) (t : list event) (rows : list Row) :
  mps_load_fasta_entries faa_file = Ok (entries, descriptions) ->
  _process_faa_item fs read_csv mps_load_fasta_entries
    pdb_files csv_files faa_files gathered (i, faa_file) = (t, Ok rows) ->
  exists computed,
    rows = match entries with
           | [] => computed
           | _ => gathered computed
           end /\
    map row_entry computed
    = map (fun ed => (fst ed, snd ed, faa_file))
        (combine entries descriptions) /\
    (entries <> [] ->
     exists mp mc,
       matching_files (pattern_pdb i) key_pattern_pdb pdb_files = Ok mp /\
       matching_files (pattern_csv i) key_pattern_csv csv_files = Ok mc /\
       forall j r,
         nth_error computed j = Some r ->
         structure_of fs mp j r /\ scores_of read_csv mc j r).
Proof.
  intros Hload. unfold _process_faa_item.
  cbn [io_bind emit lift app]. rewrite Hload. cbn [io_bind emit lift app].
  destruct entries as [|entry entries].
  - intros H. injection H as _ <-. exists [].
    split; [reflexivity|]. split; [reflexivity | congruence].
  - set (es := entry :: entries).
    destruct (matching_files (pattern_pdb i) key_pattern_pdb pdb_files)
      as [mp|e]; cbn [io_bind lift app]; [|discriminate].
    destruct (matching_files (pattern_csv i) key_pattern_csv csv_files)
      as [mc|e]; cbn [io_bind lift app]; [|discriminate].
    unfold mp_calc.
    destruct (io_map _ _) as [t1 [chunked|e]] eqn:Hmap;
      cbn [io_bind print emit ret app]; [|discriminate].
    intros H. injection H as _ <-.
    apply io_map_ok in Hmap.
    assert (Hrows : Forall2
              (fun (x : nat * (str * str)) r =>
                 row_entry r = (fst (snd x), snd (snd x), faa_file) /\
                 structure_of fs mp (fst x) r /\
                 scores_of read_csv mc (fst x) r)
              (enumerate (combine es descriptions)) chunked).
    { clear - Hmap. revert Hmap.
      generalize (enumerate (combine es descriptions)). intros l.
      revert chunked. induction l as [|[j [e d]] l IH]; intros chunked H;
        inversion H as [|x r l1 l2 (t' & Hx) Hl]; subst; constructor.
      - now apply process_entry_inv in Hx.
      - now apply IH. }
    exists chunked. split; [reflexivity|]. split.
    + transitivity
        (map (fun x : nat * (str * str) =>
                (fst (snd x), snd (snd x), faa_file))
           (enumerate (combine es descriptions))).
      * clear - Hrows.
        induction Hrows as [|x r l rs (Hr & _) _ IH]; [reflexivity|].
        simpl. now rewrite Hr, IH.
      * rewrite <- (map_map snd (fun ed : str * str =>
                                   (fst ed, snd ed, faa_file))).
        now rewrite map_snd_enumerate.
    + intros _. exists mp, mc. split; [reflexivity|]. split; [reflexivity|].
      intros j r Hj.
      destruct (Forall2_nth_error _ _ _ Hrows j r Hj) as (x & Hx & _ & Hs & Hc).
      unfold enumerate in Hx. rewrite nth_error_enumerate in Hx.
      destruct (nth_error (combine es descriptions) j); [|discriminate].
      injection Hx as <-. auto.
Qed.

(** When the pool hands back every row once, the rows of a sequence file
    are the computed rows in some order. *)
Lemma process_faa_item_gathered (i : nat) (faa_file : str)
  (entries descriptions : list str) (t : list event) (rows : list Row) :
  (forall l, Permutation l (gathered l)) ->
  mps_load_fasta_entries faa_file = Ok (entries, descriptions) ->
  _process_faa_item fs read_csv mps_load_fasta_entries
    pdb_files csv_files faa_files gathered (i, faa_file) = (t, Ok rows) ->
  exists computed,
    Permutation computed rows /\
    map row_entry computed
    = map (fun ed => (fst ed, snd ed, faa_file))
        (combine entries descriptions) /\
    (entries <> [] ->
     exists mp mc,
       matching_files (pattern_pdb i) key_pattern_pdb pdb_files = Ok mp /\
       matching_files (pattern_csv i) key_pattern_csv csv_files = Ok mc /\
       forall j r,
         nth_error computed j = Some r ->
         structure_of fs mp j r /\ scores_of read_csv mc j r).
Proof.
  intros Hperm Hload Hrun.
  destruct (process_faa_item_inv i faa_file entries descriptions t rows
              Hload Hrun) as (computed & Hrows & Hentries & Hpair).
  exists computed. split; [|now split].
  subst rows. destruct entries; [reflexivity | apply Hperm].
Qed.

Lemma process_faa_item_loads (item : nat * str) (t : list event)
  (rows : list Row) :
  _process_faa_item fs read_csv mps_load_fasta_entries
    pdb_files csv_files faa_files gathered item = (t, Ok rows) ->
  exists entries descriptions,
    mps_load_fasta_entries (snd item) = Ok (entries, descriptions).
Proof.
  destruct item as [i faa_file]. unfold _process_faa_item.
  cbn [io_bind emit lift app snd].
  destruct (mps_load_fasta_entries faa_file) as [[entries descriptions]|e];
    [eauto | discriminate].
Qed.

Lemma process_faa_item_trace (item : nat * str) :
  Forall (fun e => is_to_csv e = false)
    (fst (_process_faa_item fs read_csv mps_load_fasta_entries
            pdb_files csv_files faa_files gathered item)).
Proof.
  destruct item as [i faa_file]. unfold _process_faa_item.
  apply io_bind_trace; [repeat constructor|]. intros _.
  apply io_bind_trace; [constructor|]. intros [entries descriptions].
  destruct entries as [|entry entries]; [constructor|].
  apply io_bind_trace; [constructor|]. intros mp.
  apply io_bind_trace; [constructor|]. intros mc.
  apply io_bind_trace.
  { unfold mp_calc.
    apply io_bind_trace; [apply io_map_trace, process_entry_trace|].
    intros results. constructor. }
  intros chunked. apply io_bind_trace; repeat constructor.
Qed.

Lemma process_faa_item_total (i : nat) (faa_file : str)
  (entries descriptions mp mc : list str) :
  mps_load_fasta_entries faa_file = Ok (entries, descriptions) ->
  matching_files (pattern_pdb i) key_pattern_pdb pdb_files = Ok mp ->
  matching_files (pattern_csv i) key_pattern_csv csv_files = Ok mc ->
  (forall p, In p mp -> exists text, read_text fs p = Ok text) ->
  (forall p, In p mc -> exists df, read_csv p = Ok df /\ well_formed df) ->
  exists t rows,
    _process_faa_item fs read_csv mps_load_fasta_entries
      pdb_files csv_files faa_files gathered (i, faa_file) = (t, Ok rows).
Proof.
  intros Hload Hmp Hmc Hp Hc. unfold _process_faa_item.
  cbn [io_bind emit lift app]. rewrite Hload. cbn [io_bind emit lift app].
  destruct entries as [|entry entries]; [cbn; eauto|].
  rewrite Hmp. cbn [io_bind lift app]. rewrite Hmc. cbn [io_bind lift app].
  unfold mp_calc.
  destruct (io_map_total (_process_entry fs read_csv)
              (map (fun e : nat * (str * str) =>
                      let '(j, (entry0, description)) := e in
                      (j, entry0, description, faa_file, mp, mc))
                 (enumerate (combine (entry :: entries) descriptions))))
    as (t1 & chunked & ->).
  { intros x Hx. apply in_map_iff in Hx as ([j [e d]] & <- & _).
    apply process_entry_total.
    - intros p Hj. apply Hp. now apply nth_error_In in Hj.
    - intros p Hj. apply Hc. now apply nth_error_In in Hj. }
  cbn [io_bind print emit ret app]. eauto.
Qed.

End World.

(** X14: when the pool hands back every row once, in whatever order,
    and the processing of a sequence file returns, its rows are, in some
    order, the rows computed for the entries of the file, one for each
    entry: the row computed for entry [j] has the sequence and the
    description of entry [j] and the path of the file, and takes its
    structure from the [j]-th matched structure file and its scores from
    the [j]-th matched score file, in key order: by position, not by the
    value of the key. *)
Theorem process_faa_item_rows (fs : filesystem)
  (read_csv : str -> result DataFrame)
  (mps_load_fasta_entries : str -> result (list str * list str))
  (pdb_files csv_files faa_files : list str)
  (gathered : list Row -> list Row)
  (i : nat) (faa_file : str)
  (entries descriptions : list str) (t : list event) (rows : list Row) :
  (forall l, Permutation l (gathered l)) ->
  mps_load_fasta_entries faa_file = Ok (entries, descriptions) ->
  _process_faa_item fs read_csv mps_load_fasta_entries
    pdb_files csv_files faa_files gathered (i, faa_file) = (t, Ok rows) ->
  exists computed,
    Permutation computed rows /\
    map row_entry computed
    = map (fun ed => (fst ed, snd ed, faa_file))
        (combine entries descriptions) /\
    (entries <> [] ->
     exists mp mc,
       matching_files (pattern_pdb i) key_pattern_pdb pdb_files = Ok mp /\
       matching_files (pattern_csv i) key_pattern_csv csv_files = Ok mc /\
       forall j r,
         nth_error computed j = Some r ->
         structure_of fs mp j r /\ scores_of read_csv mc j r).
Proof. apply process_faa_item_gathered. Qed.

Lemma last_first_gathers (l : list Row) : Permutation l (last_first l).
Proof. apply Permutation_rev. Qed.

Lemma process_faa_item_rows_witness :
  (forall l, Permutation l (last_first l)) /\
  sample_load sample_faa
  = Ok ([str_of "MKV"; str_of "LLT"], [str_of "a"; str_of "b"]) /\
  exists t rows,
    _process_faa_item sample_world sample_read_csv sample_load
      sample_pdb_files sample_csv_files [sample_faa] last_first
      (0%nat, sample_faa)
    = (t, Ok rows) /\
    map row_entry rows
    = [(str_of "LLT", str_of "b", sample_faa);
       (str_of "MKV", str_of "a", sample_faa)] /\
    exists computed,
      Permutation computed rows /\
      map row_entry computed
      = [(str_of "MKV", str_of "a", sample_faa);
         (str_of "LLT", str_of "b", sample_faa)] /\
      ([str_of "MKV"; str_of "LLT"] <> [] ->
       exists mp mc,
         matching_files (pattern_pdb 0) key_pattern_pdb sample_pdb_files
         = Ok mp /\
         matching_files (pattern_csv 0) key_pattern_csv sample_csv_files
         = Ok mc /\
         forall j r,
           nth_error computed j = Some r ->
           structure_of sample_world mp j r /\
           scores_of sample_read_csv mc j r).
Proof.
  split; [exact last_first_gathers|]. split; [reflexivity|].
  do 2 eexists. split; [reflexivity|]. split; [reflexivity|].
  eapply (process_faa_item_rows sample_world sample_read_csv sample_load
           sample_pdb_files sample_csv_files [sample_faa] last_first
           0 sample_faa
           [str_of "MKV"; str_of "LLT"] [str_of "a"; str_of "b"]);
    [exact last_first_gathers | reflexivity | reflexivity].
Defined.

Lemma nth_error_artifacts (d lead ext : str) (i : nat) : forall n s j,
  nth_error (map (fun e => artifact_name d lead ext e i) (seq s n)) j
  = if (j <? n)%nat then Some (artifact_name d lead ext (s + j) i)
    else None.
Proof.
  induction n as [|n IH]; intros s j; simpl.
  - now destruct j.
  - destruct j as [|j]; simpl; [now rewrite Nat.add_0_r|].
    rewrite IH, Nat.add_succ_r. reflexivity.
Qed.

Lemma artifacts_in (d lead ext : str) (n i : nat) (p : str) :
  In p (artifacts_of d lead ext n i) ->
  exists e, (e < n)%nat /\ p = artifact_name d lead ext e i.
Proof.
  unfold artifacts_of. intros H.
  apply in_map_iff in H as (e & <- & He). apply in_seq in He.
  exists e. split; [lia | reflexivity].
Qed.

(** X15: when both pools are complete and named by the convention, in
    any order, the artifacts of sequence file [i] can be read, and the
    pool hands back every row once, the processing of that file returns,
    in some order, one row per entry, and the row computed for entry [j]
    holds the structure and the scores of entry [j]'s own artifacts;
    entries beyond the artifacts of the file get the absent values. *)
Theorem process_faa_item_complete_pool (fs : filesystem)
  (read_csv : str -> result DataFrame)
  (mps_load_fasta_entries : str -> result (list str * list str))
  (pdb_files csv_files faa_files : list str)
  (gathered : list Row -> list Row)
  (dir : nat -> str) (count : nat -> nat) (m i : nat) (faa_file : str)
  (entries descriptions : list str) :
  (forall l, Permutation l (gathered l)) ->
  (i < m)%nat ->
  Permutation pdb_files
    (complete_pool dir (str_of "folded_") (str_of "pdb") count m) ->
  Permutation csv_files
    (complete_pool dir (str_of "tmp_") (str_of "csv") count m) ->
  mps_load_fasta_entries faa_file = Ok (entries, descriptions) ->
  (forall e, (e < count i)%nat ->
     exists text,
       read_text fs (artifact_name (dir i) (str_of "folded_") (str_of "pdb")
                       e i) = Ok text) ->
  (forall e, (e < count i)%nat ->
     exists df,
       read_csv (artifact_name (dir i) (str_of "tmp_") (str_of "csv") e i)
       = Ok df /\ well_formed df) ->
  exists t rows computed,
    _process_faa_item fs read_csv mps_load_fasta_entries
      pdb_files csv_files faa_files gathered (i, faa_file) = (t, Ok rows) /\
    Permutation computed rows /\
    map row_entry computed
    = map (fun ed => (fst ed, snd ed, faa_file))
        (combine entries descriptions) /\
    forall j r,
      nth_error computed j = Some r ->
      ((j < count i)%nat ->
       (exists text,
          read_text fs (artifact_name (dir i) (str_of "folded_")
                          (str_of "pdb") j i) = Ok text /\
          PDB r = Some text) /\
       (exists df,
          read_csv (artifact_name (dir i) (str_of "tmp_") (str_of "csv") j i)
          = Ok df /\
          _safe_first df (str_of "pTM_Score") NaN = Ok (pTM_Score r) /\
          _safe_first df (str_of "pLDDT_Score") NaN = Ok (pLDDT_Score r))) /\
      ((count i <= j)%nat ->
       PDB r = None /\ pTM_Score r = NaN /\ pLDDT_Score r = NaN).
Proof.
  intros Hperm Hi Hpdb Hcsv Hload Hread Hscores.
  pose proof (proj1 (matching_files_pools dir count m i pdb_files csv_files
                       Hi) Hpdb) as Hmp.
  pose proof (proj2 (matching_files_pools dir count m i pdb_files csv_files
                       Hi) Hcsv) as Hmc.
  destruct (process_faa_item_total fs read_csv mps_load_fasta_entries
              pdb_files csv_files faa_files gathered i faa_file entries
              descriptions _ _ Hload Hmp Hmc) as (t & rows & Hrun).
  { intros p Hin. apply artifacts_in in Hin as (e & He & ->). auto. }
  { intros p Hin. apply artifacts_in in Hin as (e & He & ->). auto. }
  destruct (process_faa_item_gathered fs read_csv mps_load_fasta_entries
              pdb_files csv_files faa_files gathered i faa_file entries
              descriptions t rows Hperm Hload Hrun)
    as (computed & Hsome & Hrows & Hpair).
  exists t, rows, computed. split; [exact Hrun|]. split; [exact Hsome|].
  split; [exact Hrows|]. intros j r Hj.
  assert (Hne : entries <> []).
  { intros ->. simpl in Hrows. destruct computed; [|discriminate].
    destruct j; discriminate. }
  destruct (Hpair Hne) as (mp & mc & Hmp' & Hmc' & Hall).
  rewrite Hmp in Hmp'. rewrite Hmc in Hmc'.
  injection Hmp' as <-. injection Hmc' as <-.
  destruct (Hall j r Hj) as [Hs Hc].
  unfold structure_of, scores_of, artifacts_of in Hs, Hc.
  rewrite nth_error_artifacts in Hs, Hc. simpl (0 + j)%nat in Hs, Hc.
  split.
  - intros Hlt. apply Nat.ltb_lt in Hlt. rewrite Hlt in Hs, Hc.
    split; [|exact Hc]. cbn [option_map] in Hs.
    destruct (PDB r) as [text|]; [|discriminate].
    exists text. injection Hs as Hs. auto.
  - intros Hge. apply Nat.ltb_ge in Hge. rewrite Hge in Hs, Hc.
    cbn [option_map] in Hs. destruct (PDB r); [discriminate|].
    destruct Hc. auto.
Qed.

Lemma scanned_csv_files_complete :
  Permutation scanned_csv_files
    (complete_pool sample_dir (str_of "tmp_") (str_of "csv") sample_count 2).
Proof.
  unfold scanned_csv_files.
  apply (Permutation_cons_app [str_of "F0/tmp_0_0.csv"]
           [str_of "F0/tmp_2_0.csv"; str_of "F1/tmp_0_1.csv";
            str_of "F1/tmp_1_1.csv"]).
  apply (Permutation_cons_app
           [str_of "F0/tmp_0_0.csv"; str_of "F0/tmp_2_0.csv"]
           [str_of "F1/tmp_1_1.csv"]).
  apply (Permutation_cons_app []
           [str_of "F0/tmp_2_0.csv"; str_of "F1/tmp_1_1.csv"]).
  apply perm_swap.
Qed.

Lemma pool_world_readable (e : nat) :
  (e < sample_count 0)%nat ->
  exists text,
    read_text pool_world
      (artifact_name (sample_dir 0) (str_of "folded_") (str_of "pdb") e 0)
    = Ok text.
Proof.
  destruct e as [|[|[|e]]]; intros H; [eexists; reflexivity ..|].
  simpl in H. lia.
Qed.

Lemma sample_read_csv_well_formed (e : nat) :
  (e < sample_count 0)%nat ->
  exists df,
    sample_read_csv
      (artifact_name (sample_dir 0) (str_of "tmp_") (str_of "csv") e 0)
    = Ok df /\ well_formed df.
Proof.
  intros _. exists sample_scores.
  split; [reflexivity | exact well_formed_sample_scores].
Qed.

Lemma process_faa_item_complete_pool_witness :
  (forall l, Permutation l (last_first l)) /\
  (0 < 2)%nat /\
  pool_load sample_faa
  = Ok ([str_of "MKV"; str_of "LLT"], [str_of "a"; str_of "b"]) /\
  exists t rows computed,
    _process_faa_item pool_world sample_read_csv pool_load
      scanned_pdb_files scanned_csv_files [sample_faa] last_first
      (0%nat, sample_faa)
    = (t, Ok rows) /\
    Permutation computed rows /\
    map row_entry computed
    = [(str_of "MKV", str_of "a", sample_faa);
       (str_of "LLT", str_of "b", sample_faa)] /\
    forall j r,
      nth_error computed j = Some r ->
      ((j < sample_count 0)%nat ->
       (exists text,
          read_text pool_world
            (artifact_name (sample_dir 0) (str_of "folded_") (str_of "pdb")
               j 0) = Ok text /\
          PDB r = Some text) /\
       (exists df,
          sample_read_csv
            (artifact_name (sample_dir 0) (str_of "tmp_") (str_of "csv") j 0)
          = Ok df /\
          _safe_first df (str_of "pTM_Score") NaN = Ok (pTM_Score r) /\
          _safe_first df (str_of "pLDDT_Score") NaN = Ok (pLDDT_Score r))) /\
      ((sample_count 0 <= j)%nat ->
       PDB r = None /\ pTM_Score r = NaN /\ pLDDT_Score r = NaN).
Proof.
  split; [exact last_first_gathers|]. split; [lia|]. split; [reflexivity|].
  apply (process_faa_item_complete_pool pool_world sample_read_csv pool_load
           scanned_pdb_files scanned_csv_files [sample_faa] last_first
           sample_dir sample_count 2 0 sample_faa
           [str_of "MKV"; str_of "LLT"] [str_of "a"; str_of "b"]).
  - exact last_first_gathers.
  - lia.
  - exact scanned_pdb_files_complete.
  - exact scanned_csv_files_complete.
  - reflexivity.
  - exact pool_world_readable.
  - exact sample_read_csv_well_formed.
Defined.

Lemma filter_none {A} (p : A -> bool) (l : list A) :
  Forall (fun x => p x = false) l -> filter p l = [].
Proof.
  induction 1 as [|x l Hx _ IH]; simpl; [reflexivity | now rewrite Hx].
Qed.

Lemma Permutation_concat {A} (l l' : list (list A)) :
  Forall2 (@Permutation A) l l' -> Permutation (concat l) (concat l').
Proof.
  induction 1 as [|x y l l' Hxy _ IH]; [constructor|].
  cbn [concat]. now apply Permutation_app.
Qed.

(** X16: when the pool hands back every row once and the collection run
    returns, the two pools have the same size and the rows come file by
    file, in the order of the scan: the part of a sequence file holds, in
    some order, one row for each of its entries.  So every entry of every
    sequence file has exactly one row. *)
Theorem main_rows (fs : filesystem) (read_csv : str -> result DataFrame)
  (mps_load_fasta_entries : str -> result (list str * list str))
  (pdb_files csv_files faa_files : list str)
  (gathered : list Row -> list Row)
  (to_csv : list Row -> str -> result unit) (cwd : str)
  (t : list event) (rows : list Row) :
  (forall l, Permutation l (gathered l)) ->
  main fs read_csv mps_load_fasta_entries pdb_files csv_files faa_files
    gathered to_csv cwd
  = (t, Ok rows) ->
  length pdb_files = length csv_files /\
  (exists chunks,
     rows = concat chunks /\
     Forall2
       (fun faa_file chunk =>
          Permutation (file_entries mps_load_fasta_entries faa_file)
            (map row_entry chunk))
       faa_files chunks) /\
  Permutation (flat_map (file_entries mps_load_fasta_entries) faa_files)
    (map row_entry rows).
Proof.
  intros Hperm. unfold main. cbn [io_bind print emit app].
  destruct (length pdb_files =? length csv_files)%nat eqn:E;
    cbn [negb]; [|discriminate].
  apply Nat.eqb_eq in E. intros H. split; [exact E|].
  destruct (io_map _ (enumerate faa_files)) as [t1 [chunks|e]] eqn:Hmap;
    cbn [io_bind print emit ret lift app] in H; [|discriminate].
  destruct (to_csv (concat chunks) _) as [[]|e];
    cbn [io_bind print emit ret lift app] in H; [|discriminate].
  injection H as _ <-. apply io_map_ok in Hmap.
  assert (Hparts : Forall2
            (fun faa_file chunk =>
               Permutation (file_entries mps_load_fasta_entries faa_file)
                 (map row_entry chunk))
            (map snd (enumerate faa_files)) chunks).
  { induction Hmap as [|[i faa] chunk l chunks (t' & Hrun) _ IH];
      [constructor|].
    cbn [map snd]. constructor; [|exact IH].
    destruct (process_faa_item_loads _ _ _ _ _ _ _ _ _ _ Hrun)
      as (entries & descriptions & Hload).
    cbn [snd] in Hload.
    destruct (process_faa_item_gathered _ _ _ _ _ _ _ _ _ _ _ _ _
                Hperm Hload Hrun) as (computed & Hsome & Hrows & _).
    unfold file_entries. rewrite Hload, <- Hrows.
    now apply Permutation_map. }
  rewrite map_snd_enumerate in Hparts.
  split; [now exists chunks|].
  rewrite concat_map, flat_map_concat_map.
  apply Permutation_concat.
  clear - Hparts. induction Hparts; constructor; auto.
Qed.

Lemma main_rows_witness :
  (forall l, Permutation l (last_first l)) /\
  exists t rows,
    main sample_world sample_read_csv sample_load
      sample_pdb_files sample_csv_files [sample_faa] last_first
      table_written (str_of "/work")
    = (t, Ok rows) /\
    map row_entry rows
    = [(str_of "LLT", str_of "b", sample_faa);
       (str_of "MKV", str_of "a", sample_faa)] /\
    length sample_pdb_files = length sample_csv_files /\
    (exists chunks,
       rows = concat chunks /\
       Forall2
         (fun faa_file chunk =>
            Permutation (file_entries sample_load faa_file)
              (map row_entry chunk))
         [sample_faa] chunks) /\
    Permutation (flat_map (file_entries sample_load) [sample_faa])
      (map row_entry rows).
Proof.
  split; [exact last_first_gathers|].
  do 2 eexists. split; [reflexivity|]. split; [reflexivity|].
  eapply (main_rows sample_world sample_read_csv sample_load
            sample_pdb_files sample_csv_files [sample_faa] last_first
            table_written (str_of "/work"));
    [exact last_first_gathers | reflexivity].
Defined.

(** X17: a collection run that returns has written the table, once, and
    the write succeeded; a run that raises either has not touched the
    table, or has begun to write it, once, and raises the error of that
    write.  So a run that fails before the end leaves no partial table. *)
Theorem main_writes_table_on_return (fs : filesystem)
  (read_csv : str -> result DataFrame)
  (mps_load_fasta_entries : str -> result (list str * list str))
  (pdb_files csv_files faa_files : list str)
  (gathered : list Row -> list Row)
  (to_csv : list Row -> str -> result unit) (cwd : str)
  (t : list event) (outcome : result (list Row)) :
  main fs read_csv mps_load_fasta_entries pdb_files csv_files faa_files
    gathered to_csv cwd
  = (t, outcome) ->
  match outcome with
  | Ok rows =>
      filter is_to_csv t = [ToCsv (str_of "collected_results.csv.gz")] /\
      to_csv rows (str_of "collected_results.csv.gz") = Ok tt
  | Raise e =>
      filter is_to_csv t = [] \/
      (filter is_to_csv t = [ToCsv (str_of "collected_results.csv.gz")] /\
       exists rows,
         to_csv rows (str_of "collected_results.csv.gz") = Raise e)
  end.
Proof.
  unfold main. cbn [io_bind print emit app].
  destruct (length pdb_files =? length csv_files)%nat; cbn [negb].
  - pose proof (io_map_trace (fun e => is_to_csv e = false)
                  (_process_faa_item fs read_csv mps_load_fasta_entries
                     pdb_files csv_files faa_files gathered)
                  (enumerate faa_files)
                  (process_faa_item_trace fs read_csv mps_load_fasta_entries
                     pdb_files csv_files faa_files gathered)) as Ht.
    destruct (io_map _ (enumerate faa_files)) as [t1 [chunks|e]];
      cbn [io_bind print emit ret lift app fst] in *.
    + change (str_of "collected_results" ++ str_of ".csv.gz")
        with (str_of "collected_results.csv.gz").
      destruct (to_csv (concat chunks) (str_of "collected_results.csv.gz"))
        as [[]|e] eqn:Hw;
        cbn [io_bind print emit ret lift app];
        intros H; injection H as <- <-; cbn [filter is_to_csv];
        rewrite ?filter_app, (filter_none _ _ Ht); cbn [filter is_to_csv app].
      * now split.
      * right. split; [reflexivity|]. now exists (concat chunks).
    + intros H. injection H as <- <-. left. cbn [filter is_to_csv].
      now rewrite (filter_none _ _ Ht).
  - intros H. injection H as <- <-. now left.
Qed.

Lemma main_writes_table_on_return_witness :
  exists t rows t' t'',
    main sample_world sample_read_csv sample_load
      sample_pdb_files sample_csv_files [sample_faa] in_turn table_written
      (str_of "/work")
    = (t, Ok rows) /\
    (filter is_to_csv t = [ToCsv (str_of "collected_results.csv.gz")] /\
     table_written rows (str_of "collected_results.csv.gz") = Ok tt) /\
    main sample_world sample_read_csv sample_load
      sample_pdb_files sample_csv_files [str_of "data/missing.faa"]
      in_turn table_written (str_of "/work")
    = (t', Raise FileNotFoundError) /\
    filter is_to_csv t' = [] /\
    main sample_world sample_read_csv sample_load
      sample_pdb_files sample_csv_files [sample_faa] in_turn table_refused
      (str_of "/work")
    = (t'', Raise PermissionError) /\
    filter is_to_csv t'' = [ToCsv (str_of "collected_results.csv.gz")].
Proof.
  do 4 eexists. split; [reflexivity|]. split.
  - eapply (main_writes_table_on_return sample_world sample_read_csv
              sample_load sample_pdb_files sample_csv_files [sample_faa]
              in_turn table_written (str_of "/work") _ (Ok _)).
    reflexivity.
  - split; [reflexivity|]. split; [reflexivity|].
    split; reflexivity.
Defined.

End Rows.

(* ================================================================== *)
(** * The submitter *)
(* ================================================================== *)

Section Submitter.

Import ArtifactNames SubmitterFold SubmitSamples.
Local Open Scope N_scope.

(** ** Folder names *)

Lemma int_of_decimal_zeros (k : nat) (s : str) :
  int_of_decimal (repeat ZERO k ++ s) = int_of_decimal s.
Proof.
  unfold int_of_decimal. rewrite fold_left_app.
  induction k as [|k IH]; [reflexivity | exact IH].
Qed.

Lemma format_03d_value (j : nat) : int_of_decimal (format_03d j) = N.of_nat j.
Proof. unfold format_03d. now rewrite int_of_decimal_zeros, int_of_str_nat. Qed.

Lemma format_03d_decimal (j : nat) :
  forallb is_decimal (format_03d j) = true.
Proof.
  unfold format_03d. rewrite forallb_app, str_nat_decimal, andb_true_r.
  induction (3 - length (str_nat j))%nat as [|k IH]; [reflexivity | exact IH].
Qed.

Lemma format_03d_length (j : nat) : (3 <= length (format_03d j))%nat.
Proof. unfold format_03d. rewrite length_app, repeat_length. lia. Qed.

Lemma format_03d_short (j : nat) :
  (j < 1000)%nat -> length (format_03d j) = 3%nat.
Proof.
  intros Hj.
  assert (H : forallb (fun k => Nat.eqb (length (format_03d k)) 3)
                (seq 0 1000) = true) by (vm_compute; reflexivity).
  rewrite forallb_forall in H. apply Nat.eqb_eq, H, in_seq. lia.
Qed.

Lemma folder_inj (j k : nat) : folder k = folder j -> k = j.
Proof.
  unfold folder. intros H. apply app_inv_head in H.
  apply (f_equal int_of_decimal) in H. rewrite !format_03d_value in H. lia.
Qed.

Lemma last_decimal (s pre : str) :
  number s -> endswith (pre ++ s) (str_of "/") = false.
Proof.
  intros [Hne Hd]. unfold endswith. rewrite rev_app_distr.
  destruct (rev s) as [|c r] eqn:E.
  - apply (f_equal (@rev char)) in E. rewrite rev_involutive in E.
    now destruct Hne.
  - assert (Hc : is_decimal c = true).
    { rewrite forallb_forall in Hd. apply Hd, in_rev. rewrite E. now left. }
    change (rev (str_of "/")) with [47]. cbn [app startswith].
    destruct (N.eqb_spec 47 c) as [<-|Hn]; [discriminate Hc | reflexivity].
Qed.

Lemma script_path (j : nat) :
  path_join (folder j) (str_of "sub_fold.sh")
  = folder j ++ str_of "/sub_fold.sh".
Proof.
  assert (He : endswith (folder j) (str_of "/") = false).
  { unfold folder, format_03d. rewrite app_assoc.
    apply last_decimal, str_nat_number. }
  unfold path_join. rewrite He.
  change (startswith (str_of "sub_fold.sh") (str_of "/")) with false.
  cbv iota. destruct (folder j) eqn:E; [discriminate E|].
  rewrite <- ?app_assoc. reflexivity.
Qed.

(** X18: the folder of sequence file [j] is [F] followed by at least three
    decimal digits whose value is [j]; below 1000 it has exactly three
    digits; and no two sequence files share a folder. *)
Theorem folder_names (j : nat) :
  (exists digits,
     folder j = str_of "F" ++ digits /\
     (3 <= length digits)%nat /\
     forallb is_decimal digits = true /\
     int_of_decimal digits = N.of_nat j) /\
  ((j < 1000)%nat -> length (folder j) = 4%nat) /\
  (forall k, folder k = folder j -> k = j).
Proof.
  split; [|split].
  - exists (format_03d j). split; [reflexivity|].
    split; [apply format_03d_length|].
    split; [apply format_03d_decimal | apply format_03d_value].
  - intros Hj. unfold folder. rewrite length_app, format_03d_short by exact Hj.
    reflexivity.
  - intros k. apply folder_inj.
Qed.

Lemma folder_names_witness :
  (7 < 1000)%nat /\ length (folder 7) = 4%nat /\
  (folder 7 = folder 7 -> 7 = 7)%nat.
Proof.
  split; [lia|].
  destruct (folder_names 7) as (_ & Hshort & Hdistinct).
  split; [apply Hshort; lia | apply Hdistinct].
Defined.

(** ** One turn of the loop *)

Section Surroundings.

Variable load : str -> result (list str * list str).
Variable path_exists : str -> bool.
Variable makedirs : str -> result unit.
Variable write_file : str -> str -> result unit.
Variable sub_file_data : nat -> nat -> str.

Lemma submit_ok (item : nat * str) :
  loads load (snd item) -> obliging makedirs write_file ->
  exists t,
    submit load path_exists makedirs write_file sub_file_data item
    = (t, Ok tt) /\
    commands t = commands_for item /\
    written t = [script_for load sub_file_data item] /\
    made t = new_folder path_exists item.
Proof.
  destruct item as [j file]. intros [[entries descs] Hl] [Hm Hw].
  unfold submit, script_for, new_folder, commands_for, entry_count.
  cbn [fst snd] in *. rewrite Hl.
  cbv beta iota zeta delta [run_bind lift print step fst].
  rewrite script_path, Hw.
  destruct (path_exists (folder j)); cbv beta iota zeta delta [negb];
    rewrite ?Hm; eexists; (split; [reflexivity|]); repeat split.
Qed.

Lemma submit_raise (item : nat * str) (e : exn) :
  load (snd item) = Raise e ->
  exists line,
    submit load path_exists makedirs write_file sub_file_data item
    = ([Print line], Raise e).
Proof.
  destruct item as [j file]. cbn [snd]. intros Hl.
  unfold submit. rewrite Hl. cbn. eexists. reflexivity.
Qed.

Lemma for_each_submit_ok (items : list (nat * str)) :
  Forall (fun item => loads load (snd item)) items ->
  obliging makedirs write_file ->
  exists t,
    for_each (submit load path_exists makedirs write_file sub_file_data)
      items = (t, Ok tt) /\
    commands t = flat_map commands_for items /\
    written t = map (script_for load sub_file_data) items /\
    made t = flat_map (new_folder path_exists) items.
Proof.
  intros Hall Hob. induction Hall as [|item rest Hi _ IH].
  - exists []. repeat split.
  - destruct (submit_ok item Hi Hob) as (t1 & E1 & C1 & W1 & M1).
    destruct IH as (t2 & E2 & C2 & W2 & M2).
    exists (t1 ++ t2). cbn [for_each]. unfold run_bind. rewrite E1, E2.
    split; [reflexivity|].
    unfold commands, written, made in *. rewrite !flat_map_app.
    rewrite C1, W1, M1, C2, W2, M2. repeat split.
Qed.

Lemma for_each_submit_stop (before after : list (nat * str))
  (item : nat * str) (e : exn) :
  Forall (fun item => loads load (snd item)) before ->
  load (snd item) = Raise e ->
  obliging makedirs write_file ->
  exists t,
    for_each (submit load path_exists makedirs write_file sub_file_data)
      (before ++ item :: after) = (t, Raise e) /\
    commands t = flat_map commands_for before /\
    written t = map (script_for load sub_file_data) before /\
    made t = flat_map (new_folder path_exists) before.
Proof.
  intros Hall Hi Hob. induction Hall as [|x rest Hx _ IH].
  - destruct (submit_raise item e Hi) as (line & E).
    exists [Print line]. cbn [app for_each]. unfold run_bind. rewrite E.
    repeat split.
  - destruct (submit_ok x Hx Hob) as (t1 & E1 & C1 & W1 & M1).
    destruct IH as (t2 & E2 & C2 & W2 & M2).
    exists (t1 ++ t2). cbn [app for_each]. unfold run_bind. rewrite E1, E2.
    split; [reflexivity|].
    unfold commands, written, made in *. rewrite !flat_map_app.
    rewrite C1, W1, M1, C2, W2, M2. repeat split.
Qed.

End Surroundings.

Lemma enumerate_loads (load : str -> result (list str * list str))
  (files : list str) :
  Forall (loads load) files ->
  Forall (fun item => loads load (snd item)) (Collector.enumerate files).
Proof.
  intros H. rewrite <- (map_snd_enumerate files) in H.
  now rewrite Forall_map in H.
Qed.

Lemma combine_seq_app {A} (before after : list A) : forall s : nat,
  combine (seq s (length (before ++ after))) (before ++ after)
  = combine (seq s (length before)) before
    ++ combine (seq (s + length before) (length after)) after.
Proof.
  induction before as [|x before IH]; intros s; cbn [app length seq combine].
  - now rewrite Nat.add_0_r.
  - rewrite IH, Nat.add_succ_r. reflexivity.
Qed.

Lemma enumerate_app {A} (before after : list A) :
  Collector.enumerate (before ++ after)
  = Collector.enumerate before
    ++ combine (seq (length before) (length after)) after.
Proof. unfold Collector.enumerate. now rewrite combine_seq_app. Qed.

(** X19: where every listed sequence file loads and directories and files
    can be made, the submitter ends normally and has, for each sequence
    file in the order of the listing, copied the task script into the
    folder of the file and submitted its job script there, written that
    job script for the number of entries of the file, and made the folder
    unless it was there.  A file without entries is submitted like any
    other. *)
Theorem main_submits_every_file
  (load : str -> result (list str * list str)) (path_exists : str -> bool)
  (makedirs : str -> result unit) (write_file : str -> str -> result unit)
  (sub_file_data : nat -> nat -> str) (files : list str) :
  Forall (loads load) files ->
  obliging makedirs write_file ->
  exists t,
    main load path_exists makedirs write_file sub_file_data files
    = (t, Ok tt) /\
    commands t = flat_map commands_for (Collector.enumerate files) /\
    written t
    = map (script_for load sub_file_data) (Collector.enumerate files) /\
    made t = flat_map (new_folder path_exists) (Collector.enumerate files).
Proof.
  intros Hall Hob. unfold main.
  apply for_each_submit_ok; [now apply enumerate_loads | exact Hob].
Qed.

Lemma main_submits_every_file_witness :
  Forall (loads sample_load) [str_of "data/a.faa"; str_of "data/b.faa"] /\
  obliging can_make can_write /\
  exists t,
    main sample_load sample_exists can_make can_write Gpu.sub_file_data
      [str_of "data/a.faa"; str_of "data/b.faa"] = (t, Ok tt) /\
    commands t
    = flat_map commands_for
        (Collector.enumerate [str_of "data/a.faa"; str_of "data/b.faa"]) /\
    written t
    = map (script_for sample_load Gpu.sub_file_data)
        (Collector.enumerate [str_of "data/a.faa"; str_of "data/b.faa"]) /\
    made t
    = flat_map (new_folder sample_exists)
        (Collector.enumerate [str_of "data/a.faa"; str_of "data/b.faa"]).
Proof.
  assert (Hl : Forall (loads sample_load)
                 [str_of "data/a.faa"; str_of "data/b.faa"]).
  { repeat constructor; eexists; reflexivity. }
  assert (Hob : obliging can_make can_write) by (split; reflexivity).
  split; [exact Hl|]. split; [exact Hob|].
  exact (main_submits_every_file sample_load sample_exists can_make
           can_write Gpu.sub_file_data _ Hl Hob).
Defined.

(** X20: where a listed sequence file fails to load, the submitter ends
    with the exception of the load; by then the jobs of the files listed
    before it have been submitted, and nothing has been made, written or
    submitted for the failing file or for the files after it. *)
Theorem main_stops_at_failed_load
  (load : str -> result (list str * list str)) (path_exists : str -> bool)
  (makedirs : str -> result unit) (write_file : str -> str -> result unit)
  (sub_file_data : nat -> nat -> str) (before after : list str)
  (file : str) (e : exn) :
  Forall (loads load) before ->
  load file = Raise e ->
  obliging makedirs write_file ->
  exists t,
    main load path_exists makedirs write_file sub_file_data
      (before ++ file :: after) = (t, Raise e) /\
    commands t = flat_map commands_for (Collector.enumerate before) /\
    written t
    = map (script_for load sub_file_data) (Collector.enumerate before) /\
    made t = flat_map (new_folder path_exists) (Collector.enumerate before).
Proof.
  intros Hall Hf Hob. unfold main. rewrite enumerate_app.
  cbn [length seq combine].
  apply for_each_submit_stop;
    [now apply enumerate_loads | exact Hf | exact Hob].
Qed.

Lemma main_stops_at_failed_load_witness :
  Forall (loads sample_load) [str_of "data/a.faa"; str_of "data/b.faa"] /\
  sample_load (str_of "data/c.faa") = Raise FileNotFoundError /\
  obliging can_make can_write /\
  exists t,
    main sample_load sample_exists can_make can_write Gaudi.sub_file_data
      ([str_of "data/a.faa"; str_of "data/b.faa"]
       ++ str_of "data/c.faa" :: [str_of "data/d.faa"])
    = (t, Raise FileNotFoundError) /\
    commands t
    = flat_map commands_for
        (Collector.enumerate [str_of "data/a.faa"; str_of "data/b.faa"]) /\
    written t
    = map (script_for sample_load Gaudi.sub_file_data)
        (Collector.enumerate [str_of "data/a.faa"; str_of "data/b.faa"]) /\
    made t
    = flat_map (new_folder sample_exists)
        (Collector.enumerate [str_of "data/a.faa"; str_of "data/b.faa"]).
Proof.
  assert (Hl : Forall (loads sample_load)
                 [str_of "data/a.faa"; str_of "data/b.faa"]).
  { repeat constructor; eexists; reflexivity. }
  assert (Hob : obliging can_make can_write) by (split; reflexivity).
  split; [exact Hl|]. split; [reflexivity|]. split; [exact Hob|].
  exact (main_stops_at_failed_load sample_load sample_exists can_make
           can_write Gaudi.sub_file_data _ [str_of "data/d.faa"]
           (str_of "data/c.faa") FileNotFoundError Hl eq_refl Hob).
Defined.

(** ** The job script *)

Lemma decimal_no_break (s : str) :
  forallb is_decimal s = true -> ~ In LF s /\ ~ In CR s.
Proof.
  intros H. rewrite forallb_forall in H.
  split; intros Hin; apply H in Hin; discriminate Hin.
Qed.

Lemma str_int_no_break (z : Z) : ~ In LF (str_int z) /\ ~ In CR (str_int z).
Proof.
  unfold str_int.
  destruct (decimal_no_break _ (str_nat_decimal (Z.to_nat (- z)))) as [H1 H2].
  destruct (decimal_no_break _ (str_nat_decimal (Z.to_nat z))) as [H3 H4].
  destruct (z <? 0)%Z; [|now split].
  split; intros [H|H]; try discriminate H; auto.
Qed.

Lemma no_break_app (a b : str) :
  (~ In LF a /\ ~ In CR a) -> (~ In LF b /\ ~ In CR b) ->
  ~ In LF (a ++ b) /\ ~ In CR (a ++ b).
Proof.
  intros [H1 H2] [H3 H4]. split; intros H; apply in_app_or in H; tauto.
Qed.

Lemma literal_no_break (s : str) :
  forallb (fun c => negb (c =? LF) && negb (c =? CR)) s = true ->
  ~ In LF s /\ ~ In CR s.
Proof.
  intros H. rewrite forallb_forall in H.
  split; intros Hin; apply H in Hin; discriminate Hin.
Qed.

Lemma text_lines_well_lined (lines : list str) (rest : str) :
  Forall (fun line => ~ In LF line /\ ~ In CR line) lines ->
  rest <> [] -> ~ In LF rest /\ ~ In CR rest ->
  file_lines (text_lines lines ++ rest)
  = map (fun line => line ++ [LF]) lines ++ [rest].
Proof.
  intros Hl Hne [H1 H2].
  assert (Hw : TextLines.well_lined
                 (map (fun line => line ++ [LF]) lines ++ [rest])).
  { induction Hl as [|line lines [Ha Hb] _ IH]; cbn [map app].
    - now apply TextLines.wl_last.
    - now apply TextLines.wl_cons. }
  rewrite <- (file_lines_concat _ Hw) at 1.
  unfold text_lines. rewrite concat_app. cbn [concat].
  now rewrite app_nil_r.
Qed.

Ltac no_break :=
  repeat first
    [ apply no_break_app
    | apply str_int_no_break
    | apply decimal_no_break, str_nat_decimal
    | apply literal_no_break; reflexivity ].

Lemma array_request (n : nat) :
  (n = 0%nat -> str_int (Z.of_nat n - 1) = str_of "-1") /\
  ((0 < n)%nat -> str_int (Z.of_nat n - 1) = str_nat (n - 1)).
Proof.
  split.
  - intros ->. reflexivity.
  - intros Hn. unfold str_int.
    destruct (Z.ltb_spec (Z.of_nat n - 1) 0); [lia|].
    f_equal. lia.
Qed.

(** X21: the job script of either submitter, read line by line, has
    exactly one line that asks for a job array, and it asks for the tasks
    [0] to [n - 1], [n] being the number of entries: [0-<n-1>] where there
    is an entry, and [0--1] where there is none. *)
Theorem sub_file_data_array_line (j n : nat) :
  array_lines (Gpu.sub_file_data j n)
  = [str_of "#SBATCH --array=0-" ++ str_int (Z.of_nat n - 1) ++ [LF]] /\
  array_lines (Gaudi.sub_file_data j n)
  = [str_of "#SBATCH --array=0-" ++ str_int (Z.of_nat n - 1) ++ [LF]] /\
  (n = 0%nat -> str_int (Z.of_nat n - 1) = str_of "-1") /\
  ((0 < n)%nat -> str_int (Z.of_nat n - 1) = str_nat (n - 1)).
Proof.
  split; [|split; [|apply array_request]].
  - unfold array_lines, Gpu.sub_file_data.
    rewrite text_lines_well_lined;
      [reflexivity | repeat constructor; no_break | discriminate | no_break].
  - unfold array_lines, Gaudi.sub_file_data.
    rewrite text_lines_well_lined;
      [reflexivity | repeat constructor; no_break | discriminate | no_break].
Qed.

Lemma sub_file_data_array_line_witness :
  array_lines (Gpu.sub_file_data 4 0)
  = [str_of "#SBATCH --array=0--1" ++ [LF]] /\
  (0 < 3)%nat /\
  array_lines (Gaudi.sub_file_data 4 3)
  = [str_of "#SBATCH --array=0-" ++ str_nat 2 ++ [LF]].
Proof.
  destruct (sub_file_data_array_line 4 0) as (Hgpu & _ & Hnone & _).
  destruct (sub_file_data_array_line 4 3) as (_ & Hgaudi & _ & Hsome).
  split; [|split; [lia|]].
  - rewrite Hgpu, (Hnone eq_refl). reflexivity.
  - rewrite Hgaudi, Hsome by lia. reflexivity.
Defined.

End Submitter.
